(** * kpt: error resolver, [fn eval] preflight and package differ

    A shallow embedding of four pieces of kpt:
    - [internal/errors/resolver/pkg.go]: user-facing messages for Kptfile
      errors ([Module Resolver]);
    - [thirdparty/cmdconfig/commands/cmdeval/cmdeval.go]: preflight and run
      of [kpt fn eval] and saving the evaluated function ([Module CmdEval]);
    - the command and the package differ of [kpt pkg diff] ([Module Diff]);
    - the order of inventories in the runner of the live tests
      ([Module Live]).

    The definitions come first; their properties follow in
    [ResolverFacts], [CmdEvalFacts], [DiffFacts] and [LiveFacts].

    Go strings are [string]; a Go [error] value that may be [nil] is an
    [option]; Go maps with string keys are [gmap string _]. *)

From stdpp Require Import base option list sorting strings pretty gmap.
From Stdlib Require Import ZArith Lia.

(** ** Strings *)

(** The newline character, written [\n] in the Go sources. *)
Definition nl : string := String (Ascii.ascii_of_nat 10) EmptyString.

(** [cites sub s]: the text [sub] occurs in [s]. *)
Definition cites (sub s : string) : Prop :=
  exists pre post : string, s = pre +:+ sub +:+ post.

(** Concatenation of a list of strings. *)
Definition concat_strings (l : list string) : string :=
  foldr String.append "" l.

(** * The error resolver for Kptfile errors (internal/errors/resolver/pkg.go) *)
Module Resolver.

(** [git.RepoSpec]: only what identifies the remote package. *)
Record RepoSpec := { OrgRepo : string; RepoPath : string; Ref : string }.

(** [schema.GroupVersionKind]. *)
Record GroupVersionKind := { Group : string; Version : string; Kind : string }.

(** [GroupVersionKind.String]. *)
Definition GVK_String (g : GroupVersionKind) : string :=
  Group g +:+ "/" +:+ Version g +:+ ", Kind=" +:+ Kind g.

(** Go error values that can reach the resolver.  Errors that wrap another
    error carry it in [Err]; [None] is a nil [Err]. *)
#[warnings="-register-all"]
Inductive error : Type :=
| ErrNotExist                                         (* os.ErrNotExist *)
| PathError (Op Path : string) (Err : option error)   (* *os.PathError *)
| KptfileError (Path : string) (Err : option error)   (* *pkg.KptfileError *)
| RemoteKptfileError (Spec : RepoSpec) (Err : option error)
| DeprecatedKptfileError (Version : string)
| UnknownKptfileResourceError (GVK : GroupVersionKind)
| ValidateError (Field Value Reason : string)         (* *kptfile.ValidateError *)
| errorString (msg : string).                         (* errors.New *)

(** Induction along the chain of wrapped errors. *)
Definition onErr (P : error -> Prop) (o : option error) : Prop :=
  match o with Some e => P e | None => True end.

Section ErrorChain.
Variable P : error -> Prop.
Hypothesis HNotExist : P ErrNotExist.
Hypothesis HPath : forall op p o, onErr P o -> P (PathError op p o).
Hypothesis HKptfile : forall p o, onErr P o -> P (KptfileError p o).
Hypothesis HRemote : forall sp o, onErr P o -> P (RemoteKptfileError sp o).
Hypothesis HDeprecated : forall v, P (DeprecatedKptfileError v).
Hypothesis HUnknown : forall g, P (UnknownKptfileResourceError g).
Hypothesis HValidate : forall f v r, P (ValidateError f v r).
Hypothesis HString : forall m, P (errorString m).

Fixpoint error_chain_ind (e : error) : P e :=
  match e with
  | ErrNotExist => HNotExist
  | PathError op p o =>
      HPath op p o
        (match o return onErr P o with
         | Some e' => error_chain_ind e' | None => I end)
  | KptfileError p o =>
      HKptfile p o
        (match o return onErr P o with
         | Some e' => error_chain_ind e' | None => I end)
  | RemoteKptfileError sp o =>
      HRemote sp o
        (match o return onErr P o with
         | Some e' => error_chain_ind e' | None => I end)
  | DeprecatedKptfileError v => HDeprecated v
  | UnknownKptfileResourceError g => HUnknown g
  | ValidateError f v r => HValidate f v r
  | errorString m => HString m
  end.
End ErrorChain.

(** [errors.Is(err, os.ErrNotExist)]: the sentinel occurs on the chain of
    [Unwrap]. *)
Fixpoint Is_ErrNotExist (e : error) : bool :=
  match e with
  | ErrNotExist => true
  | PathError _ _ o | KptfileError _ o | RemoteKptfileError _ o =>
      match o with Some e' => Is_ErrNotExist e' | None => false end
  | _ => false
  end.

(** [errors.As(err, &kptfileError)]: the first [*pkg.KptfileError] on the
    chain, as that error value. *)
Fixpoint As_KptfileError (e : error) : option error :=
  match e with
  | KptfileError _ _ => Some e
  | PathError _ _ o | RemoteKptfileError _ o =>
      match o with Some e' => As_KptfileError e' | None => None end
  | _ => None
  end.

Fixpoint As_RemoteKptfileError (e : error) : option error :=
  match e with
  | RemoteKptfileError _ _ => Some e
  | PathError _ _ o | KptfileError _ o =>
      match o with Some e' => As_RemoteKptfileError e' | None => None end
  | _ => None
  end.

Fixpoint As_DeprecatedKptfileError (e : error) : option string :=
  match e with
  | DeprecatedKptfileError v => Some v
  | PathError _ _ o | KptfileError _ o | RemoteKptfileError _ o =>
      match o with Some e' => As_DeprecatedKptfileError e' | None => None end
  | _ => None
  end.

Fixpoint As_UnknownKptfileResourceError (e : error) : option GroupVersionKind :=
  match e with
  | UnknownKptfileResourceError g => Some g
  | PathError _ _ o | KptfileError _ o | RemoteKptfileError _ o =>
      match o with Some e' => As_UnknownKptfileResourceError e' | None => None end
  | _ => None
  end.

Fixpoint As_ValidateError (e : error) : option (string * string * string) :=
  match e with
  | ValidateError f v r => Some (f, v, r)
  | PathError _ _ o | KptfileError _ o | RemoteKptfileError _ o =>
      match o with Some e' => As_ValidateError e' | None => None end
  | _ => None
  end.

(** Values stored in the template arguments, a [map[string]interface{}]. *)
Inductive tmplValue : Type :=
| VString (s : string)
| VError (e : option error)     (* a possibly nil error pointer *)
| VGVK (g : GroupVersionKind).

(** A message template: literal text, [{{ printf "%q" .field }}] (with an
    optional method call, as in [.gvk.String]) and
    [{{- template "name" . }}]. *)
Inductive segment : Type :=
| Text (s : string)
| PrintfQ (field : string) (method : option string)
| Template (name : string).

Definition noKptfileMsg : list segment :=
  [ Text (nl +:+ "Error: No Kptfile found at "); PrintfQ "path" None;
    Text ("." +:+ nl) ].

Definition deprecatedKptfileMsg : list segment :=
  [ Text (nl +:+ "Error: Kptfile at "); PrintfQ "path" None;
    Text " has an old version ("; PrintfQ "version" None;
    Text (") of the Kptfile schema. Please update the package to the latest format. See https://kpt.dev/installation/migration for more details." +:+ nl) ].

Definition unknownKptfileResourceMsg : list segment :=
  [ Text (nl +:+ "Error: Kptfile at "); PrintfQ "path" None;
    Text " has an unknown resource type ("; PrintfQ "gvk" (Some "String");
    Text (")." +:+ nl) ].

Definition kptfileReadErrMsg : list segment :=
  [ Text (nl +:+ "Error: Kptfile at "); PrintfQ "path" None;
    Text " can't be read."; Template "NestedErrDetails"; Text nl ].

Record ResolvedResult := { Message : string }.

Section Rendering.

(** What the resolver takes from outside this file: Go's [%q] quoting of
    a string, [RepoSpec.RepoRef], the shared sub-templates (defined with
    the resolver's base template) and [ValidateError.Error]. *)
Variable quote : string -> string.
Variable RepoRef : RepoSpec -> string.
Variable subTemplate : string -> gmap string tmplValue -> string.
Variable ValidateError_Error : string -> string -> string -> string.

(** [printf "%q"] applied to the value of a field. *)
Definition printf_q (v : option tmplValue) (method : option string) : string :=
  match v, method with
  | Some (VString s), None => quote s
  | Some (VGVK g), Some "String" => quote (GVK_String g)
  | _, _ => "%!q(<nil>)"
  end.

Definition render (args : gmap string tmplValue) (s : segment) : string :=
  match s with
  | Text t => t
  | PrintfQ f m => printf_q (args !! f) m
  | Template n => subTemplate n args
  end.

(** Modelled from the spec: [ExecuteTemplate] (resolver.go is not under
    src/) formats the human-readable message from the template of the
    error kind, filling in the template arguments. *)
Definition ExecuteTemplate (tmpl : list segment)
    (args : gmap string tmplValue) : string :=
  concat_strings (render args <$> tmpl).

Definition resolveNestedErr (err : error) (tmplArgs : gmap string tmplValue)
    : ResolvedResult * bool :=
  if Is_ErrNotExist err then
    ({| Message := ExecuteTemplate noKptfileMsg tmplArgs |}, true)
  else
    match As_DeprecatedKptfileError err with
    | Some version =>
        let tmplArgs := <["version" := VString version]> tmplArgs in
        ({| Message := ExecuteTemplate deprecatedKptfileMsg tmplArgs |}, true)
    | None =>
        match As_UnknownKptfileResourceError err with
        | Some gvk =>
            let tmplArgs := <["gvk" := VGVK gvk]> tmplArgs in
            ({| Message := ExecuteTemplate unknownKptfileResourceMsg tmplArgs |}, true)
        | None =>
            ({| Message := ExecuteTemplate kptfileReadErrMsg tmplArgs |}, true)
        end
    end.

Definition Resolve (err : error) : ResolvedResult * bool :=
  match As_KptfileError err with
  | Some (KptfileError path _ as kptfileError) =>
      let tmplArgs : gmap string tmplValue :=
        <["err" := VError (Some kptfileError)]> (<["path" := VString path]> ∅) in
      resolveNestedErr kptfileError tmplArgs
  | _ =>
      match As_RemoteKptfileError err with
      | Some (RemoteKptfileError spec _ as remoteKptfileError) =>
          let path := RepoRef spec in
          (* "err" is bound to kptfileError, which is nil on this path *)
          let tmplArgs : gmap string tmplValue :=
            <["err" := VError None]> (<["path" := VString path]> ∅) in
          resolveNestedErr remoteKptfileError tmplArgs
      | _ =>
          match As_ValidateError err with
          | Some (f, v, r) =>
              ({| Message := ValidateError_Error f v r |}, true)
          | None => ({| Message := "" |}, false)
          end
      end
  end.

(** Where the Kptfile of an error lives, as [Resolve] reads it: the path
    of the local Kptfile, or the repo reference of a remote one. *)
Definition kptfileLocation (err : error) : option string :=
  match As_KptfileError err with
  | Some (KptfileError path _) => Some path
  | _ =>
      match As_RemoteKptfileError err with
      | Some (RemoteKptfileError spec _) => Some (RepoRef spec)
      | _ => None
      end
  end.

(** The deprecation message, as [Resolve] renders it. *)
Definition deprecationMessage (path version : string) : string :=
  nl +:+ "Error: Kptfile at " +:+ quote path +:+ " has an old version ("
  +:+ quote version
  +:+ ") of the Kptfile schema. Please update the package to the latest format. See https://kpt.dev/installation/migration for more details."
  +:+ nl.

End Rendering.

(** What a Kptfile on disk can hold: bytes that do not parse, or a document
    with its group, version and kind. *)
Inductive fileContent : Type :=
| Unparseable (detail : string)
| Document (gvk : GroupVersionKind).

Definition kptfilePath (dir : string) : string := dir +:+ "/Kptfile".

Section Loader.

(** The schema versions that were current before [v1]. *)
Variable DeprecatedKptfileVersions : list string.

(** Modelled from the spec: the manifest loader ([pkg.ReadKptfile]) is
    not under src/.  A Kptfile is a document of kind [Kptfile] with
    [apiVersion: kpt.dev/v1]; a missing, unparseable, unknown-kind or
    old-version manifest is a manifest error citing the path, and an old
    version is rejected with a deprecation error rather than migrated. *)
Definition ReadKptfile (fs : gmap string fileContent) (dir : string)
    : error + GroupVersionKind :=
  match fs !! kptfilePath dir with
  | None =>
      inl (KptfileError dir
             (Some (PathError "open" (kptfilePath dir) (Some ErrNotExist))))
  | Some (Unparseable detail) =>
      inl (KptfileError dir (Some (errorString detail)))
  | Some (Document gvk) =>
      if bool_decide (Group gvk = "kpt.dev" /\ Kind gvk = "Kptfile") then
        if bool_decide (Version gvk = "v1") then inr gvk
        else if bool_decide (Version gvk ∈ DeprecatedKptfileVersions) then
          inl (KptfileError dir (Some (DeprecatedKptfileError (Version gvk))))
        else inl (KptfileError dir (Some (UnknownKptfileResourceError gvk)))
      else inl (KptfileError dir (Some (UnknownKptfileResourceError gvk)))
  end.

End Loader.

(** The four kinds of manifest error of the specification. *)
Inductive manifestErrorKind : Type :=
| Missing
| DeprecatedVersion (version : string)
| UnknownKind (gvk : GroupVersionKind)
| Unreadable (detail : string).

(** The template the resolver uses for each kind. *)
Definition templateOf (k : manifestErrorKind) : list segment :=
  match k with
  | Missing => noKptfileMsg
  | DeprecatedVersion _ => deprecatedKptfileMsg
  | UnknownKind _ => unknownKptfileResourceMsg
  | Unreadable _ => kptfileReadErrMsg
  end.

(** The error a manifest error of each kind is caused by. *)
Definition causeOf (k : manifestErrorKind) : error :=
  match k with
  | Missing => PathError "open" "Kptfile" (Some ErrNotExist)
  | DeprecatedVersion v => DeprecatedKptfileError v
  | UnknownKind g => UnknownKptfileResourceError g
  | Unreadable d => errorString d
  end.

(** A host for running the resolver on examples: [%q] of a string without
    special characters, and a repo reference [repo/path@ref]. *)
Definition dquote : string := String (Ascii.ascii_of_nat 34) EmptyString.
Definition sampleQuote (s : string) : string := dquote +:+ s +:+ dquote.
Definition sampleRepoRef (r : RepoSpec) : string :=
  OrgRepo r +:+ "/" +:+ RepoPath r +:+ "@" +:+ Ref r.
Definition sampleSubTemplate (name : string) (args : gmap string tmplValue)
    : string := "".
Definition sampleValidateError (f v r : string) : string :=
  "Kptfile is invalid: " +:+ f.

Definition sampleSpec : RepoSpec :=
  {| OrgRepo := "https://github.com/GoogleContainerTools/kpt";
     RepoPath := "package-examples/wordpress"; Ref := "v0.1" |}.

Definition sampleFs : gmap string fileContent :=
  {[ "wordpress/Kptfile" :=
       Document {| Group := "kpt.dev"; Version := "v1alpha2"; Kind := "Kptfile" |} ]}.

(** ** The other messages *)

Section Messages.

Variable quote : string -> string.

(** [noKptfileMsg] and [unknownKptfileResourceMsg], as [Resolve] renders
    them. *)
Definition missingMessage (path : string) : string :=
  nl +:+ "Error: No Kptfile found at " +:+ quote path +:+ "." +:+ nl.

Definition unknownMessage (path : string) (gvk : GroupVersionKind) : string :=
  nl +:+ "Error: Kptfile at " +:+ quote path
  +:+ " has an unknown resource type (" +:+ quote (GVK_String gvk) +:+ ")."
  +:+ nl.

End Messages.



End Resolver.

(** * Preflight of [kpt fn eval] (thirdparty/cmdconfig/commands/cmdeval) *)
Module CmdEval.

(** Errors of this command are messages. *)
Definition error : Type := string.

(** The outcome of a Go call that returns [(value, error)] and may panic. *)
Inductive result (A : Type) : Type :=
| Ok (a : A)
| Err (e : error)
| Panic.
Arguments Ok {A} a.
Arguments Err {A} e.
Arguments Panic {A}.

#[global] Instance result_ret : MRet result := fun A a => Ok a.
#[global] Instance result_bind : MBind result := fun A B f m =>
  match m with
  | Ok a => f a
  | Err e => Err e
  | Panic => Panic
  end.

(** [v, err := f(); if err != nil { return err }] *)
Definition lift {A : Type} (x : error + A) : result A :=
  match x with inl e => Err e | inr a => Ok a end.

(** [if err != nil { return err }] *)
Definition check (e : option error) : result unit :=
  match e with Some e => Err e | None => Ok tt end.

(** ** [strings.SplitN(s, "=", 2)] *)

Definition eqSign : Ascii.ascii := Ascii.ascii_of_nat 61.

(** The text before and after the first occurrence of [sep]. *)
Fixpoint cut (sep : Ascii.ascii) (s : string) : option (string * string) :=
  match s with
  | EmptyString => None
  | String c s' =>
      if Ascii.eqb c sep then Some (EmptyString, s')
      else match cut sep s' with
           | Some (a, b) => Some (String c a, b)
           | None => None
           end
  end.

(** [strings.SplitN(s, sep, 2)]: [s] itself when [sep] does not occur. *)
Definition SplitN2 (sep : Ascii.ascii) (s : string) : list string :=
  match cut sep s with
  | Some (a, b) => [a; b]
  | None => [s]
  end.

(** [sep] occurs in [s]. *)
Fixpoint mentions (sep : Ascii.ascii) (s : string) : bool :=
  match s with
  | EmptyString => false
  | String c s' => Ascii.eqb c sep || mentions sep s'
  end.

(** The command-line argument [key=value]. *)
Definition keyValue (kv : string * string) : string :=
  kv.1 +:+ String eqSign kv.2.

(** ** YAML nodes *)

(** The nodes of [yaml.RNode] that the function config is made of:
    scalars and mappings with their fields in document order. *)
#[warnings="-register-all"]
Inductive RNode : Type :=
| ScalarNode (value : string)
| MappingNode (fields : list (string * RNode)).

(** Replace the value of field [name], or append the field when absent. *)
Fixpoint setField (name : string) (value : RNode)
    (fields : list (string * RNode)) : list (string * RNode) :=
  match fields with
  | [] => [(name, value)]
  | (k, v) :: rest =>
      if String.eqb k name then (k, value) :: rest
      else (k, v) :: setField name value rest
  end.

Fixpoint field (name : string) (fields : list (string * RNode)) : option RNode :=
  match fields with
  | [] => None
  | (k, v) :: rest => if String.eqb k name then Some v else field name rest
  end.

(** [rn.PipeE(yaml.SetField(name, value))]: sets a field of a mapping; a
    field name is required on a mapping, and any other node is refused. *)
Definition SetField (name : string) (value : RNode) (rn : RNode) : result RNode :=
  match rn with
  | MappingNode fields =>
      if String.eqb name "" then Err "wrong node kind: expected ScalarNode but got MappingNode"
      else Ok (MappingNode (setField name value fields))
  | ScalarNode _ => Err "wrong node kind: expected MappingNode but got ScalarNode"
  end.

(** [rn.Pipe(yaml.Lookup(name))] *)
Definition Lookup (name : string) (rn : RNode) : result (option RNode) :=
  match rn with
  | MappingNode fields => Ok (field name fields)
  | ScalarNode _ => Ok None
  end.

(** The document parsed at the start of [getCLIFunctionConfig]. *)
Definition functionInput : RNode :=
  MappingNode [ ("metadata", MappingNode [("name", ScalarNode "function-input")]);
                ("data", MappingNode []) ].

(** ** The runner *)

(** [kptfile.Selector], with the fields the [--match-*] flags fill in,
    [kptfile.Function], [kptfile.Pipeline] and [kptfile.KptFile]. *)
Module kptfile.

Module Selector.
Record t := {
  APIVersion : string;
  Kind : string;
  Name : string;
  Namespace : string
}.

Definition IsEmpty (s : t) : bool :=
  String.eqb (APIVersion s) "" && String.eqb (Kind s) "" &&
  String.eqb (Name s) "" && String.eqb (Namespace s) "".
End Selector.

(** A nil [ConfigMap] is the empty map. *)
Record Function := {
  Image : string;
  Exec : string;
  ConfigPath : string;
  ConfigMap : gmap string string;
  Name : string;
  Selectors : list Selector.t
}.

(** A nil list of mutators is the empty list. *)
Record Pipeline := { Mutators : list Function; Validators : list Function }.

(** The [Pipeline] field is a pointer: it may be absent. *)
Record KptFile := { pipeline : option Pipeline }.

End kptfile.

(** [runtimeutil.FunctionSpec], with [Container.Image] and [Exec.Path],
    and [runtimeutil.StorageMount]. *)
Module runtimeutil.

Record FunctionSpec := {
  Container_Image : string;
  Exec_Path : string
}.

Record StorageMount := {
  MountType : string;
  Src : string;
  DstPath : string;
  ReadWriteMode : bool
}.

End runtimeutil.
Import runtimeutil.

Module fnruntime.
Inductive ImagePullPolicy := AlwaysPull | IfNotPresentPull | NeverPull.
End fnruntime.

(** Where the run writes its output and reads its input: [nil], the
    runner's [OutContent] buffer, the command's standard input. *)
Inductive writer := OutContent.
Inductive reader := InOrStdin.

(** [runfn.RunFns], as [preRunE] fills it in. *)
Module runfn.

Record RunFns := {
  Function : FunctionSpec;
  ExecArgs : list string;
  OriginalExec : string;
  Output : option writer;
  Input : option reader;
  Path : string;
  Network : bool;
  StorageMounts : list StorageMount;
  ResultsDir : string;
  Env : list string;
  AsCurrentUser : bool;
  FnConfig : option RNode;
  FnConfigPath : string;
  IncludeMetaResources : bool;
  ImagePullPolicy : fnruntime.ImagePullPolicy;
  ContinueOnEmptyResult : bool;
  Selector : kptfile.Selector.t
}.

End runfn.

(** The runner; its [RunFns] is unset ([None]) until preflight fills it. *)
Record EvalFnRunner := {
  Dest : string;
  FromStdin : bool;
  Image : string;
  SaveFn : bool;
  Exec : string;
  FnConfigPath : string;
  RunFns : option runfn.RunFns;
  ResultsDir : string;
  ImagePullPolicy : string;
  Network : bool;
  Mounts : list string;
  Env : list string;
  AsCurrentUser : bool;
  IncludeMetaResources : bool;
  Selector : kptfile.Selector.t;
  dataItems : list string
}.

Definition set_Image (v : string) (r : EvalFnRunner) : EvalFnRunner :=
  {| Dest := Dest r; FromStdin := FromStdin r; Image := v; SaveFn := SaveFn r;
     Exec := Exec r; FnConfigPath := FnConfigPath r; RunFns := RunFns r;
     ResultsDir := ResultsDir r; ImagePullPolicy := ImagePullPolicy r;
     Network := Network r; Mounts := Mounts r; Env := Env r;
     AsCurrentUser := AsCurrentUser r;
     IncludeMetaResources := IncludeMetaResources r; Selector := Selector r;
     dataItems := dataItems r |}.

Definition set_dataItems (v : list string) (r : EvalFnRunner) : EvalFnRunner :=
  {| Dest := Dest r; FromStdin := FromStdin r; Image := Image r; SaveFn := SaveFn r;
     Exec := Exec r; FnConfigPath := FnConfigPath r; RunFns := RunFns r;
     ResultsDir := ResultsDir r; ImagePullPolicy := ImagePullPolicy r;
     Network := Network r; Mounts := Mounts r; Env := Env r;
     AsCurrentUser := AsCurrentUser r;
     IncludeMetaResources := IncludeMetaResources r; Selector := Selector r;
     dataItems := v |}.

Definition set_FromStdin (v : bool) (r : EvalFnRunner) : EvalFnRunner :=
  {| Dest := Dest r; FromStdin := v; Image := Image r; SaveFn := SaveFn r;
     Exec := Exec r; FnConfigPath := FnConfigPath r; RunFns := RunFns r;
     ResultsDir := ResultsDir r; ImagePullPolicy := ImagePullPolicy r;
     Network := Network r; Mounts := Mounts r; Env := Env r;
     AsCurrentUser := AsCurrentUser r;
     IncludeMetaResources := IncludeMetaResources r; Selector := Selector r;
     dataItems := dataItems r |}.

Definition set_RunFns (v : runfn.RunFns) (r : EvalFnRunner) : EvalFnRunner :=
  {| Dest := Dest r; FromStdin := FromStdin r; Image := Image r; SaveFn := SaveFn r;
     Exec := Exec r; FnConfigPath := FnConfigPath r; RunFns := Some v;
     ResultsDir := ResultsDir r; ImagePullPolicy := ImagePullPolicy r;
     Network := Network r; Mounts := Mounts r; Env := Env r;
     AsCurrentUser := AsCurrentUser r;
     IncludeMetaResources := IncludeMetaResources r; Selector := Selector r;
     dataItems := dataItems r |}.

(** ** [getCLIFunctionConfig] *)

Definition argsError : error := "args must have keys and values separated by =".

(** The loop over [dataItems]: [i] is the index of the first item of
    [items]; the state is the kind and the fields of [data]. *)
Fixpoint dataLoop (i : nat) (items : list string) (kind : string) (dataField : RNode)
    : result (string * RNode) :=
  match items with
  | [] => Ok (kind, dataField)
  | s :: rest =>
      let kv := SplitN2 eqSign s in
      if Nat.eqb i 0 && Nat.eqb (length kv) 1 then
        (* first argument may be the kind *)
        dataLoop (S i) rest s dataField
      else if negb (Nat.eqb (length kv) 2) then Err argsError
      else
        match kv with
        | [k; v] =>
            dataField ← SetField k (ScalarNode v) dataField;
            dataLoop (S i) rest kind dataField
        | _ => Panic
        end
  end.

Definition getCLIFunctionConfig (r : EvalFnRunner) (dataItems : list string)
    : result (option RNode) :=
  if String.eqb (Image r) "" && String.eqb (Exec r) "" then Ok None
  else
    (* create the function config *)
    let rc := functionInput in
    (* default the function config kind to ConfigMap, this may be overridden *)
    let kind := "ConfigMap" in
    let version := "v1" in
    '(kind, rc) ←
      (if Nat.ltb 0 (length dataItems) then
         dataField ← Lookup "data" rc;
         match dataField with
         | Some dataField =>
             '(kind, dataField) ← dataLoop 0 dataItems kind dataField;
             (* [dataField] is the node inside [rc] *)
             rc ← SetField "data" dataField rc;
             Ok (kind, rc)
         | None => Panic
         end
       else Ok (kind, rc));
    rc ← SetField "kind" (ScalarNode kind) rc;
    rc ← SetField "apiVersion" (ScalarNode version) rc;
    Ok (Some rc).

(** ** What the command takes from its host

    The packages [cmdutil], [fnruntime], [argutil], [pathutil], the
    [kptfile] API, [shlex] and the operating system are not part of this
    file.  Each call into them is a field of [Host]: a call that returns
    only an error is an [option error], a call that returns a value or an
    error is a sum with the error on the left. *)
Record Host := {
  CheckDirectoryNotPresent : string -> option error;
  DockerCmdAvailable : option error;
  ValidateImagePullPolicyValue : string -> option error;
  StringToImagePullPolicy : string -> fnruntime.ImagePullPolicy;
  MkdirAll : string -> option error;
  (** [os.Stat(path)] reports that the file does not exist *)
  IsNotExist : string -> bool;
  ResolveSymlink : string -> error + string;
  (** the relative path computed by [pathutil.ResolveAbsAndRelPaths] *)
  ResolveRelPath : string -> string;
  ValidateFunctionImageURL : string -> option error;
  shlex_Split : string -> error + list string;
  StringToStorageMount : string -> StorageMount;
  (** [%q] of [fmt] on a string *)
  quote : string -> string;
  (** the default registry of function images, and the test for an image
      name that carries no registry *)
  defaultImagePathPrefix : string;
  unqualified : string -> bool
}.

(** [cmdutil.Stdout] and [cmdutil.Unwrap]. *)
Definition Stdout : string := "stdout".
Definition Unwrap : string := "unwrap".

(** [cobra.Command]: what [preRunE] reads is [ArgsLenAtDash], the number
    of arguments before [--], or -1 without [--]. *)
Record Command := { ArgsLenAtDash : Z }.

(** [s != ""] *)
Definition nonEmpty (s : string) : bool := negb (String.eqb s "").

Section WithHost.

Context (H : Host).

(** Modelled from the spec: [fnruntime.AddDefaultImagePathPrefix] is not
    under src/; it applies the default registry prefix when the image is
    unqualified. *)
Definition AddDefaultImagePathPrefix (image : string) : string :=
  if unqualified H image then defaultImagePathPrefix H +:+ image else image.

Definition flagsError : error :=
  "--mount, --as-current-user, --network and --env can only be used with container functions".

Definition getFunctionSpec (r : EvalFnRunner)
    : result (FunctionSpec * list string) :=
  let fn := {| Container_Image := ""; Exec_Path := "" |} in
  let execArgs : list string := [] in
  if nonEmpty (Image r) then
    _ ← check (ValidateFunctionImageURL H (Image r));
    Ok ({| Container_Image := Image r; Exec_Path := Exec_Path fn |}, execArgs)
  else if nonEmpty (Exec r) then
    (* check the flags that doesn't make sense with exec function *)
    if AsCurrentUser r || Network r ||
       negb (Nat.eqb (length (Mounts r)) 0) || negb (Nat.eqb (length (Env r)) 0)
    then Err flagsError
    else
      match shlex_Split H (Exec r) with
      | inl e =>
          Err ("exec command " +:+ quote H (Exec r) +:+ " must be valid: " +:+ e)
      | inr s =>
          match s with
          | path :: rest =>
              Ok ({| Container_Image := Container_Image fn; Exec_Path := path |}, rest)
          | [] => Ok (fn, execArgs)
          end
      end
  else Ok (fn, execArgs).

Definition toStorageMounts (mounts : list string) : list StorageMount :=
  StringToStorageMount H <$> mounts.

Definition checkFnConfigPathExistence (path : string) : option error :=
  if IsNotExist H path then Some ("missing function config file: " +:+ path)
  else None.

Definition imageOrExecError : error := "must specify --image or --exec".
Definition usageError : error :=
  "0 or 1 arguments supported, function arguments go after '--'".
Definition fnConfigArgsError : error :=
  "function arguments can only be specified without function config file".

(** [args[c.ArgsLenAtDash():]] and [args[:c.ArgsLenAtDash()]]: slicing
    beyond the length of [args] panics. *)
Definition splitAtDash (c : Command) (args : list string)
    : result (list string * list string) :=
  if (0 <=? ArgsLenAtDash c)%Z then
    if (ArgsLenAtDash c <=? Z.of_nat (length args))%Z then
      Ok (drop (Z.to_nat (ArgsLenAtDash c)) args,
          take (Z.to_nat (ArgsLenAtDash c)) args)
    else Panic
  else Ok ([], args).

Definition preRunE (r : EvalFnRunner) (c : Command) (args : list string)
    : result EvalFnRunner :=
  _ ← (if nonEmpty (Dest r) && negb (String.eqb (Dest r) Stdout)
          && negb (String.eqb (Dest r) Unwrap)
       then check (CheckDirectoryNotPresent H (Dest r)) else Ok tt);
  _ ← (if String.eqb (Image r) "" && String.eqb (Exec r) ""
       then Err imageOrExecError else Ok tt);
  r ← (if nonEmpty (Image r) then
         let r := set_Image (AddDefaultImagePathPrefix (Image r)) r in
         _ ← check (DockerCmdAvailable H);
         Ok r
       else Ok r);
  _ ← check (ValidateImagePullPolicyValue H (ImagePullPolicy r));
  _ ← (if nonEmpty (ResultsDir r) then
         match MkdirAll H (ResultsDir r) with
         | Some e =>
             Err ("cannot read or create results dir "
                  +:+ quote H (ResultsDir r) +:+ ": " +:+ e)
         | None => Ok tt
         end
       else Ok tt);
  '(dataItems, args) ← splitAtDash c args;
  let args := if Nat.eqb (length args) 0
              then args ++ ["."]   (* default to current working directory *)
              else args in
  _ ← (if Nat.ltb 1 (length args) then Err usageError else Ok tt);
  _ ← (if Nat.ltb 0 (length dataItems) && nonEmpty (FnConfigPath r)
       then Err fnConfigArgsError else Ok tt);
  fnConfig ← getCLIFunctionConfig r dataItems;
  let r := set_dataItems dataItems r in
  '(fnSpec, execArgs) ← getFunctionSpec r;
  match args with
  | [] => Panic    (* args[0] *)
  | arg0 :: _ =>
      (* set the output to stdout if in dry-run mode or no arguments are specified *)
      let '(output, input, r, args) :=
        if String.eqb arg0 "-" then
          (* clear args as it indicates stdin and not path *)
          (Some OutContent, Some InOrStdin, set_FromStdin true r, [])
        else if nonEmpty (Dest r) then (Some OutContent, None, r, args)
        else (None, None, r, args) in
      (* set the path if specified as an argument *)
      let path := match args with [a] => a | _ => "" end in
      (* parse mounts to set storageMounts *)
      let storageMounts := toStorageMounts (Mounts r) in
      _ ← (if nonEmpty (FnConfigPath r)
           then check (checkFnConfigPathExistence (FnConfigPath r)) else Ok tt);
      path ← (if nonEmpty path then lift (ResolveSymlink H path) else Ok path);
      Ok (set_RunFns
            {| runfn.Function := fnSpec;
               runfn.ExecArgs := execArgs;
               runfn.OriginalExec := Exec r;
               runfn.Output := output;
               runfn.Input := input;
               runfn.Path := path;
               runfn.Network := Network r;
               runfn.StorageMounts := storageMounts;
               runfn.ResultsDir := ResultsDir r;
               runfn.Env := Env r;
               runfn.AsCurrentUser := AsCurrentUser r;
               runfn.FnConfig := fnConfig;
               runfn.FnConfigPath := FnConfigPath r;
               runfn.IncludeMetaResources := IncludeMetaResources r;
               runfn.ImagePullPolicy := StringToImagePullPolicy H (ImagePullPolicy r);
               runfn.ContinueOnEmptyResult := true;
               runfn.Selector := Selector r |} r)
  end.

(** ** Saving the function to the Kptfile *)

(** The loop of [NewFunction] over [dataItems]: [kv[1]] panics on an
    item without [=] that is not the first. *)
Fixpoint dataMapLoop (i : nat) (items : list string) (data : gmap string string)
    : result (gmap string string) :=
  match items with
  | [] => Ok data
  | s :: rest =>
      match SplitN2 eqSign s with
      | [k] => if Nat.eqb i 0 then dataMapLoop (S i) rest data else Panic
      | k :: v :: _ => dataMapLoop (S i) rest (<[k := v]> data)
      | [] => Panic
      end
  end.

Definition NewFunction (r : EvalFnRunner) : result kptfile.Function :=
  let '(image, exec, name) :=
    if nonEmpty (Image r) then (Image r, "", Image r) else ("", Exec r, Exec r) in
  let selectors :=
    if negb (kptfile.Selector.IsEmpty (Selector r)) then [Selector r] else [] in
  if nonEmpty (FnConfigPath r) then
    Ok {| kptfile.Image := image; kptfile.Exec := exec;
          kptfile.ConfigPath := ResolveRelPath H (FnConfigPath r);
          kptfile.ConfigMap := ∅;
          kptfile.Name := name; kptfile.Selectors := selectors |}
  else
    data ← dataMapLoop 0 (dataItems r) ∅;
    Ok {| kptfile.Image := image; kptfile.Exec := exec; kptfile.ConfigPath := "";
          (* only a non-empty map is assigned *)
          kptfile.ConfigMap := data;
          kptfile.Name := name; kptfile.Selectors := selectors |}.

Definition skipImageMsg : string :=
  "skip adding image: already exists in Kptfile" +:+ nl.
Definition skipExecMsg : string :=
  "skip adding exec: already exists in Kptfile" +:+ nl.
Definition addedMsg : string := "function is added to Kptfile" +:+ nl.
Definition noKptfileMsg : string := "function not added: Kptfile not exists" +:+ nl.

(** [&kptfile.Pipeline{}] with an empty list of mutators. *)
Definition emptyPipeline : kptfile.Pipeline :=
  {| kptfile.Mutators := []; kptfile.Validators := [] |}.

(** The search through the mutators: the message printed on the first
    match, if any. *)
Fixpoint alreadyThere (r : EvalFnRunner) (ms : list kptfile.Function)
    : option string :=
  match ms with
  | [] => None
  | m :: rest =>
      if String.eqb (kptfile.Name m) (Image r)
         || String.eqb (kptfile.Image m) (Image r)
      then Some skipImageMsg
      else if String.eqb (kptfile.Name m) (Exec r)
              || String.eqb (kptfile.Exec m) (Exec r)
      then Some skipExecMsg
      else alreadyThere r rest
  end.

(** [SaveFnToKptfile] on a store of Kptfiles by package path, with the
    outcome of [kptfileutil.WriteFile]: the new store and what is
    printed. *)
Definition SaveFnToKptfile (r : EvalFnRunner) (writeErr : option error)
    (store : gmap string kptfile.KptFile)
    : result (gmap string kptfile.KptFile * list string) :=
  match store !! Dest r with
  | None => Ok (store, [noKptfileMsg])
  | Some kf =>
      let pipeline := default emptyPipeline (kptfile.pipeline kf) in
      match alreadyThere r (kptfile.Mutators pipeline) with
      | Some msg => Ok (store, [msg])
      | None =>
          newFn ← NewFunction r;
          let kf' :=
            {| kptfile.pipeline :=
                 Some {| kptfile.Mutators := kptfile.Mutators pipeline ++ [newFn];
                         kptfile.Validators := kptfile.Validators pipeline |} |} in
          match writeErr with
          | Some e =>
              Ok (store, ["function is not added to Kptfile: " +:+ e +:+ nl])
          | None => Ok (<[Dest r := kf']> store, [addedMsg])
          end
      end
  end.

(** The runner after the default image prefix has been applied. *)
Definition prefixed (r : EvalFnRunner) : EvalFnRunner :=
  if nonEmpty (Image r)
  then set_Image (AddDefaultImagePathPrefix (Image r)) r else r.

End WithHost.

(** The positional arguments, with the default applied. *)
Definition withDefaultDir (args : list string) : list string :=
  if Nat.eqb (length args) 0 then args ++ ["."] else args.

(** No mutator is taken for the function of [r] by [SaveFnToKptfile]. *)
Definition noneTaken (r : EvalFnRunner) (ms : list kptfile.Function) : Prop :=
  Forall (fun m => kptfile.Name m <> Image r /\ kptfile.Image m <> Image r /\
                   kptfile.Name m <> Exec r /\ kptfile.Exec m <> Exec r) ms.

(** The fields of [data] after setting each pair in turn, and the Go map
    that receives the same pairs. *)
Definition dataFields (pairs : list (string * string)) : list (string * RNode) :=
  foldl (fun d kv => setField kv.1 (ScalarNode kv.2) d) [] pairs.

Definition dataMap (pairs : list (string * string)) : gmap string string :=
  foldl (fun m kv => <[kv.1 := kv.2]> m) ∅ pairs.

(** The function config: the parsed document with [data], [kind] and
    [apiVersion] set. *)
Definition functionConfig (kind : string) (data : list (string * RNode)) : RNode :=
  MappingNode [ ("metadata", MappingNode [("name", ScalarNode "function-input")]);
                ("data", MappingNode data);
                ("kind", ScalarNode kind);
                ("apiVersion", ScalarNode "v1") ].

(** A key that can be given on the command line as [key=value]. *)
Definition goodKey (kv : string * string) : Prop :=
  kv.1 <> "" /\ mentions eqSign kv.1 = false.

(** ** A host to run the command on examples *)

Definition slash : Ascii.ascii := Ascii.ascii_of_nat 47.
Definition space : Ascii.ascii := Ascii.ascii_of_nat 32.

Definition sampleHost : Host := {|
  CheckDirectoryNotPresent := fun _ => None;
  DockerCmdAvailable := None;
  ValidateImagePullPolicyValue := fun v =>
    if bool_decide (v ∈ ["Always"; "IfNotPresent"; "Never"]) then None
    else Some "image pull policy must be one of Always, IfNotPresent and Never";
  StringToImagePullPolicy := fun v =>
    if String.eqb v "Always" then fnruntime.AlwaysPull
    else if String.eqb v "Never" then fnruntime.NeverPull
    else fnruntime.IfNotPresentPull;
  MkdirAll := fun _ => None;
  IsNotExist := fun _ => false;
  ResolveSymlink := fun p => inr p;
  ResolveRelPath := fun p => p;
  ValidateFunctionImageURL := fun image =>
    if mentions space image then Some ("function name is not valid: " +:+ image)
    else None;
  shlex_Split := fun s => inr (String.words s);
  StringToStorageMount := fun m =>
    {| MountType := "bind"; Src := m; DstPath := m; ReadWriteMode := false |};
  quote := Resolver.sampleQuote;
  defaultImagePathPrefix := "gcr.io/kpt-fn/";
  unqualified := fun image => negb (mentions slash image)
|}.

Definition noSelector : kptfile.Selector.t :=
  {| kptfile.Selector.APIVersion := ""; kptfile.Selector.Kind := "";
     kptfile.Selector.Name := ""; kptfile.Selector.Namespace := "" |}.

(** [kpt fn eval] with the flags at their defaults and the given image,
    executable and config file. *)
Definition runner (image exec fnConfig : string) : EvalFnRunner :=
  {| Dest := ""; FromStdin := false; Image := image; SaveFn := false;
     Exec := exec; FnConfigPath := fnConfig; RunFns := None; ResultsDir := "";
     ImagePullPolicy := "IfNotPresent"; Network := false; Mounts := [];
     Env := []; AsCurrentUser := false; IncludeMetaResources := false;
     Selector := noSelector; dataItems := [] |}.

Definition noDash : Command := {| ArgsLenAtDash := -1 |}.
Definition dashAt (n : Z) : Command := {| ArgsLenAtDash := n |}.

(** The runner after preflight; it is the runner given when preflight
    fails. *)
Definition preflighted (H : Host) (r : EvalFnRunner) (c : Command)
    (args : list string) : EvalFnRunner :=
  match preRunE H r c args with
  | Ok r' => r'
  | _ => r
  end.

(** [kpt fn eval --image set-namespace:v0.1 --exec ./my-fn] *)
Definition imageAndExec : EvalFnRunner := runner "set-namespace:v0.1" "./my-fn" "".

(** [kpt fn eval --image set-namespace:v0.1] *)
Definition setNamespace : EvalFnRunner := runner "set-namespace:v0.1" "" "".

(** An exec function with its arguments on the command line. *)
Definition execRunner : EvalFnRunner := runner "" "./my-fn --level debug" "".

(** The same with [--network]. *)
Definition execRunnerNetwork : EvalFnRunner :=
  {| Dest := ""; FromStdin := false; Image := ""; SaveFn := false;
     Exec := "./my-fn --level debug"; FnConfigPath := ""; RunFns := None;
     ResultsDir := ""; ImagePullPolicy := "IfNotPresent"; Network := true;
     Mounts := []; Env := []; AsCurrentUser := false;
     IncludeMetaResources := false; Selector := noSelector; dataItems := [] |}.

(** ** Saving a second function *)

(** The mutator of the package of [sub-pkg/Kptfile]: an image with its
    config file, no name and no executable. *)
Definition setNamespaceFn : kptfile.Function :=
  {| kptfile.Image := "gcr.io/kpt-fn/set-namespace:v0.1.3"; kptfile.Exec := "";
     kptfile.ConfigPath := "fn-config.yaml"; kptfile.ConfigMap := ∅;
     kptfile.Name := ""; kptfile.Selectors := [] |}.

Definition subPkgKptfile : kptfile.KptFile :=
  {| kptfile.pipeline :=
       Some {| kptfile.Mutators := [setNamespaceFn]; kptfile.Validators := [] |} |}.

(** The Kptfile of the working directory. *)
Definition subPkgStore : gmap string kptfile.KptFile := {[ "" := subPkgKptfile ]}.

(** [kpt fn eval --image gcr.io/kpt-fn/set-labels:v0.1 --save -- app=web] *)
Definition saveSetLabels : EvalFnRunner :=
  {| Dest := ""; FromStdin := false; Image := "gcr.io/kpt-fn/set-labels:v0.1";
     SaveFn := true; Exec := ""; FnConfigPath := ""; RunFns := None;
     ResultsDir := ""; ImagePullPolicy := "IfNotPresent"; Network := false;
     Mounts := []; Env := []; AsCurrentUser := false;
     IncludeMetaResources := false; Selector := noSelector;
     dataItems := ["app=web"] |}.

(** A Kptfile whose only mutator is an executable, declared without a
    name. *)
Definition otherExecFn : kptfile.Function :=
  {| kptfile.Image := ""; kptfile.Exec := "./other-fn"; kptfile.ConfigPath := "";
     kptfile.ConfigMap := ∅; kptfile.Name := ""; kptfile.Selectors := [] |}.

Definition execPkgStore : gmap string kptfile.KptFile :=
  {[ "" := {| kptfile.pipeline :=
                Some {| kptfile.Mutators := [otherExecFn];
                        kptfile.Validators := [] |} |} ]}.

(** ** What preflight checks and what it builds *)

(** The output directory is to be checked: it is neither empty, nor
    [stdout], nor [unwrap]. *)
Definition destChecked (r : EvalFnRunner) : bool :=
  nonEmpty (Dest r) && negb (String.eqb (Dest r) Stdout)
  && negb (String.eqb (Dest r) Unwrap).

(** The runner that a successful [preRunE] returns, from the arguments
    after [--], the one positional argument, the resolved path, the
    function config and the function spec. *)
Definition preflightResult (H : Host) (r : EvalFnRunner) (items : list string)
    (arg0 path : string) (cfg : option RNode) (spec : FunctionSpec)
    (eargs : list string) : EvalFnRunner :=
  let r1 := set_dataItems items (prefixed H r) in
  let stdin := String.eqb arg0 "-" in
  set_RunFns
    {| runfn.Function := spec;
       runfn.ExecArgs := eargs;
       runfn.OriginalExec := Exec r;
       runfn.Output :=
         if stdin || nonEmpty (Dest r) then Some OutContent else None;
       runfn.Input := if stdin then Some InOrStdin else None;
       runfn.Path := path;
       runfn.Network := Network r;
       runfn.StorageMounts := toStorageMounts H (Mounts r);
       runfn.ResultsDir := ResultsDir r;
       runfn.Env := Env r;
       runfn.AsCurrentUser := AsCurrentUser r;
       runfn.FnConfig := cfg;
       runfn.FnConfigPath := FnConfigPath r;
       runfn.IncludeMetaResources := IncludeMetaResources r;
       runfn.ImagePullPolicy := StringToImagePullPolicy H (ImagePullPolicy r);
       runfn.ContinueOnEmptyResult := true;
       runfn.Selector := Selector r |}
    (if stdin then set_FromStdin true r1 else r1).

(** Everything [preRunE] requires, as one conjunction. *)
Definition preflightChecks (H : Host) (r : EvalFnRunner) (c : Command)
    (args items pos : list string) (arg0 path : string) (cfg : option RNode)
    (spec : FunctionSpec) (eargs : list string) : Prop :=
  (destChecked r = true -> CheckDirectoryNotPresent H (Dest r) = None) /\
  (Image r <> "" \/ Exec r <> "") /\
  (Image r <> "" -> DockerCmdAvailable H = None) /\
  ValidateImagePullPolicyValue H (ImagePullPolicy r) = None /\
  (ResultsDir r <> "" -> MkdirAll H (ResultsDir r) = None) /\
  splitAtDash c args = Ok (items, pos) /\
  withDefaultDir pos = [arg0] /\
  (items = [] \/ FnConfigPath r = "") /\
  getCLIFunctionConfig (prefixed H r) items = Ok cfg /\
  getFunctionSpec H (set_dataItems items (prefixed H r)) = Ok (spec, eargs) /\
  (FnConfigPath r <> "" -> IsNotExist H (FnConfigPath r) = false) /\
  (if String.eqb arg0 "-" then path = ""
   else if nonEmpty arg0 then ResolveSymlink H arg0 = inr path
   else path = "").

(** ** Running the function *)

(** The run itself and the writing of its output are outside this file:
    [Execute] is [runner.HandleError] of [RunFns.Execute], with the content
    it leaves in [OutContent]; [WriteFnOutput] is [cmdutil.WriteFnOutput]
    of the destination, that content and [FromStdin]. *)
Record RunHost := {
  Execute : option runfn.RunFns -> option error * string;
  WriteFnOutput : string -> string -> bool -> option error
}.

(** [runE] on a store of Kptfiles: the error returned, the new store and
    what [SaveFnToKptfile] prints. *)
Definition runE (H : Host) (R : RunHost) (writeErr : option error)
    (r : EvalFnRunner) (store : gmap string kptfile.KptFile)
    : result (option error * gmap string kptfile.KptFile * list string) :=
  let '(err, outContent) := Execute R (RunFns r) in
  match err with
  | Some e => Ok (Some e, store, [])
  | None =>
      match WriteFnOutput R (Dest r) outContent (FromStdin r) with
      | Some e => Ok (Some e, store, [])
      | None =>
          if SaveFn r then
            '(store, printed) ← SaveFnToKptfile H r writeErr store;
            Ok (None, store, printed)
          else Ok (None, store, [])
      end
  end.

(** The runner with other arguments after [--]. *)
Definition withDataItems (items : list string) (r : EvalFnRunner) : EvalFnRunner :=
  set_dataItems items r.

(** A run that succeeds and leaves its output where it is. *)
Definition sampleRunHost : RunHost := {|
  Execute := fun _ => (None, "");
  WriteFnOutput := fun _ _ _ => None
|}.

(** A run whose function fails. *)
Definition failingRunHost : RunHost := {|
  Execute := fun _ => (Some "fn.render: pkg .: pipeline.run: function failed", "");
  WriteFnOutput := fun _ _ _ => None
|}.

(** ** The function config and the arguments it is built from *)

(** The kind of the function config: a first argument without [=], or
    [ConfigMap]. *)
Definition kindOf (items : list string) : string :=
  match items with
  | s :: _ => if mentions eqSign s then "ConfigMap" else s
  | [] => "ConfigMap"
  end.

(** Every field of [d] is a scalar given as [key=value] among [items]. *)
Definition fromItems (items : list string) (d : list (string * RNode)) : Prop :=
  forall k n, field k d = Some n ->
    exists v, n = ScalarNode v /\ keyValue (k, v) ∈ items.

(** The Kptfile with [f] appended to its mutators. *)
Definition withMutator (kf : kptfile.KptFile) (f : kptfile.Function)
    : kptfile.KptFile :=
  let pipeline := default emptyPipeline (kptfile.pipeline kf) in
  {| kptfile.pipeline :=
       Some {| kptfile.Mutators := kptfile.Mutators pipeline ++ [f];
               kptfile.Validators := kptfile.Validators pipeline |} |}.

(** The mutators and validators of a Kptfile, empty without a pipeline. *)
Definition mutators (kf : kptfile.KptFile) : list kptfile.Function :=
  kptfile.Mutators (default emptyPipeline (kptfile.pipeline kf)).

Definition validators (kf : kptfile.KptFile) : list kptfile.Function :=
  kptfile.Validators (default emptyPipeline (kptfile.pipeline kf)).

(** A mutator that [SaveFnToKptfile] takes for the function of [r] because
    a field is unset on both sides. *)
Definition unsetMatch (r : EvalFnRunner) (m : kptfile.Function) : Prop :=
  (Image r = "" /\ (kptfile.Name m = "" \/ kptfile.Image m = "")) \/
  (Exec r = "" /\ (kptfile.Name m = "" \/ kptfile.Exec m = "")).

(** [kpt fn eval --exec ./my-fn --save] on a package without pipeline. *)
Definition saveExec : EvalFnRunner :=
  {| Dest := ""; FromStdin := false; Image := ""; SaveFn := true;
     Exec := "./my-fn"; FnConfigPath := ""; RunFns := None;
     ResultsDir := ""; ImagePullPolicy := "IfNotPresent"; Network := false;
     Mounts := []; Env := []; AsCurrentUser := false;
     IncludeMetaResources := false; Selector := noSelector;
     dataItems := [] |}.

Definition emptyPkgStore : gmap string kptfile.KptFile :=
  {[ "" := {| kptfile.pipeline := None |} ]}.

(** ** The command line *)

(** The command line [pos -- items], as cobra hands it to [preRunE]: the
    arguments without the [--], and in [ArgsLenAtDash] the number of those
    before it; without a [--] all arguments are positional and
    [ArgsLenAtDash] is negative. *)
Definition commandLine (c : Command) (args pos items : list string) : Prop :=
  (ArgsLenAtDash c = Z.of_nat (length pos) /\ args = pos ++ items) \/
  ((ArgsLenAtDash c < 0)%Z /\ args = pos /\ items = []).

(** What [preRunE] requires of the flags, before it looks at the
    arguments: the output directory, an image or an executable, docker for
    an image, the pull policy and the results directory. *)
Definition flagChecks (H : Host) (r : EvalFnRunner) : Prop :=
  (destChecked r = true -> CheckDirectoryNotPresent H (Dest r) = None) /\
  (Image r <> "" \/ Exec r <> "") /\
  (Image r <> "" -> DockerCmdAvailable H = None) /\
  ValidateImagePullPolicyValue H (ImagePullPolicy r) = None /\
  (ResultsDir r <> "" -> MkdirAll H (ResultsDir r) = None).

(** Nothing, or one argument without [=], in front of the [key=value]
    arguments. *)
Definition bareKind (kindArg : list string) : Prop :=
  kindArg = [] \/ exists kind, kindArg = [kind] /\ mentions eqSign kind = false.

(** A key that contains no [=]. *)
Definition plainKey (kv : string * string) : Prop := mentions eqSign kv.1 = false.

End CmdEval.

(** * The package differ of [kpt pkg diff] *)
Module Diff.

(** Errors of the differ: the exit status of the diff tool
    ([*exec.ExitError] with its exit code), or any other error. *)
Inductive error : Type :=
| ExitError (code : Z)
| errorString (msg : string).

(** [strings.Split(s, sep)] for a one-character separator. *)
Fixpoint Split (sep : Ascii.ascii) (s : string) : list string :=
  match s with
  | EmptyString => [EmptyString]
  | String c s' =>
      if Ascii.eqb c sep then EmptyString :: Split sep s'
      else match Split sep s' with
           | w :: ws => String c w :: ws
           | [] => [String c EmptyString]
           end
  end.

(** [strings.Join(l, sep)] *)
Fixpoint Join (l : list string) (sep : string) : string :=
  match l with
  | [] => ""
  | [w] => w
  | w :: ws => w +:+ sep +:+ Join ws sep
  end.

Definition space : Ascii.ascii := Ascii.ascii_of_nat 32.

(** [for _, x := range l { if err := f(x); err != nil { return err } }] *)
Fixpoint firstError {A : Type} (f : A -> option error) (l : list A)
    : option error :=
  match l with
  | [] => None
  | x :: rest =>
      match f x with
      | Some e => Some e
      | None => firstError f rest
      end
  end.

(** [kptfile.KptFileName] *)
Definition KptFileName : string := "Kptfile".

Record defaultPkgDiffer := {
  DiffType : string;
  DiffTool : string;
  DiffToolOpts : string;
  Debug : bool
}.

(** The file system and the diff tool: [os.RemoveAll], [filepath.Join] and
    the outcome of running a command ([None] when it exits with 0). *)
Record Host := {
  RemoveAll : string -> option error;
  filepath_Join : string -> string -> string;
  Run : string -> list string -> option error
}.

(** The warning printed when the diff tool fails. *)
Definition exitCodeDiffWarning (tool diffType : string) : string :=
  nl +:+ "The selected diff tool (" +:+ tool +:+ ") exited with an "
  +:+ "error. It may not support the chosen diff type (" +:+ diffType
  +:+ "). To use a different "
  +:+ "diff tool please provide the tool using the --diff-tool flag. "
  +:+ nl +:+ nl +:+ "For "
  +:+ "more information about using kpt's diff command please see the commands "
  +:+ "--help." +:+ nl.

Section WithHost.

Context (H : Host).

(** [prepareForDiff] removes [.git] and the Kptfile of a staged package. *)
Definition prepareForDiff (dir : string) : option error :=
  let excludePaths := [".git"; KptFileName] in
  firstError (fun path => RemoveAll H (filepath_Join H dir path)) excludePaths.

(** The first loop of [Diff]: every package is prepared. *)
Definition prepareAll (pkgs : list string) : option error :=
  firstError prepareForDiff pkgs.

(** The arguments passed to the diff tool. *)
Definition diffArgs (d : defaultPkgDiffer) (pkgs : list string) : list string :=
  if negb (String.eqb (DiffToolOpts d) "")
  then Split space (DiffToolOpts d) ++ pkgs
  else pkgs.

(** What [Diff] returns and prints: the error, the lines written to the
    differ's [Output] and the lines printed on standard output. *)
Record outcome := {
  err : option error;
  output : list string;
  stdout : list string
}.

Definition Diff (d : defaultPkgDiffer) (pkgs : list string) : outcome :=
  match prepareAll pkgs with
  | Some e => {| err := Some e; output := []; stdout := [] |}
  | None =>
      let args := diffArgs d pkgs in
      let debug :=
        if Debug d then [Join (DiffTool d :: args) " " +:+ nl] else [] in
      match Run H (DiffTool d) args with
      | None => {| err := None; output := debug; stdout := [] |}
      | Some (ExitError code) =>
          if (code =? 1)%Z then
            (* diff tool will exit with return code 1 if there are differences
               between two dirs. This suppresses those errors. *)
            {| err := None; output := debug; stdout := [] |}
          else
            (* An error occurred but was not one of the excluded ones *)
            {| err := Some (ExitError code); output := debug;
               stdout := [exitCodeDiffWarning (DiffTool d) (DiffType d)] |}
      | Some e => {| err := Some e; output := debug; stdout := [] |}
      end
  end.

End WithHost.

(** A host whose diff tool reports differences (exit code 1), unless its
    first option is [-same] (exit code 0) or [-broken] (exit code 2). *)
Definition sampleHost : Host := {|
  RemoveAll := fun _ => None;
  filepath_Join := fun dir path => dir +:+ "/" +:+ path;
  Run := fun tool args =>
    match args with
    | "-same" :: _ => None
    | "-broken" :: _ => Some (ExitError 2)
    | _ => Some (ExitError 1)
    end
|}.

Definition differ (opts : string) : defaultPkgDiffer :=
  {| DiffType := "local"; DiffTool := "diff"; DiffToolOpts := opts; Debug := false |}.

(** ** Diff types and the names of staged packages *)

Definition DiffTypeLocal : string := "local".
Definition DiffTypeRemote : string := "remote".
Definition DiffTypeCombined : string := "combined".
Definition DiffType3Way : string := "3way".

Definition localPackageSource : string := "local".
Definition remotePackageSource : string := "remote".
Definition targetRemotePackageSource : string := "target".

Definition SupportedDiffTypes : list string :=
  [DiffTypeLocal; DiffTypeRemote; DiffTypeCombined; DiffType3Way].

Definition SupportedDiffTypesLabel : string := Join SupportedDiffTypes ", ".

Definition slash : Ascii.ascii := Ascii.ascii_of_nat 47.

(** [c] occurs in [s]. *)
Fixpoint contains (c : Ascii.ascii) (s : string) : bool :=
  match s with
  | EmptyString => false
  | String x s' => Ascii.eqb x c || contains c s'
  end.

(** [sha[0:int(math.Min(float64(len(sha)), 7))]] *)
Definition shortSha (sha : string) : string :=
  String.substring 0 (Nat.min (String.length sha) 7) sha.

(** [NameStagingDirectory]; [None] is the panic of [l[len(l)-1]] on an
    empty slice. *)
Definition NameStagingDirectory (source branch sha : string) : option string :=
  (* Using tags may result in references like /refs/tags/version
     To avoid creating additional directory's use only the last name after a / *)
  let splitBranch := Split slash branch in
  let splitSha := Split slash sha in
  reducedBranch ← last splitBranch;
  reducedSha ← last splitSha;
  (* The branch and sha may not always be known simultaneously
     In these cases the values will be the same. Collapse these references *)
  if String.eqb reducedBranch reducedSha
  then Some (source +:+ "-" +:+ reducedBranch)
  else Some (source +:+ "-" +:+ reducedBranch +:+ "-" +:+ shortSha reducedSha).

(** The differ of [kpt pkg diff --debug --diff-tool-opts opts]. *)
Definition debugDiffer (opts : string) : defaultPkgDiffer :=
  {| DiffType := "local"; DiffTool := "diff"; DiffToolOpts := opts; Debug := true |}.

(** ** The command [kpt pkg diff] *)

(** [kptFile.Upstream.Git], as [Run] reads it. *)
Record Git := {
  Repo : string;
  Directory : string;
  Ref : string;
  Commit : string
}.

(** The command.  Its differ and its getter are interfaces, absent until
    [DefaultValues] sets them: a differ gives the outcome of comparing
    packages, a getter gives the directory of a fetched package and an
    error.  There is one [Output], the one the differ writes to. *)
Module Command.

Record t := {
  Path : string;
  Ref : string;
  DiffType : string;
  DiffTool : string;
  DiffToolOpts : string;
  Debug : bool;
  PkgDiffer : option (list string -> outcome);
  PkgGetter :
    option (string -> string -> string -> string -> string -> string * option error)
}.

Definition set_DiffTool (v : string) (c : t) : t :=
  {| Path := Path c; Ref := Ref c; DiffType := DiffType c; DiffTool := v;
     DiffToolOpts := DiffToolOpts c; Debug := Debug c;
     PkgDiffer := PkgDiffer c; PkgGetter := PkgGetter c |}.

End Command.

(** What the command takes from the file system, from git and from the
    Kptfile reader: [kptfileutil.ReadFile] (its upstream), [ioutil.TempDir]
    of ["kpt-"], [os.Mkdir], [copyutil.CopyDir], the run of a
    [get.Command] with a repository, a directory, a ref and a destination,
    [gitutil.DefaultRef], [exec.LookPath], and the text of an error. *)
Record Files := {
  ReadFile : string -> error + Git;
  TempDir : error + string;
  Mkdir : string -> option error;
  CopyDir : string -> string -> option error;
  get_Run : string -> string -> string -> string -> option error;
  DefaultRef : string -> error + string;
  LookPath : string -> error + string;
  Error : error -> string
}.

(** The calls that [Run] itself makes, in order: [os.Mkdir] of a staged
    directory, [copyutil.CopyDir], [GetPkg] of the getter with its target
    directory and ref, a line written to the output, [Diff] of the differ
    with its packages, [os.RemoveAll] of a directory. *)
Inductive event : Type :=
| Staged (dir : string)
| Copied (src dst : string)
| Fetched (targetDir ref : string)
| Wrote (line : string)
| Compared (pkgs : list string)
| Removed (dir : string).

(** How a call ends: it returns its error, or it panics. *)
Inductive ending : Type :=
| Return (e : option error)
| Panics.

(** A step of [Run]: what it did, and either the end of the call or a
    value to go on with. *)
Definition exec (A : Type) : Type := (list event * (ending + A))%type.

#[global] Instance exec_ret : MRet exec := fun A a => ([], inr a).
#[global] Instance exec_bind : MBind exec := fun A B f m =>
  match m with
  | (events, inl e) => (events, inl e)
  | (events, inr a) =>
      match f a with
      | (events', x) => (events ++ events', x)
      end
  end.

Definition emit (ev : event) : exec unit := ([ev], inr tt).

(** [return err] *)
Definition stop {A : Type} (e : option error) : exec A := ([], inl (Return e)).

(** [if err != nil { return wrap(err) }] *)
Definition guard (e : option error) (wrap : error -> error) : exec unit :=
  match e with
  | Some e => stop (Some (wrap e))
  | None => mret tt
  end.

(** A name of a staged package. *)
Definition named (n : option string) : exec string :=
  match n with
  | Some n => mret n
  | None => ([], inl Panics)
  end.

Definition id_error (e : error) : error := e.

(** [errors.Errorf(msg + ": %v", err)] *)
Definition Errorf (F : Files) (msg : string) (e : error) : error :=
  errorString (msg +:+ ": " +:+ Error F e).

Section WithFiles.

Context (H : Host) (F : Files).

Definition Validate (c : Command.t) : error + Command.t :=
  if String.eqb (Command.DiffType c) DiffTypeLocal
     || String.eqb (Command.DiffType c) DiffTypeCombined
     || String.eqb (Command.DiffType c) DiffTypeRemote
     || String.eqb (Command.DiffType c) DiffType3Way
  then
    match LookPath F (Command.DiffTool c) with
    | inl _ =>
        inl (errorString ("diff-tool '" +:+ Command.DiffTool c
                          +:+ "' not found in the PATH."))
    | inr path => inr (Command.set_DiffTool path c)
    end
  else
    inl (errorString ("invalid diff-type '" +:+ Command.DiffType c
                      +:+ "'. Supported diff-types are: "
                      +:+ SupportedDiffTypesLabel)).

(** [stageDirectory] creates a subdirectory of [path]. *)
Definition stageDirectory (path subpath : string) : string * option error :=
  let targetPath := filepath_Join H path subpath in
  (targetPath, Mkdir F targetPath).

(** [defaultPkgGetter.GetPkg] *)
Definition GetPkg (stagingDir targetDir repo path ref : string)
    : string * option error :=
  let '(dir, err) := stageDirectory stagingDir targetDir in
  match err with
  | Some e => (dir, Some e)
  | None => (dir, get_Run F repo path ref dir)
  end.

(** The differ and the getter that [DefaultValues] sets when the command
    has none. *)
Definition defaultDiffer (c : Command.t) : list string -> outcome :=
  Diff H {| DiffType := Command.DiffType c; DiffTool := Command.DiffTool c;
            DiffToolOpts := Command.DiffToolOpts c; Debug := Command.Debug c |}.

Definition DefaultValues (c : Command.t) : Command.t :=
  {| Command.Path := Command.Path c; Command.Ref := Command.Ref c;
     Command.DiffType := Command.DiffType c;
     Command.DiffTool := Command.DiffTool c;
     Command.DiffToolOpts := Command.DiffToolOpts c;
     Command.Debug := Command.Debug c;
     Command.PkgDiffer := Some (default (defaultDiffer c) (Command.PkgDiffer c));
     Command.PkgGetter := Some (default GetPkg (Command.PkgGetter c)) |}.

(** [c.PkgDiffer.Diff(pkgs...)] and [c.PkgGetter.GetPkg(...)]: a method
    called on a nil interface panics. *)
Definition compare (c : Command.t) (pkgs : list string) : exec Empty_set :=
  match Command.PkgDiffer c with
  | Some differ => _ ← emit (Compared pkgs); stop (err (differ pkgs))
  | None => ([], inl Panics)
  end.

Definition fetch (c : Command.t) (stagingDir targetDir repo path ref : string)
    : exec string :=
  match Command.PkgGetter c with
  | Some getter =>
      let '(dir, err) := getter stagingDir targetDir repo path ref in
      _ ← emit (Fetched targetDir ref);
      _ ← guard err id_error;
      mret dir
  | None => ([], inl Panics)
  end.

(** [Run], from the staging directory on. *)
Definition staged (c : Command.t) (git : Git) (stagingDirectory : string)
    : exec Empty_set :=
  (* Stage current package *)
  localPkgName ← named (NameStagingDirectory localPackageSource (Ref git) (Commit git));
  let '(currPkg, err) := stageDirectory stagingDirectory localPkgName in
  _ ← emit (Staged currPkg);
  _ ← guard err (Errorf F "failed to create stage dir for current package");
  _ ← emit (Copied (Command.Path c) currPkg);
  _ ← guard (CopyDir F (Command.Path c) currPkg)
        (Errorf F "failed to stage current package");
  (* get the upstreamPkg at current version *)
  upstreamPkgName ← named (NameStagingDirectory remotePackageSource (Ref git) (Commit git));
  upstreamPkg ← fetch c stagingDirectory upstreamPkgName (Repo git) (Directory git)
                  (Commit git);
  ref ← (if String.eqb (Command.Ref c) "" then
           match DefaultRef F (Repo git) with
           | inl e => stop (Some e)
           | inr ref => mret ref
           end
         else mret (Command.Ref c));
  upstreamTargetPkg ←
    (if String.eqb (Command.DiffType c) DiffTypeRemote
        || String.eqb (Command.DiffType c) DiffTypeCombined
        || String.eqb (Command.DiffType c) DiffType3Way
     then
       (* get the upstream pkg at the target version *)
       upstreamTargetPkgName ← named (NameStagingDirectory targetRemotePackageSource ref ref);
       fetch c stagingDirectory upstreamTargetPkgName (Repo git) (Directory git) ref
     else mret "");
  _ ← (if Command.Debug c
       then emit (Wrote ("diffing currPkg: " +:+ currPkg +:+ ", upstreamPkg: "
                         +:+ upstreamPkg +:+ ", upstreamTargetPkg: "
                         +:+ upstreamTargetPkg +:+ " " +:+ nl))
       else mret tt);
  if String.eqb (Command.DiffType c) DiffTypeLocal then
    compare c [currPkg; upstreamPkg]
  else if String.eqb (Command.DiffType c) DiffTypeRemote then
    compare c [upstreamPkg; upstreamTargetPkg]
  else if String.eqb (Command.DiffType c) DiffTypeCombined then
    compare c [currPkg; upstreamTargetPkg]
  else if String.eqb (Command.DiffType c) DiffType3Way then
    compare c [currPkg; upstreamPkg; upstreamTargetPkg]
  else
    stop (Some (errorString ("unsupported diff type '" +:+ Command.DiffType c
                             +:+ "'"))).

(** [Command.Run]: what it does and how it ends.  The staging directory
    is removed when [Run] ends, unless the command is in debug mode. *)
Definition Command_Run (c : Command.t) : list event * ending :=
  let c := DefaultValues c in
  match ReadFile F (Command.Path c) with
  | inl e =>
      ([], Return (Some (errorString ("package missing Kptfile at '"
                                      +:+ Command.Path c +:+ "': " +:+ Error F e))))
  | inr git =>
      (* Create a staging directory to store all compared packages *)
      match TempDir F with
      | inl e => ([], Return (Some (Errorf F "failed to create stage dir" e)))
      | inr stagingDirectory =>
          let '(events, e) := staged c git stagingDirectory in
          (events ++ (if Command.Debug c then [] else [Removed stagingDirectory]),
           match e with
           | inl e => e
           | inr nothing => match nothing with end
           end)
      end
  end.

End WithFiles.

(** The getter and the differ of the command once [DefaultValues] has run. *)
Definition getterOf (H : Host) (F : Files) (c : Command.t)
    : string -> string -> string -> string -> string -> string * option error :=
  default (GetPkg H F) (Command.PkgGetter c).

Definition differOf (H : Host) (F : Files) (c : Command.t) : list string -> outcome :=
  default (defaultDiffer H c) (Command.PkgDiffer c).

(** The ref of the target version: the one of the command, or the default
    ref of the upstream repository. *)
Definition targetRef (F : Files) (c : Command.t) (git : Git) : error + string :=
  if String.eqb (Command.Ref c) "" then DefaultRef F (Repo git)
  else inr (Command.Ref c).

(** ** A package to run the command on examples *)

Definition sampleGit : Git :=
  {| Repo := "https://github.com/example/packages"; Directory := "app";
     Ref := "refs/tags/v1.0"; Commit := "1234567890abcdef" |}.

Definition sampleFiles : Files := {|
  ReadFile := fun _ => inr sampleGit;
  TempDir := inr "/tmp/kpt-1";
  Mkdir := fun _ => None;
  CopyDir := fun _ _ => None;
  get_Run := fun _ _ _ _ => None;
  DefaultRef := fun _ => inr "main";
  LookPath := fun tool => inr ("/usr/bin/" +:+ tool);
  Error := fun e =>
    match e with
    | errorString msg => msg
    | ExitError code => "exit status " +:+ pretty code
    end
|}.

(** [kpt pkg diff app --diff-type diffType --diff-tool-opts -r] *)
Definition sampleCommand (diffType : string) : Command.t :=
  {| Command.Path := "app"; Command.Ref := ""; Command.DiffType := diffType;
     Command.DiffTool := "diff"; Command.DiffToolOpts := "-r";
     Command.Debug := false; Command.PkgDiffer := None;
     Command.PkgGetter := None |}.

End Diff.


(** * The runner of the live end-to-end tests (package [live]) *)
Module Live.

(** [InventoryEntry]: an object of the inventory that a test expects. *)
Record InventoryEntry := {
  Group : string;
  Kind : string;
  Name : string;
  Namespace : string
}.

#[global] Instance InventoryEntry_eq_dec : EqDecision InventoryEntry.
Proof. solve_decision. Defined.

(** Go's [<] on strings: the bytes are compared in order, and a proper
    prefix comes first. *)
Fixpoint less (a b : string) : bool :=
  match a, b with
  | EmptyString, EmptyString => false
  | EmptyString, String _ _ => true
  | String _ _, EmptyString => false
  | String x a', String y b' =>
      if Nat.ltb (Ascii.nat_of_ascii x) (Ascii.nat_of_ascii y) then true
      else if Ascii.eqb x y then less a' b'
      else false
  end.

(** The comparison of [inventorySortFunc] on two entries. *)
Definition entryLess (iInv jInv : InventoryEntry) : bool :=
  if negb (String.eqb (Group iInv) (Group jInv)) then
    less (Group iInv) (Group jInv)
  else if negb (String.eqb (Kind iInv) (Kind jInv)) then
    less (Kind iInv) (Kind jInv)
  else if negb (String.eqb (Name iInv) (Name jInv)) then
    less (Name iInv) (Name jInv)
  else less (Namespace iInv) (Namespace jInv).

(** One level of that comparison: the fields decide unless they are
    equal. *)
Definition lex (x y : string) (rest : bool) : bool :=
  if negb (String.eqb x y) then less x y else rest.

(** [inventorySortFunc(inv)(i, j)]; [None] is the panic of an index out
    of range. *)
Definition inventorySortFunc (inv : list InventoryEntry) (i j : nat)
    : option bool :=
  iInv ← inv !! i;
  jInv ← inv !! j;
  Some (entryLess iInv jInv).

(** What [sort.Slice] establishes, as [sort.SliceIsSorted] tests it: no
    element is less than the one before it. *)
Definition SliceIsSorted (inv : list InventoryEntry) : Prop :=
  forall i, (S i < length inv)%nat -> inventorySortFunc inv (S i) i = Some false.

Definition deployment (name namespace : string) : InventoryEntry :=
  {| Group := "apps"; Kind := "Deployment"; Name := name; Namespace := namespace |}.

Definition configMap (name namespace : string) : InventoryEntry :=
  {| Group := ""; Kind := "ConfigMap"; Name := name; Namespace := namespace |}.

End Live.


(** * Properties *)

(** ** Strings *)

Lemma append_nil_l (b : string) : "" +:+ b = b.
Proof. reflexivity. Qed.

Lemma append_cons (x : Ascii.ascii) (a b : string) :
  String x a +:+ b = String x (a +:+ b).
Proof. reflexivity. Qed.

Lemma append_assoc (a b c : string) : (a +:+ b) +:+ c = a +:+ b +:+ c.
Proof.
  induction a as [|x a IH]; [done|]. by rewrite !append_cons, IH.
Qed.

Lemma cites_here (sub post : string) : cites sub (sub +:+ post).
Proof. by exists "", post. Qed.

Lemma cites_after (pre sub s : string) : cites sub s -> cites sub (pre +:+ s).
Proof.
  intros (p & q & ->). exists (pre +:+ p), q. by rewrite append_assoc.
Qed.

Lemma cites_concat (sub : string) (l1 l2 : list string) :
  cites sub (concat_strings (l1 ++ sub :: l2)).
Proof.
  induction l1 as [|x l1 IH]; simpl.
  - apply cites_here.
  - by apply cites_after.
Qed.

(** ** The error resolver *)

Module ResolverFacts.
Import Resolver.

Section WithTemplates.

Variable quote : string -> string.
Variable RepoRef : RepoSpec -> string.
Variable subTemplate : string -> gmap string tmplValue -> string.
Variable ValidateError_Error : string -> string -> string -> string.

Local Abbreviation deprecationMessage := (deprecationMessage quote).

Local Abbreviation ExecuteTemplate := (ExecuteTemplate quote subTemplate).
Local Abbreviation resolveNestedErr := (resolveNestedErr quote subTemplate).
Local Abbreviation Resolve :=
  (Resolve quote RepoRef subTemplate ValidateError_Error).
Local Abbreviation kptfileLocation := (kptfileLocation RepoRef).

(** A template that prints [.path] cites the quoted path. *)
Lemma ExecuteTemplate_cites_path (pre post : list segment)
    (args : gmap string tmplValue) (path : string) :
  args !! "path" = Some (VString path) ->
  cites (quote path) (ExecuteTemplate (pre ++ PrintfQ "path" None :: post) args).
Proof.
  intros Hp. unfold ExecuteTemplate.
  rewrite fmap_app, fmap_cons. simpl render. rewrite Hp. simpl printf_q.
  apply cites_concat.
Qed.

Lemma resolveNestedErr_ok (err : error) (args : gmap string tmplValue)
    (path : string) :
  args !! "path" = Some (VString path) ->
  exists msg,
    resolveNestedErr err args = ({| Message := msg |}, true) /\
    cites (quote path) msg.
Proof.
  intros Hp. unfold resolveNestedErr.
  destruct (Is_ErrNotExist err).
  { eexists; split; [done|].
    by apply (ExecuteTemplate_cites_path [_]). }
  destruct (As_DeprecatedKptfileError err) as [v|].
  { eexists; split; [done|].
    apply (ExecuteTemplate_cites_path [_]). by rewrite lookup_insert_ne. }
  destruct (As_UnknownKptfileResourceError err) as [g|].
  { eexists; split; [done|].
    apply (ExecuteTemplate_cites_path [_]). by rewrite lookup_insert_ne. }
  eexists; split; [done|]. by apply (ExecuteTemplate_cites_path [_]).
Qed.

Lemma As_KptfileError_shape (err e : error) :
  As_KptfileError err = Some e -> exists p o, e = KptfileError p o.
Proof.
  revert e.
  induction err as [| op pth o IH | p o IH | sp o IH | | | |]
    using error_chain_ind; intros e H; simpl in H; try discriminate.
  - destruct o as [e'|]; [|discriminate]. by apply IH.
  - injection H as <-. eauto.
  - destruct o as [e'|]; [|discriminate]. by apply IH.
Qed.

Lemma As_RemoteKptfileError_shape (err e : error) :
  As_RemoteKptfileError err = Some e -> exists sp o, e = RemoteKptfileError sp o.
Proof.
  revert e.
  induction err as [| op pth o IH | p o IH | sp o IH | | | |]
    using error_chain_ind; intros e H; simpl in H; try discriminate.
  - destruct o as [e'|]; [|discriminate]. by apply IH.
  - destruct o as [e'|]; [|discriminate]. by apply IH.
  - injection H as <-. eauto.
Qed.

(** The message each kind of manifest error gets, for a local Kptfile
    and for a remote one. *)
Lemma Resolve_local_kind (k : manifestErrorKind) (path : string) :
  exists args : gmap string tmplValue,
    args !! "path" = Some (VString path) /\
    Resolve (KptfileError path (Some (causeOf k)))
    = ({| Message := ExecuteTemplate (templateOf k) args |}, true).
Proof. destruct k; eexists; (split; [|reflexivity]); reflexivity. Qed.

Lemma Resolve_remote_kind (k : manifestErrorKind) (spec : RepoSpec) :
  exists args : gmap string tmplValue,
    args !! "path" = Some (VString (RepoRef spec)) /\
    Resolve (RemoteKptfileError spec (Some (causeOf k)))
    = ({| Message := ExecuteTemplate (templateOf k) args |}, true).
Proof. destruct k; eexists; (split; [|reflexivity]); reflexivity. Qed.

Lemma Resolve_deprecated (path version : string) :
  Resolve (KptfileError path (Some (DeprecatedKptfileError version)))
  = ({| Message := deprecationMessage path version |}, true).
Proof. reflexivity. Qed.

(** C4. For a Kptfile error -- whatever its cause: a missing file, a
    deprecated schema version, an unknown resource kind, or a Kptfile
    that cannot be read -- [Resolve] succeeds (returns [true]) and its
    message cites the Kptfile's path, or the repo reference when the
    Kptfile is a remote one. *)
Theorem Resolve_manifest_error (err : error) (location : string) :
  kptfileLocation err = Some location ->
  exists msg : string,
    Resolve err = ({| Message := msg |}, true) /\
    cites (quote location) msg.
Proof.
  unfold kptfileLocation, Resolve. intros Hloc.
  destruct (As_KptfileError err) as [e|] eqn:Hk.
  - destruct (As_KptfileError_shape _ _ Hk) as (p & o & ->).
    injection Hloc as <-.
    apply resolveNestedErr_ok.
    by rewrite lookup_insert_ne, lookup_insert_eq.
  - destruct (As_RemoteKptfileError err) as [e|] eqn:Hr; [|discriminate].
    destruct (As_RemoteKptfileError_shape _ _ Hr) as (sp & o & ->).
    injection Hloc as <-.
    apply resolveNestedErr_ok.
    by rewrite lookup_insert_ne, lookup_insert_eq.
Qed.

Variable DeprecatedKptfileVersions : list string.

(** C5. Loading a package whose Kptfile has an old schema version does
    not yield a manifest: the loader returns a deprecation error, and the
    message resolved for it names the Kptfile path and the old version
    and points the user to the migration guide. *)
Theorem ReadKptfile_deprecated_rejected
    (fs : gmap string fileContent) (dir : string) (gvk : GroupVersionKind) :
  fs !! kptfilePath dir = Some (Document gvk) ->
  Group gvk = "kpt.dev" -> Kind gvk = "Kptfile" ->
  Version gvk <> "v1" ->
  Version gvk ∈ DeprecatedKptfileVersions ->
  ReadKptfile DeprecatedKptfileVersions fs dir
  = inl (KptfileError dir (Some (DeprecatedKptfileError (Version gvk)))) /\
  Resolve (KptfileError dir (Some (DeprecatedKptfileError (Version gvk))))
  = ({| Message := deprecationMessage dir (Version gvk) |}, true) /\
  cites (quote dir) (deprecationMessage dir (Version gvk)) /\
  cites (quote (Version gvk)) (deprecationMessage dir (Version gvk)) /\
  cites "https://kpt.dev/installation/migration"
        (deprecationMessage dir (Version gvk)).
Proof.
  intros Hfs Hg Hk Hv Hd. split; [|split; [apply Resolve_deprecated|]].
  - unfold ReadKptfile. rewrite Hfs.
    rewrite bool_decide_eq_true_2 by done.
    rewrite bool_decide_eq_false_2 by done.
    by rewrite bool_decide_eq_true_2.
  - unfold deprecationMessage. split; [|split].
    + do 2 apply cites_after. apply cites_here.
    + do 4 apply cites_after. apply cites_here.
    + do 5 apply cites_after.
      by exists ") of the Kptfile schema. Please update the package to the latest format. See ",
                (" for more details." +:+ nl).
Qed.

End WithTemplates.

Lemma Resolve_manifest_error_witness :
  kptfileLocation sampleRepoRef
    (RemoteKptfileError sampleSpec (Some (DeprecatedKptfileError "v1alpha1")))
  = Some "https://github.com/GoogleContainerTools/kpt/package-examples/wordpress@v0.1" /\
  exists msg : string,
    Resolve sampleQuote sampleRepoRef sampleSubTemplate sampleValidateError
      (RemoteKptfileError sampleSpec (Some (DeprecatedKptfileError "v1alpha1")))
    = ({| Message := msg |}, true) /\
    cites (sampleQuote "https://github.com/GoogleContainerTools/kpt/package-examples/wordpress@v0.1") msg.
Proof.
  split; [reflexivity|].
  apply (Resolve_manifest_error sampleQuote sampleRepoRef sampleSubTemplate
           sampleValidateError); reflexivity.
Defined.

Lemma ReadKptfile_deprecated_rejected_witness :
  ReadKptfile ["v1alpha1"; "v1alpha2"] sampleFs "wordpress"
  = inl (KptfileError "wordpress" (Some (DeprecatedKptfileError "v1alpha2"))) /\
  Resolve sampleQuote sampleRepoRef sampleSubTemplate sampleValidateError
    (KptfileError "wordpress" (Some (DeprecatedKptfileError "v1alpha2")))
  = ({| Message := deprecationMessage sampleQuote "wordpress" "v1alpha2" |}, true).
Proof.
  pose proof (ReadKptfile_deprecated_rejected sampleQuote sampleRepoRef
    sampleSubTemplate sampleValidateError ["v1alpha1"; "v1alpha2"] sampleFs
    "wordpress" {| Group := "kpt.dev"; Version := "v1alpha2"; Kind := "Kptfile" |})
    as H.
  destruct H as (H1 & H2 & _).
  - reflexivity.
  - reflexivity.
  - reflexivity.
  - discriminate.
  - simpl. apply list_elem_of_In. simpl. auto.
  - split; [exact H1 | exact H2].
Defined.

(** The message a user sees for the sample package. *)
Example deprecation_message_sample :
  deprecationMessage sampleQuote "wordpress" "v1alpha2"
  = nl +:+ "Error: Kptfile at " +:+ dquote +:+ "wordpress" +:+ dquote
    +:+ " has an old version (" +:+ dquote +:+ "v1alpha2" +:+ dquote
    +:+ ") of the Kptfile schema. Please update the package to the latest format. See https://kpt.dev/installation/migration for more details."
    +:+ nl.
Proof. reflexivity. Qed.

(** ** More on [Resolve] *)

Section MoreResolve.

Variable quote : string -> string.
Variable RepoRef : RepoSpec -> string.
Variable subTemplate : string -> gmap string tmplValue -> string.
Variable ValidateError_Error : string -> string -> string -> string.

Local Abbreviation resolveNestedErr := (resolveNestedErr quote subTemplate).
Local Abbreviation Resolve :=
  (Resolve quote RepoRef subTemplate ValidateError_Error).

Lemma resolveNestedErr_true (err : error) (args : gmap string tmplValue) :
  (resolveNestedErr err args).2 = true.
Proof.
  unfold Resolver.resolveNestedErr. destruct (Is_ErrNotExist err); [done|].
  destruct (As_DeprecatedKptfileError err); [done|].
  by destruct (As_UnknownKptfileResourceError err).
Qed.

(** X1. [Resolve] gives up (returns [false]) exactly on the errors whose
    chain has no Kptfile error, no remote Kptfile error and no validation
    error, and then its message is empty. *)
Theorem Resolve_unresolved (err : error) :
  ((Resolve err).2 = false <->
   As_KptfileError err = None /\ As_RemoteKptfileError err = None /\
   As_ValidateError err = None) /\
  ((Resolve err).2 = false -> Resolve err = ({| Message := "" |}, false)).
Proof.
  unfold Resolver.Resolve.
  destruct (As_KptfileError err) as [e|] eqn:Hk.
  { destruct (As_KptfileError_shape _ _ Hk) as (p & o & ->).
    rewrite resolveNestedErr_true. split; [|done]. split; [done|].
    by intros (? & _). }
  destruct (As_RemoteKptfileError err) as [e|] eqn:Hr.
  { destruct (As_RemoteKptfileError_shape _ _ Hr) as (sp & o & ->).
    rewrite resolveNestedErr_true. split; [|done]. split; [done|].
    by intros (_ & ? & _). }
  destruct (As_ValidateError err) as [[[f v] r]|]; simpl.
  - split; [|done]. split; [done|]. by intros (_ & _ & ?).
  - done.
Qed.

Lemma As_KptfileError_of_remote (err e : error) :
  As_KptfileError err = None -> As_RemoteKptfileError err = Some e ->
  As_KptfileError e = None.
Proof.
  revert e.
  induction err as [| op pth o IH | p o IH | sp o IH | | | |]
    using error_chain_ind; intros e Hk Hr; simpl in Hk, Hr; try discriminate.
  - destruct o as [e'|]; [|discriminate]. by apply IH.
  - by injection Hr as <-.
Qed.

(** X2. Context wrapped around a Kptfile error does not change what the
    user is told: an error resolves as the first Kptfile error on its
    chain does, and without one, as the first remote Kptfile error. *)
Theorem Resolve_wrapped (err e : error) :
  (As_KptfileError err = Some e -> Resolve err = Resolve e) /\
  (As_KptfileError err = None -> As_RemoteKptfileError err = Some e ->
   Resolve err = Resolve e).
Proof.
  split.
  - intros Hk. destruct (As_KptfileError_shape _ _ Hk) as (p & o & ->).
    unfold Resolver.Resolve. by rewrite Hk.
  - intros Hk Hr. pose proof (As_KptfileError_of_remote _ _ Hk Hr) as Hk'.
    destruct (As_RemoteKptfileError_shape _ _ Hr) as (sp & o & ->).
    unfold Resolver.Resolve. rewrite Hk, Hr, Hk'. done.
Qed.


(** X4. The order of the messages: for a local Kptfile error with cause
    [e], a missing file anywhere on the chain gives the no-Kptfile message;
    failing that, a deprecated version gives the deprecation message;
    failing that, an unknown kind gives the unknown-resource message, which
    names the path and the group, version and kind. *)
Theorem Resolve_precedence (path : string) (e : error) :
  (Is_ErrNotExist e = true ->
   Resolve (KptfileError path (Some e))
   = ({| Message := missingMessage quote path |}, true)) /\
  (Is_ErrNotExist e = false ->
   forall version, As_DeprecatedKptfileError e = Some version ->
   Resolve (KptfileError path (Some e))
   = ({| Message := deprecationMessage quote path version |}, true)) /\
  (Is_ErrNotExist e = false -> As_DeprecatedKptfileError e = None ->
   forall gvk, As_UnknownKptfileResourceError e = Some gvk ->
   Resolve (KptfileError path (Some e))
   = ({| Message := unknownMessage quote path gvk |}, true) /\
   cites (quote path) (unknownMessage quote path gvk) /\
   cites (quote (GVK_String gvk)) (unknownMessage quote path gvk)).
Proof.
  split; [|split].
  - intros Hm. unfold Resolver.Resolve, Resolver.resolveNestedErr. simpl.
    by rewrite Hm.
  - intros Hm v Hd. unfold Resolver.Resolve, Resolver.resolveNestedErr. simpl.
    by rewrite Hm, Hd.
  - intros Hm Hd g Hu. split; [|split].
    + unfold Resolver.Resolve, Resolver.resolveNestedErr. simpl.
      by rewrite Hm, Hd, Hu.
    + unfold unknownMessage. do 2 apply cites_after. apply cites_here.
    + unfold unknownMessage. do 4 apply cites_after. apply cites_here.
Qed.

End MoreResolve.

(** A deprecation error that is not wrapped in a Kptfile error is not
    resolved. *)
Example Resolve_bare_deprecated :
  Resolve sampleQuote sampleRepoRef sampleSubTemplate sampleValidateError
    (DeprecatedKptfileError "v1alpha1")
  = ({| Message := "" |}, false).
Proof. reflexivity. Qed.

Lemma Resolve_wrapped_witness :
  Resolve sampleQuote sampleRepoRef sampleSubTemplate sampleValidateError
    (PathError "read" "wordpress"
       (Some (KptfileError "wordpress" (Some (DeprecatedKptfileError "v1alpha2")))))
  = Resolve sampleQuote sampleRepoRef sampleSubTemplate sampleValidateError
      (KptfileError "wordpress" (Some (DeprecatedKptfileError "v1alpha2"))) /\
  Resolve sampleQuote sampleRepoRef sampleSubTemplate sampleValidateError
    (PathError "fetch" "wordpress"
       (Some (RemoteKptfileError sampleSpec (Some (errorString "yaml: line 3")))))
  = Resolve sampleQuote sampleRepoRef sampleSubTemplate sampleValidateError
      (RemoteKptfileError sampleSpec (Some (errorString "yaml: line 3"))).
Proof.
  split.
  - apply (proj1 (Resolve_wrapped sampleQuote sampleRepoRef sampleSubTemplate
                    sampleValidateError _ _)). reflexivity.
  - apply (proj2 (Resolve_wrapped sampleQuote sampleRepoRef sampleSubTemplate
                    sampleValidateError _ _)); reflexivity.
Defined.


Lemma Resolve_precedence_witness :
  Resolve sampleQuote sampleRepoRef sampleSubTemplate sampleValidateError
    (KptfileError "wordpress"
       (Some (PathError "open" "wordpress/Kptfile" (Some ErrNotExist))))
  = ({| Message := missingMessage sampleQuote "wordpress" |}, true) /\
  Resolve sampleQuote sampleRepoRef sampleSubTemplate sampleValidateError
    (KptfileError "wordpress" (Some (DeprecatedKptfileError "v1alpha2")))
  = ({| Message := deprecationMessage sampleQuote "wordpress" "v1alpha2" |}, true) /\
  Resolve sampleQuote sampleRepoRef sampleSubTemplate sampleValidateError
    (KptfileError "wordpress"
       (Some (UnknownKptfileResourceError
                {| Group := "kpt.dev"; Version := "v1"; Kind := "Package" |})))
  = ({| Message :=
          unknownMessage sampleQuote "wordpress"
            {| Group := "kpt.dev"; Version := "v1"; Kind := "Package" |} |}, true).
Proof.
  pose proof (Resolve_precedence sampleQuote sampleRepoRef sampleSubTemplate
                sampleValidateError "wordpress"
                (PathError "open" "wordpress/Kptfile" (Some ErrNotExist)))
    as (Hmissing & _ & _).
  pose proof (Resolve_precedence sampleQuote sampleRepoRef sampleSubTemplate
                sampleValidateError "wordpress"
                (DeprecatedKptfileError "v1alpha2"))
    as (_ & Hdeprecated & _).
  pose proof (Resolve_precedence sampleQuote sampleRepoRef sampleSubTemplate
                sampleValidateError "wordpress"
                (UnknownKptfileResourceError
                   {| Group := "kpt.dev"; Version := "v1"; Kind := "Package" |}))
    as (_ & _ & Hunknown).
  split; [|split].
  - apply Hmissing. reflexivity.
  - apply Hdeprecated; reflexivity.
  - apply Hunknown; reflexivity.
Defined.

End ResolverFacts.

(** ** Preflight of [kpt fn eval] *)

Module CmdEvalFacts.
Import CmdEval.
Import runtimeutil.

Lemma bind_Ok {A B : Type} (m : result A) (f : A -> result B) (b : B) :
  m ≫= f = Ok b -> exists a, m = Ok a /\ f a = Ok b.
Proof. destruct m; simpl; [eauto | discriminate | discriminate]. Qed.

Lemma bind_Panic {A B : Type} (m : result A) (f : A -> result B) :
  m ≫= f = Panic -> m = Panic \/ exists a, m = Ok a /\ f a = Panic.
Proof. destruct m; simpl; [eauto | discriminate | auto]. Qed.

(** A result that is neither a value nor a panic is an error. *)
Lemma result_is_Err {A : Type} (m : result A) :
  (forall a, m <> Ok a) -> m <> Panic -> exists e, m = Err e.
Proof. destruct m as [a|e|]; intros HOk HP; [by destruct (HOk a) | eauto | done]. Qed.

Lemma nonEmpty_true (s : string) : nonEmpty s = true <-> s <> "".
Proof.
  unfold nonEmpty. destruct (String.eqb s "") eqn:E; simpl.
  - apply String.eqb_eq in E. split; [discriminate | done].
  - apply String.eqb_neq in E. done.
Qed.

Lemma nonEmpty_false (s : string) : nonEmpty s = false <-> s = "".
Proof.
  unfold nonEmpty. destruct (String.eqb s "") eqn:E; simpl.
  - apply String.eqb_eq in E. done.
  - apply String.eqb_neq in E. split; [discriminate | done].
Qed.

Lemma cut_bare (sep : Ascii.ascii) (s : string) :
  mentions sep s = false -> cut sep s = None.
Proof.
  induction s as [|c s IH]; simpl; [done|].
  destruct (Ascii.eqb c sep); simpl; [discriminate|].
  intros Hm. by rewrite IH.
Qed.

Lemma cut_at_sep (sep : Ascii.ascii) (k v : string) :
  mentions sep k = false -> cut sep (k +:+ String sep v) = Some (k, v).
Proof.
  induction k as [|c k IH]; intros Hm.
  - rewrite append_nil_l. simpl. by rewrite Ascii.eqb_refl.
  - rewrite append_cons. simpl in *.
    destruct (Ascii.eqb c sep); simpl in *; [discriminate|].
    by rewrite IH.
Qed.

Lemma SplitN2_bare (s : string) :
  mentions eqSign s = false -> SplitN2 eqSign s = [s].
Proof. intros Hm. unfold SplitN2. by rewrite cut_bare. Qed.

Lemma SplitN2_keyValue (kv : string * string) :
  mentions eqSign kv.1 = false -> SplitN2 eqSign (keyValue kv) = [kv.1; kv.2].
Proof. intros Hm. unfold SplitN2, keyValue. by rewrite cut_at_sep. Qed.

Lemma field_setField (name k : string) (v : RNode) (fields : list (string * RNode)) :
  field k (setField name v fields)
  = if String.eqb name k then Some v else field k fields.
Proof.
  induction fields as [|[k' v'] rest IH]; simpl; [done|].
  destruct (String.eqb k' name) eqn:E1; simpl.
  - apply String.eqb_eq in E1 as ->. by destruct (String.eqb name k).
  - rewrite IH. destruct (String.eqb k' k) eqn:E2; [|done].
    apply String.eqb_eq in E2 as ->. by rewrite String.eqb_sym, E1.
Qed.

Lemma field_foldl_setField (k : string) (pairs : list (string * string))
    (d : list (string * RNode)) (m : gmap string string) :
  field k d = ScalarNode <$> (m !! k) ->
  field k (foldl (fun d kv => setField kv.1 (ScalarNode kv.2) d) d pairs)
  = ScalarNode <$> (foldl (fun m kv => <[kv.1 := kv.2]> m) m pairs !! k).
Proof.
  revert d m. induction pairs as [|[a b] pairs IH]; intros d m Hd; simpl; [done|].
  apply IH. rewrite field_setField, lookup_insert. simpl.
  destruct (String.eqb a k) eqn:E.
  - apply String.eqb_eq in E as ->. by rewrite decide_True.
  - apply String.eqb_neq in E. by rewrite decide_False.
Qed.

Lemma field_dataFields (k : string) (pairs : list (string * string)) :
  field k (dataFields pairs) = ScalarNode <$> (dataMap pairs !! k).
Proof. by apply field_foldl_setField. Qed.

Lemma dataLoop_pairs (i : nat) (pairs : list (string * string)) (kind : string)
    (d : list (string * RNode)) :
  Forall goodKey pairs ->
  dataLoop i (keyValue <$> pairs) kind (MappingNode d)
  = Ok (kind, MappingNode (foldl (fun d kv => setField kv.1 (ScalarNode kv.2) d) d pairs)).
Proof.
  intros Hall. revert i d.
  induction Hall as [|kv pairs [Hne Hm] _ IH]; intros i d; simpl; [done|].
  rewrite SplitN2_keyValue by done. simpl.
  rewrite andb_false_r. simpl.
  apply String.eqb_neq in Hne. rewrite Hne. simpl. apply IH.
Qed.

(** An argument without [=] that is not the first is refused. *)
Lemma dataLoop_bare_later (i : nat) (before after : list string) (bare kind : string)
    (d : RNode) :
  mentions eqSign bare = false ->
  exists e, dataLoop (S i) (before ++ bare :: after) kind d = Err e.
Proof.
  intros Hb. revert i d.
  induction before as [|s before IH]; intros i d; simpl.
  - rewrite SplitN2_bare by done. simpl. eauto.
  - unfold SplitN2. destruct (cut eqSign s) as [[a b]|]; simpl; [|eauto].
    destruct (SetField a (ScalarNode b) d) as [d'|e|] eqn:E; simpl; [apply IH | eauto |].
    destruct d; simpl in E; [discriminate|]. by destruct (String.eqb a "").
Qed.

Lemma dataLoop_no_panic (i : nat) (items : list string) (kind : string) (d : RNode) :
  dataLoop i items kind d <> Panic.
Proof.
  revert i kind d. induction items as [|s items IH]; intros i kind d; simpl; [done|].
  unfold SplitN2. destruct (cut eqSign s) as [[a b]|]; simpl.
  - rewrite andb_false_r. simpl.
    destruct (SetField a (ScalarNode b) d) as [d'|e|] eqn:E; simpl; [apply IH | done |].
    destruct d; simpl in E; [discriminate|]. by destruct (String.eqb a "").
  - destruct (Nat.eqb i 0); simpl; [apply IH | done].
Qed.

Lemma getCLIFunctionConfig_no_panic (r : EvalFnRunner) (items : list string) :
  getCLIFunctionConfig r items <> Panic.
Proof.
  unfold getCLIFunctionConfig.
  destruct (String.eqb (Image r) "" && String.eqb (Exec r) ""); [done|].
  destruct items as [|s items]; [done|].
  cbn [length Nat.ltb Nat.leb]. simpl Lookup. cbn [mbind result_bind].
  destruct (dataLoop 0 (s :: items) "ConfigMap" (MappingNode [])) as [[k d]|e|] eqn:E.
  - done.
  - done.
  - by apply dataLoop_no_panic in E.
Qed.

Lemma image_or_exec (r : EvalFnRunner) :
  Image r <> "" \/ Exec r <> "" ->
  String.eqb (Image r) "" && String.eqb (Exec r) "" = false.
Proof.
  intros [Hi|He].
  - apply String.eqb_neq in Hi. by rewrite Hi.
  - apply String.eqb_neq in He. rewrite He. apply andb_false_r.
Qed.

Lemma getCLIFunctionConfig_items (r : EvalFnRunner) (s : string) (items : list string)
    (kind : string) (d : list (string * RNode)) :
  Image r <> "" \/ Exec r <> "" ->
  dataLoop 0 (s :: items) "ConfigMap" (MappingNode []) = Ok (kind, MappingNode d) ->
  getCLIFunctionConfig r (s :: items) = Ok (Some (functionConfig kind d)).
Proof.
  intros Hr Hloop. unfold getCLIFunctionConfig.
  rewrite image_or_exec by done.
  cbn [length Nat.ltb Nat.leb]. simpl Lookup. cbn [mbind result_bind].
  by rewrite Hloop.
Qed.

(** C3. With an image or an executable given, [key=value] arguments yield
    a function config with [metadata.name: function-input], [data],
    [kind: ConfigMap] and [apiVersion: v1], whose [data] holds the pairs
    as the map built from them does; a first argument without [=] gives
    the kind and is no data entry; a later argument without [=] is an
    error. *)
Theorem getCLIFunctionConfig_ConfigMap (r : EvalFnRunner)
    (pairs : list (string * string)) (kind : string) :
  Image r <> "" \/ Exec r <> "" ->
  Forall goodKey pairs ->
  mentions eqSign kind = false ->
  getCLIFunctionConfig r (keyValue <$> pairs)
  = Ok (Some (functionConfig "ConfigMap" (dataFields pairs))) /\
  getCLIFunctionConfig r (kind :: (keyValue <$> pairs))
  = Ok (Some (functionConfig kind (dataFields pairs))) /\
  (forall k, field k (dataFields pairs) = ScalarNode <$> (dataMap pairs !! k)) /\
  (forall first before bare after,
     mentions eqSign bare = false ->
     exists e, getCLIFunctionConfig r (first :: before ++ bare :: after) = Err e).
Proof.
  intros Hr Hkeys Hkind. split; [|split; [|split]].
  - destruct pairs as [|kv pairs].
    + unfold getCLIFunctionConfig. by rewrite image_or_exec.
    + apply getCLIFunctionConfig_items; [done|].
      by apply (dataLoop_pairs 0 (kv :: pairs)).
  - apply getCLIFunctionConfig_items; [done|].
    simpl. rewrite SplitN2_bare by done. simpl.
    by apply dataLoop_pairs.
  - intros k. apply field_dataFields.
  - intros first before bare after Hb.
    unfold getCLIFunctionConfig. rewrite image_or_exec by done.
    cbn [length Nat.ltb Nat.leb]. simpl Lookup. cbn [mbind result_bind].
    assert (exists e, dataLoop 0 (first :: before ++ bare :: after) "ConfigMap"
                        (MappingNode []) = Err e) as [e ->]; [|eauto].
    simpl. unfold SplitN2 at 1 2 3.
    destruct (cut eqSign first) as [[a b]|]; simpl.
    + destruct (String.eqb a ""); simpl; [eauto|].
      by apply dataLoop_bare_later.
    + by apply dataLoop_bare_later.
Qed.

Section Preflight.

Context (H : Host).

Local Abbreviation prefixed := (prefixed H).

Lemma append_empty (a b : string) : a +:+ b = "" -> b = "".
Proof. destruct a; [by rewrite append_nil_l | by rewrite append_cons]. Qed.

Lemma AddDefaultImagePathPrefix_nonEmpty (image : string) :
  image <> "" -> AddDefaultImagePathPrefix H image <> "".
Proof.
  intros Hne. unfold AddDefaultImagePathPrefix.
  destruct (unqualified H image); [|done].
  intros E. by apply append_empty in E.
Qed.

Lemma prefixed_image_or_exec (r : EvalFnRunner) :
  Image r <> "" \/ Exec r <> "" ->
  Image (prefixed r) <> "" \/ Exec (prefixed r) <> "".
Proof.
  unfold prefixed. destruct (nonEmpty (Image r)) eqn:E; [|done].
  intros _. left. simpl. apply AddDefaultImagePathPrefix_nonEmpty.
  by apply nonEmpty_true.
Qed.

(** What a successful preflight has established. *)
Lemma preRunE_inv (r : EvalFnRunner) (c : Command) (args : list string)
    (r' : EvalFnRunner) :
  preRunE H r c args = Ok r' ->
  exists items pos arg0 cfg spec eargs run,
    (Image r <> "" \/ Exec r <> "") /\
    splitAtDash c args = Ok (items, pos) /\
    withDefaultDir pos = [arg0] /\
    (items = [] \/ FnConfigPath r = "") /\
    getCLIFunctionConfig (prefixed r) items = Ok cfg /\
    getFunctionSpec H (set_dataItems items (prefixed r)) = Ok (spec, eargs) /\
    RunFns r' = Some run /\
    runfn.Function run = spec /\ runfn.ExecArgs run = eargs /\
    runfn.OriginalExec run = Exec r /\ runfn.FnConfig run = cfg /\
    Image r' = Image (prefixed r) /\ Exec r' = Exec r /\
    dataItems r' = items /\ FnConfigPath r' = FnConfigPath r /\
    Selector r' = Selector r /\
    (arg0 = "-" ->
       FromStdin r' = true /\ runfn.Input run = Some InOrStdin /\
       runfn.Output run = Some OutContent /\ runfn.Path run = "") /\
    (arg0 <> "-" ->
       FromStdin r' = FromStdin r /\ runfn.Input run = None /\
       runfn.Output run = (if nonEmpty (Dest r) then Some OutContent else None) /\
       (if nonEmpty arg0 then ResolveSymlink H arg0 = inr (runfn.Path run)
        else runfn.Path run = "")).
Proof.
  unfold preRunE. intros Hrun.
  apply bind_Ok in Hrun as ([] & _ & Hrun).
  apply bind_Ok in Hrun as ([] & Hie & Hrun).
  apply bind_Ok in Hrun as (r1 & Hr1 & Hrun).
  apply bind_Ok in Hrun as ([] & _ & Hrun).
  apply bind_Ok in Hrun as ([] & _ & Hrun).
  apply bind_Ok in Hrun as ([items pos] & Hsplit & Hrun).
  apply bind_Ok in Hrun as ([] & Husage & Hrun).
  apply bind_Ok in Hrun as ([] & Hcfgargs & Hrun).
  apply bind_Ok in Hrun as (cfg & Hcfg & Hrun).
  apply bind_Ok in Hrun as ([spec eargs] & Hspec & Hrun).
  fold (withDefaultDir pos) in *.
  assert (r1 = prefixed r) as ->.
  { unfold prefixed. destruct (nonEmpty (Image r)); [|by injection Hr1].
    apply bind_Ok in Hr1 as ([] & _ & Hr1). by injection Hr1. }
  assert (Image r <> "" \/ Exec r <> "") as Hnot.
  { destruct (String.eqb (Image r) "") eqn:E1; [|left; by apply String.eqb_neq].
    destruct (String.eqb (Exec r) "") eqn:E2; [done|right; by apply String.eqb_neq]. }
  assert (Exec (prefixed r) = Exec r /\ FnConfigPath (prefixed r) = FnConfigPath r
          /\ FromStdin (prefixed r) = FromStdin r /\ Dest (prefixed r) = Dest r
          /\ Selector (prefixed r) = Selector r)
    as (HE & HF & HS & HD & HSel).
  { unfold prefixed. by destruct (nonEmpty (Image r)). }
  destruct (withDefaultDir pos) as [|arg0 rest] eqn:Hpos; [discriminate|].
  destruct rest as [|arg1 rest]; [|discriminate].
  exists items, pos, arg0, cfg, spec, eargs.
  destruct (String.eqb arg0 "-") eqn:Harg.
  - apply String.eqb_eq in Harg as ->.
    apply bind_Ok in Hrun as ([] & _ & Hrun).
    apply bind_Ok in Hrun as (path & Hpath & Hrun).
    simpl in Hpath. injection Hpath as <-.
    injection Hrun as <-. eexists. simpl.
    repeat (split; [try done|]); try done.
    + rewrite HF in Hcfgargs. destruct items; [by left|right].
      simpl in Hcfgargs. destruct (nonEmpty (FnConfigPath r)) eqn:E; [done|].
      by apply nonEmpty_false.
  - apply String.eqb_neq in Harg.
    assert (exists out, (if nonEmpty (Dest (set_dataItems items (prefixed r)))
                         then (Some OutContent, @None reader,
                               set_dataItems items (prefixed r), [arg0])
                         else (None, None, set_dataItems items (prefixed r), [arg0]))
                        = (out, None, set_dataItems items (prefixed r), [arg0])
                        /\ out = if nonEmpty (Dest r) then Some OutContent else None)
      as (out & Hout & Houtv).
    { simpl. rewrite HD. destruct (nonEmpty (Dest r)); eauto. }
    rewrite Hout in Hrun.
    apply bind_Ok in Hrun as ([] & _ & Hrun).
    apply bind_Ok in Hrun as (path & Hpath & Hrun).
    injection Hrun as <-. eexists. simpl.
    repeat (split; [try done|]); try done.
    + rewrite HF in Hcfgargs. destruct items; [by left|right].
      simpl in Hcfgargs. destruct (nonEmpty (FnConfigPath r)) eqn:E; [done|].
      by apply nonEmpty_false.
    + simpl. destruct (nonEmpty arg0) eqn:E.
      * destruct (ResolveSymlink H arg0); [discriminate|]. by injection Hpath as ->.
      * apply nonEmpty_false in E. by injection Hpath as <-.
Qed.

Lemma check_no_panic (o : option error) : check o <> Panic.
Proof. by destruct o. Qed.

Lemma getFunctionSpec_no_panic (r : EvalFnRunner) : getFunctionSpec H r <> Panic.
Proof.
  unfold getFunctionSpec.
  destruct (nonEmpty (Image r)).
  { by destruct (ValidateFunctionImageURL H (Image r)). }
  destruct (nonEmpty (Exec r)); [|done].
  destruct (_ || _); [done|].
  destruct (shlex_Split H (Exec r)) as [e|[|p rest]]; done.
Qed.

Lemma withDefaultDir_nonempty (pos : list string) : withDefaultDir pos <> [].
Proof. by destruct pos. Qed.

(** Preflight panics only when the arguments before [--] are more than
    the arguments there are. *)
Lemma preRunE_no_panic (r : EvalFnRunner) (c : Command) (args : list string) :
  splitAtDash c args <> Panic -> preRunE H r c args <> Panic.
Proof.
  intros Hsplit Hp. unfold preRunE in Hp.
  apply bind_Panic in Hp as [Hp | ([] & _ & Hp)].
  { destruct (_ && _); [by apply check_no_panic in Hp | done]. }
  apply bind_Panic in Hp as [Hp | ([] & _ & Hp)].
  { by destruct (_ && _). }
  apply bind_Panic in Hp as [Hp | (r1 & _ & Hp)].
  { destruct (nonEmpty (Image r)); [|done].
    by destruct (DockerCmdAvailable H). }
  apply bind_Panic in Hp as [Hp | ([] & _ & Hp)].
  { by apply check_no_panic in Hp. }
  apply bind_Panic in Hp as [Hp | ([] & _ & Hp)].
  { destruct (nonEmpty (ResultsDir r1)); [|done].
    by destruct (MkdirAll H (ResultsDir r1)). }
  apply bind_Panic in Hp as [Hp | ([items pos] & _ & Hp)]; [done|].
  fold (withDefaultDir pos) in Hp.
  apply bind_Panic in Hp as [Hp | ([] & _ & Hp)].
  { by destruct (Nat.ltb _ _). }
  apply bind_Panic in Hp as [Hp | ([] & _ & Hp)].
  { by destruct (_ && _). }
  apply bind_Panic in Hp as [Hp | (cfg & _ & Hp)].
  { by apply getCLIFunctionConfig_no_panic in Hp. }
  apply bind_Panic in Hp as [Hp | ([spec eargs] & _ & Hp)].
  { by apply getFunctionSpec_no_panic in Hp. }
  pose proof (withDefaultDir_nonempty pos) as Hne.
  destruct (withDefaultDir pos) as [|arg0 rest]; [done|].
  destruct (String.eqb arg0 "-").
  - apply bind_Panic in Hp as [Hp | ([] & _ & Hp)].
    { destruct (nonEmpty _); [by apply check_no_panic in Hp | done]. }
    apply bind_Panic in Hp as [Hp | (path & _ & Hp)]; [|done].
    simpl in Hp. done.
  - destruct (nonEmpty (Dest _)).
    + apply bind_Panic in Hp as [Hp | ([] & _ & Hp)].
      { destruct (nonEmpty _); [by apply check_no_panic in Hp | done]. }
      apply bind_Panic in Hp as [Hp | (path & _ & Hp)]; [|done].
      destruct (nonEmpty _); [|done]. by destruct (ResolveSymlink H _).
    + apply bind_Panic in Hp as [Hp | ([] & _ & Hp)].
      { destruct (nonEmpty _); [by apply check_no_panic in Hp | done]. }
      apply bind_Panic in Hp as [Hp | (path & _ & Hp)]; [|done].
      destruct (nonEmpty _); [|done]. by destruct (ResolveSymlink H _).
Qed.

(** Preflight fails with an error whenever it cannot succeed. *)
Lemma preRunE_fails (r : EvalFnRunner) (c : Command) (args : list string) :
  splitAtDash c args <> Panic ->
  (forall r', preRunE H r c args <> Ok r') ->
  exists e, preRunE H r c args = Err e.
Proof.
  intros Hs Hno. apply result_is_Err; [done|]. by apply preRunE_no_panic.
Qed.

(** What a successful [getFunctionSpec] has established. *)
Lemma getFunctionSpec_inv (r : EvalFnRunner) (spec : FunctionSpec)
    (eargs : list string) :
  getFunctionSpec H r = Ok (spec, eargs) ->
  if nonEmpty (Image r) then
    ValidateFunctionImageURL H (Image r) = None /\
    spec = {| Container_Image := Image r; Exec_Path := "" |} /\ eargs = []
  else
    Container_Image spec = "" /\
    if nonEmpty (Exec r) then
      AsCurrentUser r = false /\ Network r = false /\
      Mounts r = [] /\ Env r = [] /\
      exists s, shlex_Split H (Exec r) = inr s /\
                Exec_Path spec = hd "" s /\ eargs = tail s
    else Exec_Path spec = "" /\ eargs = [].
Proof.
  unfold getFunctionSpec. destruct (nonEmpty (Image r)).
  { destruct (ValidateFunctionImageURL H (Image r)); [discriminate|].
    simpl. by intros [= <- <-]. }
  destruct (nonEmpty (Exec r)); [|by intros [= <- <-]].
  destruct (AsCurrentUser r), (Network r), (Mounts r) as [|m ms],
    (Env r) as [|v vs]; simpl; try discriminate.
  destruct (shlex_Split H (Exec r)) as [e|s]; [discriminate|].
  destruct s as [|path rest]; intros [= <- <-]; simpl; eauto 10.
Qed.

(** C1 (amended). An invocation with neither [--image] nor [--exec] fails
    at preflight, with the error [must specify --image or --exec] once the
    output directory has been accepted.  The function spec of a successful
    preflight never has both an image and an executable; when an image is
    given it is the image that is used, also when [--exec] is given too,
    which is then only recorded as [runfn.OriginalExec]. *)
Theorem preRunE_image_or_exec (r : EvalFnRunner) (c : Command) (args : list string) :
  (Image r = "" -> Exec r = "" ->
   exists e, preRunE H r c args = Err e /\
             (CheckDirectoryNotPresent H (Dest r) = None -> e = imageOrExecError)) /\
  (forall r', preRunE H r c args = Ok r' ->
     exists run, RunFns r' = Some run /\
       (Container_Image (runfn.Function run) = "" \/
        Exec_Path (runfn.Function run) = "") /\
       (Image r <> "" ->
          Container_Image (runfn.Function run)
          = AddDefaultImagePathPrefix H (Image r) /\
          Exec_Path (runfn.Function run) = "" /\ runfn.ExecArgs run = [] /\
          runfn.OriginalExec run = Exec r)).
Proof.
  split.
  - intros Hi He. unfold preRunE. rewrite Hi, He.
    destruct (nonEmpty (Dest r) && _ && _);
      destruct (CheckDirectoryNotPresent H (Dest r)) as [e|].
    + exists e. split; [reflexivity | discriminate].
    + exists imageOrExecError. split; [reflexivity | done].
    + exists imageOrExecError. split; [reflexivity | done].
    + exists imageOrExecError. split; [reflexivity | done].
  - intros r' Hrun.
    apply preRunE_inv in Hrun
      as (items & pos & arg0 & cfg & spec & eargs & run & _ & _ & _ & _ & _ &
          Hspec & Hruns & Hfn & Hea & Hoe & _).
    exists run. split; [done|].
    apply getFunctionSpec_inv in Hspec. simpl in Hspec.
    subst spec eargs. unfold prefixed in Hspec.
    destruct (nonEmpty (Image r)) eqn:Ei; simpl in Hspec.
    + pose proof (AddDefaultImagePathPrefix_nonEmpty (Image r)) as Hne.
      apply nonEmpty_true in Ei. specialize (Hne Ei).
      apply nonEmpty_true in Hne. rewrite Hne in Hspec.
      destruct Hspec as (_ & -> & ->). simpl. split; [by right|]. done.
    + rewrite Ei in Hspec. destruct Hspec as (Hc & _).
      split; [by left|]. apply nonEmpty_false in Ei. done.
Qed.

(** C2. For an exec function (no image): any of [--as-current-user],
    [--network], [--mount], [--env] makes [getFunctionSpec], and with it
    preflight, fail; without them the command line is split, its first
    token is the executable path and the remaining tokens are the
    arguments; a command line that cannot be split is an error. *)
Theorem getFunctionSpec_exec (r : EvalFnRunner) :
  Image r = "" -> Exec r <> "" ->
  (AsCurrentUser r = true \/ Network r = true \/ Mounts r <> [] \/ Env r <> [] ->
   getFunctionSpec H r = Err flagsError /\
   forall c args, splitAtDash c args <> Panic ->
                  exists e, preRunE H r c args = Err e) /\
  (AsCurrentUser r = false -> Network r = false -> Mounts r = [] -> Env r = [] ->
   (forall path rest,
      shlex_Split H (Exec r) = inr (path :: rest) ->
      getFunctionSpec H r = Ok ({| Container_Image := ""; Exec_Path := path |}, rest)) /\
   (forall e,
      shlex_Split H (Exec r) = inl e ->
      getFunctionSpec H r
      = Err ("exec command " +:+ quote H (Exec r) +:+ " must be valid: " +:+ e))).
Proof.
  intros Hi He.
  assert (nonEmpty (Image r) = false) as Ei by by apply nonEmpty_false.
  assert (nonEmpty (Exec r) = true) as Ee by by apply nonEmpty_true.
  split.
  - intros Hflags.
    assert (getFunctionSpec H r = Err flagsError) as Hspec.
    { unfold getFunctionSpec. rewrite Ei, Ee.
      destruct Hflags as [-> | [-> | [Hm | Hv]]]; simpl.
      - done.
      - by rewrite orb_true_r.
      - destruct (Mounts r); [done|]. simpl. by rewrite orb_true_r.
      - destruct (Env r); [done|]. simpl. by rewrite !orb_true_r. }
    split; [done|]. intros c args Hs.
    apply preRunE_fails; [done|]. intros r' Hrun.
    apply preRunE_inv in Hrun
      as (items & pos & arg0 & cfg & spec & eargs & run & _ & _ & _ & _ & _ &
          Hspec' & _).
    unfold prefixed in Hspec'. rewrite Ei in Hspec'.
    change (getFunctionSpec H (set_dataItems items r)) with (getFunctionSpec H r)
      in Hspec'.
    congruence.
  - intros Hu Hn Hm Hv. unfold getFunctionSpec. rewrite Ei, Ee, Hu, Hn, Hm, Hv.
    simpl. split.
    + intros path rest ->. done.
    + intros e ->. done.
Qed.

(** The two loops over [dataItems] accept the same arguments. *)
Lemma dataLoop_Ok_dataMapLoop (i : nat) (items : list string) (kind : string)
    (d : RNode) (x : string * RNode) (m : gmap string string) :
  dataLoop i items kind d = Ok x -> exists m', dataMapLoop i items m = Ok m'.
Proof.
  revert i kind d m. induction items as [|s items IH]; intros i kind d m; simpl.
  { eauto. }
  unfold SplitN2. destruct (cut eqSign s) as [[a b]|]; simpl.
  - rewrite andb_false_r. simpl.
    destruct (SetField a (ScalarNode b) d) as [d'| |]; simpl; try discriminate.
    apply IH.
  - destruct (Nat.eqb i 0); simpl; [apply IH | discriminate].
Qed.

Lemma dataMapLoop_pairs (i : nat) (pairs : list (string * string))
    (m : gmap string string) :
  Forall goodKey pairs ->
  dataMapLoop i (keyValue <$> pairs) m
  = Ok (foldl (fun m kv => <[kv.1 := kv.2]> m) m pairs).
Proof.
  intros Hall. revert i m.
  induction Hall as [|kv pairs [_ Hm] _ IH]; intros i m; simpl; [done|].
  rewrite SplitN2_keyValue by done. apply IH.
Qed.

(** The [ConfigMap] of the function built from [key=value] arguments is
    the map that the [data] of the function config reads as. *)
Lemma NewFunction_ConfigMap (r : EvalFnRunner) (pairs : list (string * string)) :
  FnConfigPath r = "" ->
  dataItems r = keyValue <$> pairs ->
  Forall goodKey pairs ->
  exists f, NewFunction H r = Ok f /\ kptfile.ConfigMap f = dataMap pairs /\
            forall k, field k (dataFields pairs)
                      = ScalarNode <$> (kptfile.ConfigMap f !! k).
Proof.
  intros Hpath Hitems Hkeys. unfold NewFunction.
  destruct (if nonEmpty (Image r) then _ else _) as [[image exec] name].
  apply nonEmpty_false in Hpath. rewrite Hpath, Hitems.
  rewrite dataMapLoop_pairs by done. simpl.
  eexists. split; [done|]. split; [done|]. intros k. apply field_dataFields.
Qed.

Lemma getCLIFunctionConfig_Ok_inv (r : EvalFnRunner) (items : list string)
    (cfg : option RNode) :
  Image r <> "" \/ Exec r <> "" ->
  getCLIFunctionConfig r items = Ok cfg ->
  exists x, dataLoop 0 items "ConfigMap" (MappingNode []) = Ok x.
Proof.
  intros Hr. unfold getCLIFunctionConfig. rewrite image_or_exec by done.
  destruct items as [|s items]; [by eauto|].
  cbn [length Nat.ltb Nat.leb]. simpl Lookup. cbn [mbind result_bind].
  destruct (dataLoop 0 (s :: items) "ConfigMap" (MappingNode [])) as [x| |];
    [eauto | discriminate | discriminate].
Qed.

Lemma NewFunction_not_both (r : EvalFnRunner) (f : kptfile.Function) :
  NewFunction H r = Ok f ->
  (kptfile.ConfigPath f = "" \/ kptfile.ConfigMap f = ∅) /\
  (FnConfigPath r = "" -> kptfile.ConfigPath f = "") /\
  (FnConfigPath r <> "" ->
   kptfile.ConfigMap f = ∅ /\
   kptfile.ConfigPath f = ResolveRelPath H (FnConfigPath r)).
Proof.
  unfold NewFunction.
  destruct (if nonEmpty (Image r) then _ else _) as [[image exec] name].
  destruct (nonEmpty (FnConfigPath r)) eqn:E.
  - intros [= <-]. simpl. apply nonEmpty_true in E.
    split; [by right|]. split; [done|]. done.
  - apply nonEmpty_false in E.
    destruct (dataMapLoop 0 (dataItems r) ∅) as [m| |]; simpl; try discriminate.
    intros [= <-]. simpl.
    split; [by left|]. split; [done|]. done.
Qed.

(** C7. With an image given, preflight replaces it by the image with the
    default prefix applied: the prefix is put in front of an unqualified
    name and a qualified name is left as it is.  That image is the one
    validated and the one of the function spec; when it is not a valid
    function image the function spec is refused with the validation error
    and preflight fails. *)
Theorem preRunE_image (r : EvalFnRunner) (c : Command) (args : list string) :
  Image r <> "" ->
  (unqualified H (Image r) = true ->
   AddDefaultImagePathPrefix H (Image r) = defaultImagePathPrefix H +:+ Image r) /\
  (unqualified H (Image r) = false ->
   AddDefaultImagePathPrefix H (Image r) = Image r) /\
  (forall r', preRunE H r c args = Ok r' ->
     Image r' = AddDefaultImagePathPrefix H (Image r) /\
     ValidateFunctionImageURL H (AddDefaultImagePathPrefix H (Image r)) = None /\
     exists run, RunFns r' = Some run /\
       Container_Image (runfn.Function run) = AddDefaultImagePathPrefix H (Image r)) /\
  (forall e,
     ValidateFunctionImageURL H (AddDefaultImagePathPrefix H (Image r)) = Some e ->
     getFunctionSpec H (prefixed r) = Err e /\
     (splitAtDash c args <> Panic -> exists e', preRunE H r c args = Err e')).
Proof.
  intros Hi.
  assert (nonEmpty (Image r) = true) as Ei by by apply nonEmpty_true.
  assert (nonEmpty (AddDefaultImagePathPrefix H (Image r)) = true) as Ep.
  { apply nonEmpty_true. by apply AddDefaultImagePathPrefix_nonEmpty. }
  assert (forall items spec eargs,
            getFunctionSpec H (set_dataItems items (prefixed r)) = Ok (spec, eargs) ->
            ValidateFunctionImageURL H (AddDefaultImagePathPrefix H (Image r)) = None /\
            Container_Image spec = AddDefaultImagePathPrefix H (Image r)) as Hok.
  { intros items spec eargs Hspec. apply getFunctionSpec_inv in Hspec.
    unfold prefixed in Hspec. rewrite Ei in Hspec. simpl in Hspec.
    rewrite Ep in Hspec. by destruct Hspec as (? & -> & _). }
  split; [|split; [|split]].
  - intros Hu. unfold AddDefaultImagePathPrefix. by rewrite Hu.
  - intros Hu. unfold AddDefaultImagePathPrefix. by rewrite Hu.
  - intros r' Hrun.
    apply preRunE_inv in Hrun
      as (items & pos & arg0 & cfg & spec & eargs & run & _ & _ & _ & _ & _ &
          Hspec & Hruns & Hfn & _ & _ & _ & Himg & _).
    apply Hok in Hspec as (Hv & Hc).
    split; [|split; [done|]].
    + rewrite Himg. unfold prefixed. by rewrite Ei.
    + exists run. split; [done|]. by rewrite Hfn.
  - intros e He. split.
    + unfold getFunctionSpec, prefixed. rewrite Ei. simpl. rewrite Ep.
      by rewrite He.
    + intros Hs. apply preRunE_fails; [done|]. intros r' Hrun.
      apply preRunE_inv in Hrun
        as (items & pos & arg0 & cfg & spec & eargs & run & _ & _ & _ & _ & _ &
            Hspec & _).
      apply Hok in Hspec as (Hv & _). congruence.
Qed.

Lemma alreadyThere_None (r : EvalFnRunner) (ms : list kptfile.Function) :
  alreadyThere r ms = None <-> noneTaken r ms.
Proof.
  unfold noneTaken. induction ms as [|m ms IH]; simpl.
  { split; [constructor | done]. }
  destruct (String.eqb (kptfile.Name m) (Image r)) eqn:E1.
  { apply String.eqb_eq in E1. split; [done|]. inversion 1; subst. tauto. }
  destruct (String.eqb (kptfile.Image m) (Image r)) eqn:E2.
  { apply String.eqb_eq in E2. split; [done|]. inversion 1; subst. tauto. }
  destruct (String.eqb (kptfile.Name m) (Exec r)) eqn:E3.
  { apply String.eqb_eq in E3. split; [done|]. inversion 1; subst. tauto. }
  destruct (String.eqb (kptfile.Exec m) (Exec r)) eqn:E4.
  { apply String.eqb_eq in E4. split; [done|]. inversion 1; subst. tauto. }
  simpl. apply String.eqb_neq in E1, E2, E3, E4. rewrite IH. split.
  - by constructor.
  - by inversion 1.
Qed.

(** When a mutator is taken for the function, the Kptfile is left as it
    is; otherwise the new function is appended at the end of the mutators. *)
Lemma SaveFnToKptfile_cases (r : EvalFnRunner)
    (store : gmap string kptfile.KptFile) (kf : kptfile.KptFile)
    (f : kptfile.Function) :
  store !! Dest r = Some kf ->
  NewFunction H r = Ok f ->
  let pipeline := default emptyPipeline (kptfile.pipeline kf) in
  (alreadyThere r (kptfile.Mutators pipeline) <> None ->
   exists msg, SaveFnToKptfile H r None store = Ok (store, [msg])) /\
  (alreadyThere r (kptfile.Mutators pipeline) = None ->
   SaveFnToKptfile H r None store
   = Ok (<[Dest r :=
            {| kptfile.pipeline :=
                 Some {| kptfile.Mutators := kptfile.Mutators pipeline ++ [f];
                         kptfile.Validators := kptfile.Validators pipeline |} |}]>
           store,
         [addedMsg])).
Proof.
  intros Hkf Hf pipeline. unfold SaveFnToKptfile. rewrite Hkf. fold pipeline.
  destruct (alreadyThere r (kptfile.Mutators pipeline)) as [msg|].
  - split; [eauto | done].
  - split; [done|]. intros _. by rewrite Hf.
Qed.

End Preflight.

(** C1, as stated, fails: with both [--image] and [--exec] preflight
    succeeds. *)
Lemma preRunE_accepts_image_and_exec :
  Image imageAndExec <> "" /\
  Exec imageAndExec <> "" /\
  ~ (exists e, preRunE sampleHost imageAndExec noDash [] = Err e).
Proof.
  split; [discriminate|]. split; [discriminate|].
  intros [e He]. vm_compute in He. discriminate.
Qed.

Lemma preRunE_image_or_exec_witness :
  preRunE sampleHost (runner "" "" "") noDash [] = Err imageOrExecError /\
  preRunE sampleHost imageAndExec noDash ["pkg"]
  = Ok (preflighted sampleHost imageAndExec noDash ["pkg"]) /\
  exists run,
    RunFns (preflighted sampleHost imageAndExec noDash ["pkg"]) = Some run /\
    Container_Image (runfn.Function run) = "gcr.io/kpt-fn/set-namespace:v0.1" /\
    Exec_Path (runfn.Function run) = "" /\ runfn.ExecArgs run = [] /\
    runfn.OriginalExec run = "./my-fn".
Proof.
  assert (preRunE sampleHost imageAndExec noDash ["pkg"]
          = Ok (preflighted sampleHost imageAndExec noDash ["pkg"])) as Hok
    by (vm_compute; reflexivity).
  destruct (preRunE_image_or_exec sampleHost (runner "" "" "") noDash [])
    as [Hneither _].
  destruct (Hneither eq_refl eq_refl) as (e & He & Hdest).
  destruct (preRunE_image_or_exec sampleHost imageAndExec noDash ["pkg"])
    as [_ Hboth].
  destruct (Hboth _ Hok) as (run & Hrun & _ & Himage).
  split; [|split; [exact Hok|]].
  - rewrite He. f_equal. apply Hdest. reflexivity.
  - exists run. split; [exact Hrun|]. apply Himage. discriminate.
Defined.

(** The preflight of the witness does succeed, and uses the image. *)
Example preRunE_image_and_exec_run :
  exists r' run,
    preRunE sampleHost (runner "set-namespace:v0.1" "./my-fn" "") noDash ["pkg"] = Ok r' /\
    RunFns r' = Some run /\
    runfn.Function run = {| Container_Image := "gcr.io/kpt-fn/set-namespace:v0.1";
                      Exec_Path := "" |} /\
    runfn.OriginalExec run = "./my-fn" /\ runfn.Path run = "pkg".
Proof. eexists _, _. repeat split; vm_compute; reflexivity. Qed.

Lemma getFunctionSpec_exec_witness :
  getFunctionSpec sampleHost execRunner
  = Ok ({| Container_Image := ""; Exec_Path := "./my-fn" |}, ["--level"; "debug"]) /\
  getFunctionSpec sampleHost execRunnerNetwork = Err flagsError /\
  exists e, preRunE sampleHost execRunnerNetwork noDash ["pkg"] = Err e.
Proof.
  split; [|split].
  - apply (getFunctionSpec_exec sampleHost execRunner);
      [reflexivity | discriminate | reflexivity..].
  - apply (getFunctionSpec_exec sampleHost execRunnerNetwork);
      [reflexivity | discriminate | right; left; reflexivity].
  - apply (getFunctionSpec_exec sampleHost execRunnerNetwork);
      [reflexivity | discriminate | right; left; reflexivity | discriminate].
Defined.

Lemma getCLIFunctionConfig_ConfigMap_witness :
  getCLIFunctionConfig (runner "set-namespace:v0.1" "" "")
    ["namespace=staging"; "team=web"]
  = Ok (Some (functionConfig "ConfigMap"
                [("namespace", ScalarNode "staging"); ("team", ScalarNode "web")])) /\
  getCLIFunctionConfig (runner "set-namespace:v0.1" "" "")
    ["SetNamespace"; "namespace=staging"; "team=web"]
  = Ok (Some (functionConfig "SetNamespace"
                [("namespace", ScalarNode "staging"); ("team", ScalarNode "web")])) /\
  exists e, getCLIFunctionConfig (runner "set-namespace:v0.1" "" "")
              ["namespace=staging"; "team"] = Err e.
Proof.
  pose proof (getCLIFunctionConfig_ConfigMap (runner "set-namespace:v0.1" "" "")
                [("namespace", "staging"); ("team", "web")] "SetNamespace") as Hthm.
  destruct Hthm as (H1 & H2 & _ & H4).
  - left. discriminate.
  - repeat constructor; discriminate.
  - reflexivity.
  - split; [exact H1|]. split; [exact H2|].
    apply (H4 "namespace=staging" [] "team" []). reflexivity.
Defined.

(** The function built after that preflight carries the arguments as its
    [ConfigMap] and no [ConfigPath]. *)
Example NewFunction_after_preflight :
  exists r' f,
    preRunE sampleHost (runner "set-namespace:v0.1" "" "")
      (dashAt 1) ["pkg"; "namespace=staging"] = Ok r' /\
    NewFunction sampleHost r' = Ok f /\
    kptfile.ConfigPath f = "" /\ kptfile.ConfigMap f = {[ "namespace" := "staging" ]} /\
    kptfile.Image f = "gcr.io/kpt-fn/set-namespace:v0.1" /\ kptfile.Exec f = "".
Proof. eexists _, _. repeat split; vm_compute; reflexivity. Qed.

Lemma preRunE_image_witness :
  Image setNamespace <> "" /\
  AddDefaultImagePathPrefix sampleHost "set-namespace:v0.1"
  = "gcr.io/kpt-fn/set-namespace:v0.1" /\
  preRunE sampleHost setNamespace noDash ["pkg"]
  = Ok (preflighted sampleHost setNamespace noDash ["pkg"]) /\
  Image (preflighted sampleHost setNamespace noDash ["pkg"])
  = "gcr.io/kpt-fn/set-namespace:v0.1" /\
  (exists run,
     RunFns (preflighted sampleHost setNamespace noDash ["pkg"]) = Some run /\
     Container_Image (runfn.Function run) = "gcr.io/kpt-fn/set-namespace:v0.1") /\
  exists e, preRunE sampleHost (runner "set namespace" "" "") noDash ["pkg"] = Err e.
Proof.
  assert (preRunE sampleHost setNamespace noDash ["pkg"]
          = Ok (preflighted sampleHost setNamespace noDash ["pkg"])) as Hok
    by (vm_compute; reflexivity).
  destruct (preRunE_image sampleHost setNamespace noDash ["pkg"])
    as (Hprefix & _ & Hrun & _); [discriminate|].
  destruct (Hrun _ Hok) as (Himage & _ & Hspec).
  destruct (preRunE_image sampleHost (runner "set namespace" "" "") noDash ["pkg"])
    as (_ & _ & _ & Hinvalid); [discriminate|].
  destruct (Hinvalid "function name is not valid: gcr.io/kpt-fn/set namespace"
              eq_refl) as (_ & Hfail).
  split; [discriminate|]. split; [apply Hprefix; reflexivity|].
  split; [exact Hok|]. split; [exact Himage|]. split; [exact Hspec|].
  apply Hfail. discriminate.
Defined.

(** An image name that is not valid makes preflight fail. *)
Example preRunE_invalid_image :
  preRunE sampleHost (runner "set namespace" "" "") noDash ["pkg"]
  = Err "function name is not valid: gcr.io/kpt-fn/set namespace".
Proof. vm_compute. reflexivity. Qed.

(** The three cases of the positional argument on the sample host. *)
Example preRunE_no_argument :
  exists r' run,
    preRunE sampleHost (runner "set-namespace:v0.1" "" "") noDash [] = Ok r' /\
    RunFns r' = Some run /\ runfn.Path run = "." /\ runfn.Input run = None /\
    FromStdin r' = false.
Proof. eexists _, _. repeat split; vm_compute; reflexivity. Qed.

Example preRunE_stdin :
  exists r' run,
    preRunE sampleHost (runner "set-namespace:v0.1" "" "") noDash ["-"] = Ok r' /\
    RunFns r' = Some run /\ runfn.Path run = "" /\ runfn.Input run = Some InOrStdin /\
    FromStdin r' = true.
Proof. eexists _, _. repeat split; vm_compute; reflexivity. Qed.

Example preRunE_two_arguments :
  preRunE sampleHost (runner "set-namespace:v0.1" "" "") noDash ["pkg"; "other"]
  = Err usageError.
Proof. vm_compute. reflexivity. Qed.

(** C9 (what the code does). Saving the image [set-labels] to a Kptfile
    whose only mutator is the executable [./other-fn] -- whose name, image
    and executable all differ from those of the function being saved --
    adds nothing: the unset [Exec] of the runner equals the unset name of
    the mutator, the function is reported as already there and the Kptfile
    is unchanged.  The same happens with the image mutator of
    [sub-pkg/Kptfile]. *)
Theorem SaveFnToKptfile_skips_other_function :
  (exists f, NewFunction sampleHost saveSetLabels = Ok f /\
             kptfile.Name f <> kptfile.Name otherExecFn /\
             kptfile.Image f <> kptfile.Image otherExecFn /\
             kptfile.Exec f <> kptfile.Exec otherExecFn /\
             kptfile.Name f <> kptfile.Name setNamespaceFn /\
             kptfile.Image f <> kptfile.Image setNamespaceFn) /\
  SaveFnToKptfile sampleHost saveSetLabels None execPkgStore
  = Ok (execPkgStore, [skipExecMsg]) /\
  SaveFnToKptfile sampleHost saveSetLabels None subPkgStore
  = Ok (subPkgStore, [skipExecMsg]).
Proof.
  split; [|split].
  - eexists. split; [vm_compute; reflexivity|]. repeat split; discriminate.
  - vm_compute. reflexivity.
  - vm_compute. reflexivity.
Qed.

(** Saving to a Kptfile without mutators appends the function, and saving
    again leaves the Kptfile as it is. *)
Example SaveFnToKptfile_twice :
  exists f store',
    NewFunction sampleHost saveSetLabels = Ok f /\
    SaveFnToKptfile sampleHost saveSetLabels None
      {[ "" := {| kptfile.pipeline := None |} ]}
    = Ok (store', [addedMsg]) /\
    store' = {[ "" := {| kptfile.pipeline :=
                           Some {| kptfile.Mutators := [f];
                                   kptfile.Validators := [] |} |} ]} /\
    SaveFnToKptfile sampleHost saveSetLabels None store' = Ok (store', [skipImageMsg]).
Proof. eexists _, _. repeat split; vm_compute; reflexivity. Qed.

(** ** More on preflight *)

Section MorePreflight.

Context (H : Host).

Lemma guard_Ok (b : bool) (o : option error) (u : unit) :
  (if b then check o else Ok tt) = Ok u <-> (b = true -> o = None).
Proof.
  destruct u, b, o; simpl; split; try done.
  - intros Hn. by specialize (Hn eq_refl).
Qed.

Lemma prefixed_eq (r : EvalFnRunner) :
  prefixed H r
  = set_Image (if nonEmpty (Image r)
               then AddDefaultImagePathPrefix H (Image r) else Image r) r.
Proof. unfold prefixed. destruct r as []. simpl. by destruct (nonEmpty _). Qed.

Lemma withDefaultDir_single (pos : list string) :
  Nat.ltb 1 (length (withDefaultDir pos)) = false <->
  exists arg0, withDefaultDir pos = [arg0].
Proof.
  destruct pos as [|a [|b pos]]; simpl; split; eauto; try done.
  intros [arg0 Ha]. discriminate.
Qed.

(** X5. Preflight succeeds exactly when every check passes -- the output
    directory (only when one is given that is neither [stdout] nor
    [unwrap]), an image or an executable, docker (only for an image), the
    pull policy, the results directory, at most one positional argument, no
    arguments together with a config file, the function config, the
    function spec, the config file and the package path -- and it then
    returns the runner described by [preflightResult]. *)
Theorem preRunE_Ok_iff (r : EvalFnRunner) (c : Command) (args : list string)
    (r' : EvalFnRunner) :
  preRunE H r c args = Ok r' <->
  exists items pos arg0 path cfg spec eargs,
    preflightChecks H r c args items pos arg0 path cfg spec eargs /\
    r' = preflightResult H r items arg0 path cfg spec eargs.
Proof.
  unfold preRunE, preflightChecks. fold (destChecked r). split.
  - intros Hrun.
    apply bind_Ok in Hrun as (u1 & Hdest & Hrun).
    pose proof (proj1 (guard_Ok _ _ _) Hdest) as Hdest'.
    apply bind_Ok in Hrun as ([] & Hie & Hrun).
    assert (Image r <> "" \/ Exec r <> "") as Hnot.
    { destruct (String.eqb (Image r) "") eqn:E1; [|left; by apply String.eqb_neq].
      destruct (String.eqb (Exec r) "") eqn:E2; [done|right; by apply String.eqb_neq]. }
    apply bind_Ok in Hrun as (r1 & Hr1 & Hrun).
    assert (r1 = prefixed H r /\ (Image r <> "" -> DockerCmdAvailable H = None))
      as [-> Hdocker].
    { unfold prefixed. destruct (nonEmpty (Image r)) eqn:Ei.
      - destruct (DockerCmdAvailable H); [discriminate|]. by injection Hr1.
      - injection Hr1 as <-. split; [done|]. intros Hi.
        by apply nonEmpty_false in Ei. }
    rewrite prefixed_eq in Hrun. cbn [ImagePullPolicy ResultsDir FnConfigPath
      set_Image] in Hrun. rewrite <- prefixed_eq in Hrun.
    apply bind_Ok in Hrun as ([] & Hpull & Hrun).
    apply bind_Ok in Hrun as ([] & Hmk & Hrun).
    apply bind_Ok in Hrun as ([items pos] & Hsplit & Hrun).
    fold (withDefaultDir pos) in Hrun.
    apply bind_Ok in Hrun as ([] & Husage & Hrun).
    apply bind_Ok in Hrun as ([] & Hcfgargs & Hrun).
    apply bind_Ok in Hrun as (cfg & Hcfg & Hrun).
    apply bind_Ok in Hrun as ([spec eargs] & Hspec & Hrun).
    destruct (withDefaultDir pos) as [|arg0 rest] eqn:Hpos; [discriminate|].
    destruct rest as [|arg1 rest]; [|discriminate].
    assert (items = [] \/ FnConfigPath r = "") as Hor.
    { destruct items; [by left|right]. simpl in Hcfgargs.
      destruct (nonEmpty (FnConfigPath r)) eqn:E; [done|]. by apply nonEmpty_false. }
    assert (ResultsDir r <> "" -> MkdirAll H (ResultsDir r) = None) as Hres.
    { intros Hne. apply nonEmpty_true in Hne. rewrite Hne in Hmk.
      by destruct (MkdirAll H (ResultsDir r)). }
    assert (ValidateImagePullPolicyValue H (ImagePullPolicy r) = None) as Hpol.
    { by destruct (ValidateImagePullPolicyValue H (ImagePullPolicy r)). }
    rewrite prefixed_eq in Hrun.
    cbn [Dest FnConfigPath Mounts Network Env AsCurrentUser ResultsDir Exec
         IncludeMetaResources ImagePullPolicy Selector set_dataItems set_Image
         set_FromStdin] in Hrun.
    destruct (String.eqb arg0 "-") eqn:Harg.
    + apply bind_Ok in Hrun as (u2 & Hfile & Hrun).
      cbn [FnConfigPath set_FromStdin set_dataItems set_Image] in Hfile.
      pose proof (proj1 (guard_Ok _ _ _) Hfile) as Hfile'.
      apply bind_Ok in Hrun as (path & Hpath & Hrun).
      simpl in Hpath. injection Hpath as <-. injection Hrun as <-.
      exists items, pos, arg0, "", cfg, spec, eargs.
      rewrite Harg. split.
      * repeat (split; [done|]). split; [|done].
        intros Hne. apply nonEmpty_true in Hne. specialize (Hfile' Hne).
        unfold checkFnConfigPathExistence in Hfile'.
        by destruct (IsNotExist H (FnConfigPath r)).
      * unfold preflightResult. rewrite Harg, prefixed_eq. reflexivity.
    + assert (exists out,
                (if nonEmpty (Dest r)
                 then (Some OutContent, @None reader,
                       set_dataItems items (set_Image
                         (if nonEmpty (Image r)
                          then AddDefaultImagePathPrefix H (Image r)
                          else Image r) r), [arg0])
                 else (None, None,
                       set_dataItems items (set_Image
                         (if nonEmpty (Image r)
                          then AddDefaultImagePathPrefix H (Image r)
                          else Image r) r), [arg0]))
                = (out, None,
                   set_dataItems items (set_Image
                     (if nonEmpty (Image r)
                      then AddDefaultImagePathPrefix H (Image r)
                      else Image r) r), [arg0])
                /\ out = if nonEmpty (Dest r) then Some OutContent else None)
        as (out & Hout & Houtv).
      { destruct (nonEmpty (Dest r)); eauto. }
      rewrite Hout in Hrun.
      apply bind_Ok in Hrun as (u2 & Hfile & Hrun).
      cbn [FnConfigPath set_dataItems set_Image] in Hfile.
      pose proof (proj1 (guard_Ok _ _ _) Hfile) as Hfile'.
      apply bind_Ok in Hrun as (path & Hpath & Hrun).
      injection Hrun as <-.
      exists items, pos, arg0, path, cfg, spec, eargs.
      rewrite Harg. split.
      * repeat (split; [done|]). split.
        -- intros Hne. apply nonEmpty_true in Hne. specialize (Hfile' Hne).
           unfold checkFnConfigPathExistence in Hfile'.
           by destruct (IsNotExist H (FnConfigPath r)).
        -- destruct (nonEmpty arg0) eqn:Ea.
           ++ destruct (ResolveSymlink H arg0); [discriminate|].
              by injection Hpath as ->.
           ++ apply nonEmpty_false in Ea. by injection Hpath as <-.
      * unfold preflightResult. rewrite Harg, prefixed_eq, Houtv. reflexivity.
  - intros (items & pos & arg0 & path & cfg & spec & eargs & Hchecks & ->).
    destruct Hchecks as (Hdest & Hnot & Hdocker & Hpol & Hres & Hsplit & Hpos &
                         Hor & Hcfg & Hspec & Hfile & Hpath).
    rewrite (proj2 (guard_Ok _ _ tt) Hdest). cbn [mbind result_bind].
    rewrite image_or_exec by done. cbn [mbind result_bind].
    assert ((if nonEmpty (Image r)
             then check (DockerCmdAvailable H) ≫= λ _ : (),
                    Ok (set_Image (AddDefaultImagePathPrefix H (Image r)) r)
             else Ok r) = Ok (prefixed H r)) as ->.
    { unfold prefixed. destruct (nonEmpty (Image r)) eqn:Ei; [|done].
      apply nonEmpty_true in Ei. by rewrite (Hdocker Ei). }
    cbn [mbind result_bind].
    assert (ImagePullPolicy (prefixed H r) = ImagePullPolicy r
            /\ ResultsDir (prefixed H r) = ResultsDir r
            /\ FnConfigPath (prefixed H r) = FnConfigPath r)
      as (-> & -> & ->) by (by rewrite prefixed_eq).
    rewrite Hpol. cbn [check mbind result_bind].
    assert ((if nonEmpty (ResultsDir r)
             then match MkdirAll H (ResultsDir r) with
                  | Some e => Err ("cannot read or create results dir "
                                   +:+ quote H (ResultsDir r) +:+ ": " +:+ e)
                  | None => Ok ()
                  end
             else Ok ()) = Ok ()) as ->.
    { destruct (nonEmpty (ResultsDir r)) eqn:E; [|done].
      apply nonEmpty_true in E. by rewrite (Hres E). }
    cbn [mbind result_bind]. rewrite Hsplit. cbn [mbind result_bind].
    fold (withDefaultDir pos). rewrite Hpos.
    cbn [length Nat.ltb Nat.leb mbind result_bind].
    assert (match length items with 0 => false | S _ => true end
            && nonEmpty (FnConfigPath r) = false) as ->.
    { destruct Hor as [-> | ->]; [done|]. apply andb_false_r. }
    cbn [mbind result_bind]. rewrite Hcfg. cbn [mbind result_bind].
    rewrite Hspec. cbn [mbind result_bind].
    unfold preflightResult.
    assert ((if nonEmpty (FnConfigPath r)
             then check (checkFnConfigPathExistence H (FnConfigPath r))
             else Ok ()) = Ok ()) as Hfile'.
    { destruct (nonEmpty (FnConfigPath r)) eqn:E; [|done].
      apply nonEmpty_true in E. unfold checkFnConfigPathExistence.
      by rewrite (Hfile E). }
    rewrite prefixed_eq.
    cbn [Dest FnConfigPath Mounts Network Env AsCurrentUser ResultsDir Exec
         IncludeMetaResources ImagePullPolicy Selector set_dataItems set_Image
         set_FromStdin].
    destruct (String.eqb arg0 "-") eqn:Harg.
    + subst path. cbn [FnConfigPath set_FromStdin set_dataItems set_Image].
      rewrite Hfile'. reflexivity.
    + destruct (nonEmpty (Dest r)) eqn:Ed;
        cbn [FnConfigPath set_FromStdin set_dataItems set_Image];
        rewrite Hfile'; cbn [mbind result_bind orb];
        (destruct (nonEmpty arg0) eqn:Ea;
           [rewrite Hpath | apply nonEmpty_false in Ea; subst path arg0]);
        reflexivity.
Qed.

End MorePreflight.

(** ** The function config, the saved function and the run *)

Lemma cut_None (sep : Ascii.ascii) (s : string) :
  cut sep s = None <-> mentions sep s = false.
Proof.
  induction s as [|c s IH]; simpl; [done|].
  destruct (Ascii.eqb c sep); simpl; [done|].
  rewrite <- IH. by destruct (cut sep s) as [[a b]|].
Qed.

Lemma cut_Some (sep : Ascii.ascii) (s a b : string) :
  cut sep s = Some (a, b) -> s = a +:+ String sep b.
Proof.
  revert a. induction s as [|c s IH]; intros a; simpl; [done|].
  destruct (Ascii.eqb c sep) eqn:E.
  - apply Ascii.eqb_eq in E as ->. intros [= <- <-]. by rewrite append_nil_l.
  - destruct (cut sep s) as [[a' b']|]; [|done]. intros [= <- <-].
    rewrite append_cons. f_equal. by apply IH.
Qed.

Lemma fromItems_setField (all : list string) (a b : string)
    (d : list (string * RNode)) :
  a +:+ String eqSign b ∈ all -> fromItems all d ->
  fromItems all (setField a (ScalarNode b) d).
Proof.
  intros Hin Hd k n. rewrite field_setField.
  destruct (String.eqb a k) eqn:E; [|apply Hd].
  apply String.eqb_eq in E as <-. intros [= <-]. eauto.
Qed.

(** The loop keeps the data a mapping of scalars taken from the
    arguments, and only its first round can change the kind. *)
Lemma dataLoop_inv (all : list string) (i : nat) (items : list string)
    (kind : string) (d : list (string * RNode)) (kind' : string) (d' : RNode) :
  dataLoop i items kind (MappingNode d) = Ok (kind', d') ->
  items ⊆ all -> fromItems all d ->
  exists d'', d' = MappingNode d'' /\ fromItems all d'' /\
    kind' = if Nat.eqb i 0
            then match items with
                 | s :: _ => if mentions eqSign s then kind else s
                 | [] => kind
                 end
            else kind.
Proof.
  revert i kind d. induction items as [|s items IH]; intros i kind d; simpl.
  { intros [= <- <-] _ Hd. exists d. by destruct (Nat.eqb i 0). }
  intros Hloop Hsub Hd.
  assert (s ∈ all) as Hs by (apply Hsub; by left).
  assert (items ⊆ all) as Hsub' by (intros x Hx; apply Hsub; by right).
  unfold SplitN2 in Hloop. destruct (cut eqSign s) as [[a b]|] eqn:E.
  - assert (mentions eqSign s = true) as ->.
    { destruct (mentions eqSign s) eqn:Em; [done|].
      apply cut_None in Em. congruence. }
    apply cut_Some in E. simpl in Hloop. rewrite andb_false_r in Hloop.
    simpl in Hloop. destruct (String.eqb a ""); [discriminate|].
    simpl in Hloop. apply IH in Hloop as (d'' & -> & Hd'' & ->); [|done|].
    + exists d''. by destruct (Nat.eqb i 0).
    + apply fromItems_setField; [by rewrite <- E | done].
  - apply cut_None in E. rewrite E. simpl in Hloop.
    destruct (Nat.eqb i 0); simpl in Hloop; [|discriminate].
    apply IH in Hloop as (d'' & -> & Hd'' & ->); [|done|done].
    by exists d''.
Qed.

Lemma dataMapLoop_no_Err (i : nat) (items : list string) (m : gmap string string)
    (e : error) :
  dataMapLoop i items m <> Err e.
Proof.
  revert i m. induction items as [|s items IH]; intros i m; simpl; [done|].
  unfold SplitN2. destruct (cut eqSign s) as [[a b]|]; [apply IH|].
  destruct (Nat.eqb i 0); [apply IH | done].
Qed.

Lemma dataMapLoop_Panic (i : nat) (items : list string) (m : gmap string string) :
  dataMapLoop i items m = Panic <->
  exists j s, items !! j = Some s /\ mentions eqSign s = false /\ (0 < i + j)%nat.
Proof.
  revert i m. induction items as [|s items IH]; intros i m; simpl.
  { split; [done|]. by intros (j & s & Hs & _). }
  unfold SplitN2. destruct (cut eqSign s) as [[a b]|] eqn:E.
  - rewrite IH. split.
    + intros (j & s' & Hs' & Hm & Hlt). exists (S j), s'. split; [done|].
      split; [done | lia].
    + intros ([|j] & s' & Hs' & Hm & Hlt).
      * injection Hs' as <-. apply cut_None in Hm. congruence.
      * exists j, s'. split; [done|]. split; [done | lia].
  - apply cut_None in E. destruct (Nat.eqb i 0) eqn:Ei.
    + apply Nat.eqb_eq in Ei as ->. rewrite IH. split.
      * intros (j & s' & Hs' & Hm & Hlt). exists (S j), s'. split; [done|].
        split; [done | lia].
      * intros ([|j] & s' & Hs' & Hm & Hlt); [lia|].
        exists j, s'. split; [done|]. split; [done | lia].
    + apply Nat.eqb_neq in Ei. split; [|done]. intros _.
      exists 0%nat, s. split; [done|]. split; [done | lia].
Qed.

Lemma alreadyThere_msg (r : EvalFnRunner) (ms : list kptfile.Function)
    (msg : string) :
  alreadyThere r ms = Some msg -> msg = skipImageMsg \/ msg = skipExecMsg.
Proof.
  induction ms as [|m ms IH]; simpl; [done|].
  destruct (_ || _); [intros [= <-]; by left|].
  destruct (_ || _); [intros [= <-]; by right|]. done.
Qed.

Lemma alreadyThere_app (r : EvalFnRunner) (ms ms' : list kptfile.Function) :
  alreadyThere r (ms ++ ms')
  = match alreadyThere r ms with
    | Some msg => Some msg
    | None => alreadyThere r ms'
    end.
Proof.
  induction ms as [|m ms IH]; simpl; [done|].
  destruct (_ || _); [done|]. by destruct (_ || _).
Qed.

Lemma alreadyThere_unset (r : EvalFnRunner) (ms : list kptfile.Function)
    (m : kptfile.Function) :
  m ∈ ms -> unsetMatch r m -> alreadyThere r ms <> None.
Proof.
  intros Hin Hm. rewrite alreadyThere_None. unfold noneTaken.
  rewrite Forall_forall. intros Hall. specialize (Hall m Hin).
  destruct Hall as (H1 & H2 & H3 & H4).
  destruct Hm as [[Hi [Hn | Hn]] | [He [Hn | Hn]]]; congruence.
Qed.

Lemma skip_not_added (msg : string) :
  msg = skipImageMsg \/ msg = skipExecMsg -> msg <> addedMsg.
Proof. by intros [-> | ->]. Qed.

Lemma notAdded_not_added (e : error) :
  ["function is not added to Kptfile: " +:+ e +:+ nl] <> [addedMsg].
Proof. intros E. vm_compute in E. discriminate. Qed.

Section MoreSave.

Context (H : Host).

Lemma NewFunction_name (r : EvalFnRunner) (f : kptfile.Function) :
  NewFunction H r = Ok f ->
  kptfile.Name f = (if nonEmpty (Image r) then Image r else Exec r) /\
  kptfile.Image f = (if nonEmpty (Image r) then Image r else "") /\
  kptfile.Exec f = (if nonEmpty (Image r) then "" else Exec r).
Proof.
  unfold NewFunction. destruct (nonEmpty (Image r)).
  - destruct (nonEmpty (FnConfigPath r)); [by intros [= <-]|].
    destruct (dataMapLoop 0 (dataItems r) ∅); [|done|done]. by intros [= <-].
  - destruct (nonEmpty (FnConfigPath r)); [by intros [= <-]|].
    destruct (dataMapLoop 0 (dataItems r) ∅); [|done|done]. by intros [= <-].
Qed.

(** The function that [NewFunction] builds is taken for the function of
    its own runner, as an image. *)
Lemma alreadyThere_NewFunction (r : EvalFnRunner) (f : kptfile.Function) :
  NewFunction H r = Ok f -> alreadyThere r [f] = Some skipImageMsg.
Proof.
  intros Hf. apply NewFunction_name in Hf as (Hn & Hi & _). simpl.
  rewrite Hn, Hi. destruct (nonEmpty (Image r)) eqn:E.
  - by rewrite String.eqb_refl.
  - apply nonEmpty_false in E. rewrite E, (String.eqb_refl ""). by rewrite orb_true_r.
Qed.

Lemma SaveFnToKptfile_inv (r : EvalFnRunner) (w : option error)
    (store store' : gmap string kptfile.KptFile) (printed : list string) :
  SaveFnToKptfile H r w store = Ok (store', printed) ->
  (store !! Dest r = None /\ store' = store /\ printed = [noKptfileMsg]) \/
  (exists kf msg, store !! Dest r = Some kf /\
     alreadyThere r (mutators kf) = Some msg /\
     store' = store /\ printed = [msg]) \/
  (exists kf f e, store !! Dest r = Some kf /\
     alreadyThere r (mutators kf) = None /\ NewFunction H r = Ok f /\
     w = Some e /\ store' = store /\
     printed = ["function is not added to Kptfile: " +:+ e +:+ nl]) \/
  (exists kf f, store !! Dest r = Some kf /\
     alreadyThere r (mutators kf) = None /\ NewFunction H r = Ok f /\
     w = None /\ store' = <[Dest r := withMutator kf f]> store /\
     printed = [addedMsg]).
Proof.
  unfold SaveFnToKptfile, mutators, withMutator.
  destruct (store !! Dest r) as [kf|]; [|intros [= <- <-]; by left].
  destruct (alreadyThere r _) as [msg|] eqn:Ea.
  { intros [= <- <-]. right; left. by exists kf, msg. }
  destruct (NewFunction H r) as [f| |]; simpl; [|done|done].
  destruct w as [e|]; intros [= <- <-].
  - right; right; left. by exists kf, f, e.
  - right; right; right. by exists kf, f.
Qed.

Lemma NewFunction_no_Err (r : EvalFnRunner) (e : error) :
  NewFunction H r <> Err e.
Proof.
  unfold NewFunction.
  destruct (if nonEmpty (Image r) then _ else _) as [[image exec] name].
  destruct (nonEmpty (FnConfigPath r)); [done|].
  destruct (dataMapLoop 0 (dataItems r) ∅) as [m|e'|] eqn:Em; simpl; [done| |done].
  by apply dataMapLoop_no_Err in Em.
Qed.

Lemma SaveFnToKptfile_other_paths (r : EvalFnRunner) (w : option error)
    (store store' : gmap string kptfile.KptFile) (printed : list string)
    (p : string) :
  SaveFnToKptfile H r w store = Ok (store', printed) ->
  p <> Dest r -> store' !! p = store !! p.
Proof.
  intros Hsave Hp.
  apply SaveFnToKptfile_inv in Hsave
    as [(_ & -> & _) | [(kf & msg & _ & _ & -> & _) |
        [(kf & f & e & _ & _ & _ & _ & -> & _) |
         (kf & f & _ & _ & _ & _ & -> & _)]]]; try done.
  by rewrite lookup_insert_ne.
Qed.

(** X6. [getCLIFunctionConfig] gives no function config exactly when
    neither an image nor an executable is given.  A function config it
    gives has [metadata.name: function-input], [data], [kind] and
    [apiVersion: v1] in this order; its kind is the first argument when
    that has no [=], else [ConfigMap]; and every entry of its [data] is a
    scalar that was given as [key=value] among the arguments. *)
Theorem getCLIFunctionConfig_shape (r : EvalFnRunner) (items : list string) :
  (getCLIFunctionConfig r items = Ok None <-> Image r = "" /\ Exec r = "") /\
  (forall rc, getCLIFunctionConfig r items = Ok (Some rc) ->
     exists data, rc = functionConfig (kindOf items) data /\
                  fromItems items data).
Proof.
  split.
  - unfold getCLIFunctionConfig.
    destruct (String.eqb (Image r) "") eqn:Ei; simpl.
    + apply String.eqb_eq in Ei.
      destruct (String.eqb (Exec r) "") eqn:Ee.
      * apply String.eqb_eq in Ee. done.
      * apply String.eqb_neq in Ee. split; [|by intros [_ ?]].
        intros Hcfg. exfalso.
        apply bind_Ok in Hcfg as ([k rc] & _ & Hcfg).
        apply bind_Ok in Hcfg as (rc1 & _ & Hcfg).
        apply bind_Ok in Hcfg as (rc2 & _ & Hcfg). done.
    + apply String.eqb_neq in Ei. split; [|by intros [? _]].
      intros Hcfg. exfalso.
      apply bind_Ok in Hcfg as ([k rc] & _ & Hcfg).
      apply bind_Ok in Hcfg as (rc1 & _ & Hcfg).
      apply bind_Ok in Hcfg as (rc2 & _ & Hcfg). done.
  - intros rc Hcfg.
    assert (Image r <> "" \/ Exec r <> "") as Hr.
    { unfold getCLIFunctionConfig in Hcfg.
      destruct (String.eqb (Image r) "") eqn:Ei;
        [|left; by apply String.eqb_neq].
      destruct (String.eqb (Exec r) "") eqn:Ee;
        [done | right; by apply String.eqb_neq]. }
    destruct items as [|s items].
    { unfold getCLIFunctionConfig in Hcfg. rewrite image_or_exec in Hcfg by done.
      injection Hcfg as <-. exists []. split; [done|]. by intros k n. }
    pose proof (getCLIFunctionConfig_Ok_inv r (s :: items) _ Hr Hcfg) as [[k d] Hx].
    pose proof (dataLoop_inv (s :: items) _ _ _ _ _ _ Hx) as (d' & -> & Hd & ->);
      [done | by intros k' n' |].
    rewrite (getCLIFunctionConfig_items r s items _ d' Hr Hx) in Hcfg.
    injection Hcfg as <-. by exists d'.
Qed.

(** X7. [NewFunction] never returns an error, and it panics exactly when
    no config file is given and some argument after the first has no [=]:
    there [kv[1]] is read from a slice of one element. *)
Theorem NewFunction_Panic_iff (r : EvalFnRunner) :
  (forall e, NewFunction H r <> Err e) /\
  (NewFunction H r = Panic <->
   FnConfigPath r = "" /\
   exists j s, dataItems r !! S j = Some s /\ mentions eqSign s = false).
Proof.
  unfold NewFunction.
  destruct (if nonEmpty (Image r) then _ else _) as [[image exec] name].
  destruct (nonEmpty (FnConfigPath r)) eqn:Ep.
  - apply nonEmpty_true in Ep. split; [done|]. split; [done|]. by intros [? _].
  - apply nonEmpty_false in Ep.
    destruct (dataMapLoop 0 (dataItems r) ∅) as [m|e|] eqn:Em; simpl.
    + split; [done|]. split; [done|]. intros (_ & j & s & Hs & Hm).
      assert (dataMapLoop 0 (dataItems r) ∅ = Panic) as Hp; [|congruence].
      apply dataMapLoop_Panic. exists (S j), s. split; [done|]. split; [done|lia].
    + by apply dataMapLoop_no_Err in Em.
    + split; [done|]. split; [|done]. intros _. split; [done|].
      apply dataMapLoop_Panic in Em as ([|j] & s & Hs & Hm & Hlt); [lia|].
      by exists j, s.
Qed.

(** X8. [SaveFnToKptfile] reports that the function is added exactly when
    the Kptfile was read, none of its mutators is taken for the function,
    and the Kptfile was written; the Kptfile then has the function of
    [NewFunction] appended after its mutators. *)
Theorem SaveFnToKptfile_added_iff (r : EvalFnRunner) (w : option error)
    (store store' : gmap string kptfile.KptFile) :
  SaveFnToKptfile H r w store = Ok (store', [addedMsg]) <->
  w = None /\
  exists kf f,
    store !! Dest r = Some kf /\ noneTaken r (mutators kf) /\
    NewFunction H r = Ok f /\
    store' = <[Dest r := withMutator kf f]> store.
Proof.
  split.
  - intros Hsave.
    apply SaveFnToKptfile_inv in Hsave
      as [(_ & _ & Hp) | [(kf & msg & _ & Ha & _ & Hp) |
          [(kf & f & e & _ & _ & _ & _ & _ & Hp) |
           (kf & f & Hkf & Ha & Hf & -> & -> & _)]]].
    + discriminate.
    + apply alreadyThere_msg, skip_not_added in Ha. congruence.
    + symmetry in Hp. by apply notAdded_not_added in Hp.
    + split; [done|]. exists kf, f. by rewrite <- alreadyThere_None.
  - intros (-> & kf & f & Hkf & Hnone & Hf & ->).
    apply alreadyThere_None in Hnone. unfold mutators in Hnone.
    unfold SaveFnToKptfile. by rewrite Hkf, Hnone, Hf.
Qed.

(** X9. [SaveFnToKptfile] never fails: it prints one message.  It leaves
    the Kptfiles of all other packages as they are, leaves every Kptfile
    as it is unless it reports that the function is added, and in the
    Kptfile it writes the validators are unchanged and the mutators there
    were come first, in their order. *)
Theorem SaveFnToKptfile_frame (r : EvalFnRunner) (w : option error)
    (store : gmap string kptfile.KptFile) :
  (forall e, SaveFnToKptfile H r w store <> Err e) /\
  (forall store' printed,
     SaveFnToKptfile H r w store = Ok (store', printed) ->
     (exists msg, printed = [msg]) /\
     (forall p, p <> Dest r -> store' !! p = store !! p) /\
     (printed <> [addedMsg] -> store' = store) /\
     (forall kf', store' !! Dest r = Some kf' ->
        exists kf, store !! Dest r = Some kf /\
                   validators kf' = validators kf /\
                   mutators kf `prefix_of` mutators kf')).
Proof.
  split.
  - intros e. unfold SaveFnToKptfile.
    destruct (store !! Dest r) as [kf|]; [|done].
    destruct (alreadyThere r _); [done|].
    destruct (NewFunction H r) as [f|e'|] eqn:Ef; simpl;
      [|by apply NewFunction_no_Err in Ef|done].
    by destruct w.
  - intros store' printed Hsave.
    apply SaveFnToKptfile_inv in Hsave
      as [(Hkf & -> & ->) | [(kf & msg & Hkf & Ha & -> & ->) |
          [(kf & f & e & Hkf & _ & _ & _ & -> & ->) |
           (kf & f & Hkf & Ha & Hf & -> & -> & ->)]]].
    + split; [eauto|]. split; [done|]. split; [done|]. intros kf'. congruence.
    + split; [eauto|]. split; [done|]. split; [done|]. intros kf' Hkf'.
      exists kf'. by rewrite Hkf' in Hkf |- *.
    + split; [eauto|]. split; [done|]. split; [done|]. intros kf' Hkf'.
      exists kf'. by rewrite Hkf' in Hkf |- *.
    + split; [eauto|]. split; [|split; [done|]].
      * intros p Hp. by rewrite lookup_insert_ne.
      * intros kf'. rewrite lookup_insert_eq. intros [= <-].
        exists kf. split; [done|]. split; [done|].
        unfold mutators, withMutator. simpl. by apply prefix_app_r.
Qed.

(** X10. Saving is idempotent: once the function is added, saving it again
    with the same runner leaves the Kptfile as it is, whether or not the
    Kptfile could be written -- and reports an image that already exists,
    also when the function is an executable. *)
Theorem SaveFnToKptfile_again (r : EvalFnRunner) (w w' : option error)
    (store store' : gmap string kptfile.KptFile) :
  SaveFnToKptfile H r w store = Ok (store', [addedMsg]) ->
  SaveFnToKptfile H r w' store' = Ok (store', [skipImageMsg]).
Proof.
  intros Hsave.
  apply SaveFnToKptfile_inv in Hsave
    as [(_ & _ & Hp) | [(kf & msg & _ & Ha & _ & Hp) |
        [(kf & f & e & _ & _ & _ & _ & _ & Hp) |
         (kf & f & Hkf & Ha & Hf & -> & -> & _)]]].
  - discriminate.
  - apply alreadyThere_msg, skip_not_added in Ha. congruence.
  - symmetry in Hp. by apply notAdded_not_added in Hp.
  - unfold SaveFnToKptfile. rewrite lookup_insert_eq.
    unfold withMutator. simpl. fold (mutators kf).
    by rewrite alreadyThere_app, Ha, (alreadyThere_NewFunction r f Hf).
Qed.

(** X11. A mutator of the Kptfile that leaves unset a field that the
    runner leaves unset too -- no name or no executable, when only an
    image is given; no name or no image, when only an executable is
    given -- is taken for the function: nothing is added, the Kptfile is
    left as it is and the function is reported as already there. *)
Theorem SaveFnToKptfile_unset_field (r : EvalFnRunner) (w : option error)
    (store : gmap string kptfile.KptFile) (kf : kptfile.KptFile)
    (m : kptfile.Function) :
  store !! Dest r = Some kf -> m ∈ mutators kf -> unsetMatch r m ->
  exists msg, SaveFnToKptfile H r w store = Ok (store, [msg]) /\
              (msg = skipImageMsg \/ msg = skipExecMsg).
Proof.
  intros Hkf Hin Hm. unfold SaveFnToKptfile. rewrite Hkf. fold (mutators kf).
  pose proof (alreadyThere_unset r _ m Hin Hm) as Hne.
  destruct (alreadyThere r (mutators kf)) as [msg|] eqn:Ea; [|done].
  exists msg. split; [done|]. by apply alreadyThere_msg in Ea.
Qed.

(** X12. [runE] returns an error exactly when the run of the function or
    the writing of its output fails.  Then, and when [--save] is not
    given, no Kptfile is changed and nothing is printed; and in no case
    is the Kptfile of another package changed.  What goes wrong while
    saving is never an error of the command. *)
Theorem runE_outcome (R : RunHost) (w : option error) (r : EvalFnRunner)
    (store store' : gmap string kptfile.KptFile) (e : option error)
    (printed : list string) :
  runE H R w r store = Ok (e, store', printed) ->
  (e = None <->
   (Execute R (RunFns r)).1 = None /\
   WriteFnOutput R (Dest r) (Execute R (RunFns r)).2 (FromStdin r) = None) /\
  (e <> None \/ SaveFn r = false -> store' = store /\ printed = []) /\
  (forall p, p <> Dest r -> store' !! p = store !! p).
Proof.
  unfold runE. destruct (Execute R (RunFns r)) as [[e1|] out]; simpl.
  { intros [= <- <- <-]. split; [by split; [|intros [? _]]|]. done. }
  destruct (WriteFnOutput R (Dest r) out (FromStdin r)) as [e2|].
  { intros [= <- <- <-]. split; [by split; [|intros [_ ?]]|]. done. }
  destruct (SaveFn r).
  - intros Hrun. apply bind_Ok in Hrun as ([s p] & Hsave & [= <- <- <-]).
    split; [done|]. split; [by intros [?|?]|].
    intros q Hq. by apply (SaveFnToKptfile_other_paths r w store s p q).
  - intros [= <- <- <-]. done.
Qed.

(** X13. After a successful preflight [runE] returns: the function built
    for [--save] from the arguments that preflight accepted never reads
    beyond a [key=value] pair. *)
Theorem runE_after_preRunE (R : RunHost) (w : option error) (r : EvalFnRunner)
    (c : Command) (args : list string) (r' : EvalFnRunner)
    (store : gmap string kptfile.KptFile) :
  preRunE H r c args = Ok r' ->
  exists e store' printed, runE H R w r' store = Ok (e, store', printed).
Proof.
  intros Hrun.
  apply preRunE_inv in Hrun
    as (items & pos & arg0 & cfg & spec & eargs & run & Hr & _ & _ & _ & Hcfg & _ &
        _ & _ & _ & _ & _ & _ & _ & Hitems & Hpath & _).
  apply getCLIFunctionConfig_Ok_inv in Hcfg as [x Hx];
    [|by apply prefixed_image_or_exec].
  apply (dataLoop_Ok_dataMapLoop _ _ _ _ _ ∅) in Hx as [m Hm].
  assert (exists f, NewFunction H r' = Ok f) as [f Hf].
  { unfold NewFunction.
    destruct (if nonEmpty (Image r') then _ else _) as [[image exec] name].
    destruct (nonEmpty (FnConfigPath r')); [by eauto|].
    rewrite Hitems, Hm. simpl. eauto. }
  unfold runE. destruct (Execute R (RunFns r')) as [[e1|] out]; [by eauto|].
  destruct (WriteFnOutput R (Dest r') out (FromStdin r')); [by eauto|].
  destruct (SaveFn r'); [|by eauto].
  unfold SaveFnToKptfile. destruct (store !! Dest r') as [kf|]; [|by eauto].
  destruct (alreadyThere r' _); [by eauto|].
  rewrite Hf. simpl. destruct w; simpl; eauto.
Qed.

End MoreSave.

Lemma SaveFnToKptfile_again_witness :
  SaveFnToKptfile sampleHost saveExec None
    (<["" := withMutator {| kptfile.pipeline := None |}
               {| kptfile.Image := ""; kptfile.Exec := "./my-fn";
                  kptfile.ConfigPath := ""; kptfile.ConfigMap := ∅;
                  kptfile.Name := "./my-fn"; kptfile.Selectors := [] |}]>
       emptyPkgStore)
  = Ok (<["" := withMutator {| kptfile.pipeline := None |}
               {| kptfile.Image := ""; kptfile.Exec := "./my-fn";
                  kptfile.ConfigPath := ""; kptfile.ConfigMap := ∅;
                  kptfile.Name := "./my-fn"; kptfile.Selectors := [] |}]>
          emptyPkgStore,
        [skipImageMsg]).
Proof.
  apply (SaveFnToKptfile_again sampleHost saveExec None None emptyPkgStore).
  vm_compute. reflexivity.
Defined.

Lemma SaveFnToKptfile_unset_field_witness :
  exists msg,
    SaveFnToKptfile sampleHost saveSetLabels None subPkgStore
    = Ok (subPkgStore, [msg]) /\
    (msg = skipImageMsg \/ msg = skipExecMsg).
Proof.
  apply (SaveFnToKptfile_unset_field sampleHost saveSetLabels None subPkgStore
           subPkgKptfile setNamespaceFn).
  - reflexivity.
  - unfold mutators. simpl. apply list_elem_of_singleton. reflexivity.
  - right. split; [reflexivity | left; reflexivity].
Defined.

Lemma runE_outcome_witness :
  (@None error = None <->
   (Execute sampleRunHost (RunFns saveExec)).1 = None /\
   WriteFnOutput sampleRunHost (Dest saveExec)
     (Execute sampleRunHost (RunFns saveExec)).2 (FromStdin saveExec) = None) /\
  (@None error <> None \/ SaveFn saveExec = false ->
   <["" := withMutator {| kptfile.pipeline := None |}
             {| kptfile.Image := ""; kptfile.Exec := "./my-fn";
                kptfile.ConfigPath := ""; kptfile.ConfigMap := ∅;
                kptfile.Name := "./my-fn"; kptfile.Selectors := [] |}]>
     emptyPkgStore = emptyPkgStore /\ [addedMsg] = []) /\
  (forall p, p <> Dest saveExec ->
     (<["" := withMutator {| kptfile.pipeline := None |}
               {| kptfile.Image := ""; kptfile.Exec := "./my-fn";
                  kptfile.ConfigPath := ""; kptfile.ConfigMap := ∅;
                  kptfile.Name := "./my-fn"; kptfile.Selectors := [] |}]>
        emptyPkgStore) !! p = emptyPkgStore !! p).
Proof.
  apply (runE_outcome sampleHost sampleRunHost None saveExec emptyPkgStore).
  vm_compute. reflexivity.
Defined.

Lemma runE_after_preRunE_witness :
  exists e store' printed,
    runE sampleHost failingRunHost None
      (preflighted sampleHost setNamespace noDash ["pkg"]) subPkgStore
    = Ok (e, store', printed).
Proof.
  apply (runE_after_preRunE sampleHost failingRunHost None setNamespace noDash
           ["pkg"]).
  vm_compute. reflexivity.
Defined.

(** ** The arguments of the command line *)

Lemma cut_key (sep : Ascii.ascii) (s a b : string) :
  cut sep s = Some (a, b) -> mentions sep a = false.
Proof.
  revert a. induction s as [|x s IH]; intros a; simpl; [done|].
  destruct (Ascii.eqb x sep) eqn:E; [by intros [= <- <-]|].
  destruct (cut sep s) as [[a' b']|]; [|done]. intros [= <- <-].
  simpl. rewrite E. by apply IH.
Qed.

Lemma commandLine_splitAtDash (c : Command) (args pos items : list string) :
  commandLine c args pos items -> splitAtDash c args = Ok (items, pos).
Proof.
  unfold splitAtDash. intros [[Hn ->] | (Hn & -> & ->)].
  - rewrite Hn, length_app.
    assert ((0 <=? Z.of_nat (length pos))%Z = true) as -> by (apply Z.leb_le; lia).
    assert ((Z.of_nat (length pos) <=? Z.of_nat (length pos + length items))%Z = true)
      as -> by (apply Z.leb_le; lia).
    by rewrite Nat2Z.id, drop_app_length, take_app_length.
  - by apply Z.leb_gt in Hn as ->.
Qed.

Lemma dataMapLoop_keyValues (i : nat) (pairs : list (string * string))
    (m : gmap string string) :
  Forall plainKey pairs ->
  dataMapLoop i (keyValue <$> pairs) m
  = Ok (foldl (fun m kv => <[kv.1 := kv.2]> m) m pairs).
Proof.
  intros Hall. revert i m.
  induction Hall as [|kv pairs Hm _ IH]; intros i m; simpl; [done|].
  rewrite SplitN2_keyValue by done. apply IH.
Qed.

Lemma dataMapLoop_items (kindArg : list string) (pairs : list (string * string)) :
  bareKind kindArg -> Forall plainKey pairs ->
  dataMapLoop 0 (kindArg ++ (keyValue <$> pairs)) ∅ = Ok (dataMap pairs).
Proof.
  intros [-> | (kind & -> & Hk)] Hall; simpl.
  - by apply dataMapLoop_keyValues.
  - rewrite SplitN2_bare by done. by apply dataMapLoop_keyValues.
Qed.

(** The arguments that the loop of [getCLIFunctionConfig] accepts are
    [key=value] pairs, after a kind when the loop starts at the first. *)
Lemma dataLoop_parse (i : nat) (items : list string) (kind : string)
    (d : list (string * RNode)) (x : string * RNode) :
  dataLoop i items kind (MappingNode d) = Ok x ->
  exists kindArg pairs,
    items = kindArg ++ (keyValue <$> pairs) /\
    (kindArg = [] \/
     (i = 0%nat /\ exists k, kindArg = [k] /\ mentions eqSign k = false)) /\
    Forall goodKey pairs.
Proof.
  revert i kind d. induction items as [|s items IH]; intros i kind d; simpl.
  { intros _. exists [], []. split; [done|]. split; [by left | done]. }
  unfold SplitN2. destruct (cut eqSign s) as [[a b]|] eqn:E; simpl.
  - rewrite andb_false_r. simpl.
    destruct (String.eqb a "") eqn:Ea; [done|]. simpl. intros Hloop.
    apply IH in Hloop as (kindArg & pairs & -> & [-> | (? & _)] & Hall); [|done].
    exists [], ((a, b) :: pairs). split; [|split; [by left|]].
    + simpl. f_equal. by apply cut_Some in E.
    + constructor; [|done]. split; [by apply String.eqb_neq | by apply cut_key in E].
  - destruct (Nat.eqb i 0) eqn:Ei; simpl; [|done]. intros Hloop.
    apply Nat.eqb_eq in Ei as ->.
    apply IH in Hloop as (kindArg & pairs & -> & [-> | (? & _)] & Hall); [|done].
    exists [s], pairs. split; [done|]. split; [|done].
    right. split; [done|]. exists s. split; [done|]. by apply cut_None.
Qed.

Section Arguments.

Context (H : Host).

(** With valid flags the arguments are looked at: more than one before
    [--] is the usage error, and otherwise arguments after [--] together
    with a config file are refused. *)
Lemma preRunE_arguments_error (r : EvalFnRunner) (c : Command)
    (args items pos : list string) :
  flagChecks H r -> splitAtDash c args = Ok (items, pos) ->
  (1 < length pos -> preRunE H r c args = Err usageError) /\
  (length pos <= 1 -> items <> [] -> FnConfigPath r <> "" ->
   preRunE H r c args = Err fnConfigArgsError).
Proof.
  intros (Hdest & Hnot & Hdocker & Hpol & Hres) Hsplit.
  assert (forall k, preRunE H r c args
            = (_ ← (if Nat.ltb 1 (length (withDefaultDir pos))
                    then Err usageError else Ok tt);
               _ ← (if Nat.ltb 0 (length items) && nonEmpty (FnConfigPath r)
                    then Err fnConfigArgsError else Ok tt);
               k) ->
          (1 < length pos -> preRunE H r c args = Err usageError) /\
          (length pos <= 1 -> items <> [] -> FnConfigPath r <> "" ->
           preRunE H r c args = Err fnConfigArgsError)) as Hshape.
  { intros k ->. split.
    - intros Hlen. destruct pos as [|a [|b pos]]; simpl in Hlen; [lia | lia | done].
    - intros Hlen Hitems Hpath.
      assert (Nat.ltb 1 (length (withDefaultDir pos)) = false) as ->.
      { destruct pos as [|a [|b pos]]; simpl in *; [done | done | lia]. }
      apply nonEmpty_true in Hpath. rewrite Hpath.
      by destruct items. }
  eapply Hshape. unfold preRunE. fold (destChecked r).
  rewrite (proj2 (guard_Ok _ _ tt) Hdest). cbn [mbind result_bind].
  rewrite image_or_exec by done. cbn [mbind result_bind].
  assert ((if nonEmpty (Image r)
           then check (DockerCmdAvailable H) ≫= λ _ : (),
                  Ok (set_Image (AddDefaultImagePathPrefix H (Image r)) r)
           else Ok r) = Ok (prefixed H r)) as ->.
  { unfold prefixed. destruct (nonEmpty (Image r)) eqn:Ei; [|done].
    apply nonEmpty_true in Ei. by rewrite (Hdocker Ei). }
  cbn [mbind result_bind].
  assert (ImagePullPolicy (prefixed H r) = ImagePullPolicy r
          /\ ResultsDir (prefixed H r) = ResultsDir r
          /\ FnConfigPath (prefixed H r) = FnConfigPath r)
    as (-> & -> & ->) by (by rewrite prefixed_eq).
  rewrite Hpol. cbn [check mbind result_bind].
  assert ((if nonEmpty (ResultsDir r)
           then match MkdirAll H (ResultsDir r) with
                | Some e => Err ("cannot read or create results dir "
                                 +:+ quote H (ResultsDir r) +:+ ": " +:+ e)
                | None => Ok ()
                end
           else Ok ()) = Ok ()) as ->.
  { destruct (nonEmpty (ResultsDir r)) eqn:E; [|done].
    apply nonEmpty_true in E. by rewrite (Hres E). }
  cbn [mbind result_bind]. rewrite Hsplit. cbn [mbind result_bind].
  fold (withDefaultDir pos). reflexivity.
Qed.

(** C6. On the command line [pos -- items]: arguments after [--] together
    with [--fn-config] make preflight fail, and with valid flags and at
    most one positional argument the error is the one that says so.  A
    function built by [NewFunction] never has both a [ConfigPath] and a
    [ConfigMap].  After a successful preflight [NewFunction] does build
    one.  With [--fn-config] there are no arguments after [--] and the
    function has the config path and no map.  Without it the function has
    no config path; the arguments after [--] are [key=value] pairs,
    after a kind or not, and its [ConfigMap] is the map of exactly these
    pairs, so it is empty without arguments. *)
Theorem config_path_or_map (r : EvalFnRunner) (c : Command)
    (args pos items : list string) :
  commandLine c args pos items ->
  (items <> [] -> FnConfigPath r <> "" ->
   (exists e, preRunE H r c args = Err e) /\
   (flagChecks H r -> length pos <= 1 ->
    preRunE H r c args = Err fnConfigArgsError)) /\
  (forall f, NewFunction H r = Ok f ->
     kptfile.ConfigPath f = "" \/ kptfile.ConfigMap f = ∅) /\
  (forall r', preRunE H r c args = Ok r' ->
     exists f, NewFunction H r' = Ok f /\
       (kptfile.ConfigPath f = "" \/ kptfile.ConfigMap f = ∅) /\
       (FnConfigPath r <> "" ->
        items = [] /\ kptfile.ConfigMap f = ∅ /\
        kptfile.ConfigPath f = ResolveRelPath H (FnConfigPath r)) /\
       (FnConfigPath r = "" ->
        kptfile.ConfigPath f = "" /\
        (items = [] -> kptfile.ConfigMap f = ∅) /\
        (exists kindArg pairs,
           items = kindArg ++ (keyValue <$> pairs) /\ bareKind kindArg /\
           Forall goodKey pairs /\ kptfile.ConfigMap f = dataMap pairs) /\
        (forall kindArg pairs,
           items = kindArg ++ (keyValue <$> pairs) -> bareKind kindArg ->
           Forall plainKey pairs -> kptfile.ConfigMap f = dataMap pairs))).
Proof.
  intros Hline. apply commandLine_splitAtDash in Hline as Hs.
  split; [|split].
  - intros Hi Hf. split.
    + apply (preRunE_fails H); [by rewrite Hs|]. intros r' Hrun.
      apply (preRunE_inv H) in Hrun
        as (items' & pos' & arg0 & cfg & spec & eargs & run & _ & Hs' & _ & Hor & _).
      rewrite Hs in Hs'. injection Hs' as <- <-. by destruct Hor.
    + intros Hflags Hlen.
      by apply (preRunE_arguments_error r c args items pos Hflags Hs).
  - intros f Hf. by apply (NewFunction_not_both H) in Hf as (? & _).
  - intros r' Hrun.
    apply (preRunE_inv H) in Hrun
      as (items' & pos' & arg0 & cfg & spec & eargs & run & Hr & Hs' & _ & Hor & Hcfg &
          _ & _ & _ & _ & _ & _ & _ & _ & Hitems & Hpath & _).
    rewrite Hs in Hs'. injection Hs' as <- <-.
    apply getCLIFunctionConfig_Ok_inv in Hcfg as [x Hx];
      [|by apply prefixed_image_or_exec].
    apply dataLoop_parse in Hx as (kindArg & pairs & Hparse & Hkind & Hgood).
    assert (bareKind kindArg) as Hbare.
    { destruct Hkind as [-> | (_ & k & -> & Hk)]; [by left | right; eauto]. }
    assert (Forall plainKey pairs) as Hplain.
    { eapply Forall_impl; [exact Hgood|]. by intros kv [_ ?]. }
    destruct (nonEmpty (FnConfigPath r)) eqn:Ep.
    + apply nonEmpty_true in Ep.
      assert (items = []) as Hnone by (by destruct Hor).
      exists {| kptfile.Image := if nonEmpty (Image r') then Image r' else "";
                kptfile.Exec := if nonEmpty (Image r') then "" else Exec r';
                kptfile.ConfigPath := ResolveRelPath H (FnConfigPath r);
                kptfile.ConfigMap := ∅;
                kptfile.Name := if nonEmpty (Image r') then Image r' else Exec r';
                kptfile.Selectors :=
                  if negb (kptfile.Selector.IsEmpty (Selector r'))
                  then [Selector r'] else [] |}.
      split; [|split; [by right|split; [done|done]]].
      unfold NewFunction. rewrite Hpath. apply nonEmpty_true in Ep. rewrite Ep.
      by destruct (nonEmpty (Image r')).
    + apply nonEmpty_false in Ep.
      exists {| kptfile.Image := if nonEmpty (Image r') then Image r' else "";
                kptfile.Exec := if nonEmpty (Image r') then "" else Exec r';
                kptfile.ConfigPath := "";
                kptfile.ConfigMap := dataMap pairs;
                kptfile.Name := if nonEmpty (Image r') then Image r' else Exec r';
                kptfile.Selectors :=
                  if negb (kptfile.Selector.IsEmpty (Selector r'))
                  then [Selector r'] else [] |}.
      split; [|split; [by left|split; [done|]]].
      { unfold NewFunction. rewrite Hpath, Hitems, Hparse.
        apply nonEmpty_false in Ep. rewrite Ep.
        rewrite dataMapLoop_items by done. by destruct (nonEmpty (Image r')). }
      intros _. simpl. split; [done|]. split; [|split].
      * intros ->. symmetry in Hparse. apply app_eq_nil in Hparse as [_ Hp].
        apply fmap_nil_inv in Hp as ->. done.
      * exists kindArg, pairs. done.
      * intros kindArg' pairs' Hparse' Hbare' Hplain'.
        pose proof (dataMapLoop_items kindArg pairs Hbare Hplain) as H1.
        pose proof (dataMapLoop_items kindArg' pairs' Hbare' Hplain') as H2.
        rewrite <- Hparse in H1. rewrite <- Hparse' in H2. congruence.
Qed.

(** C8. On the command line [pos -- items], where [pos] are the
    arguments before [--]: without any, the package path is the resolution
    of [.] and nothing is read from standard input; with the single
    argument [-], the input is standard input, the runner is marked
    [FromStdin] and there is no package path; with more than one argument
    preflight fails -- with the usage error, when the flags are valid --
    so a successful preflight has had at most one. *)
Theorem preRunE_positional (r : EvalFnRunner) (c : Command)
    (args pos items : list string) :
  commandLine c args pos items ->
  (pos = [] -> forall r', preRunE H r c args = Ok r' ->
     exists run, RunFns r' = Some run /\
       ResolveSymlink H "." = inr (runfn.Path run) /\
       runfn.Input run = None /\ FromStdin r' = FromStdin r) /\
  (pos = ["-"] -> forall r', preRunE H r c args = Ok r' ->
     exists run, RunFns r' = Some run /\
       FromStdin r' = true /\ runfn.Input run = Some InOrStdin /\ runfn.Path run = "") /\
  (1 < length pos ->
   (exists e, preRunE H r c args = Err e) /\
   (flagChecks H r -> preRunE H r c args = Err usageError) /\
   (forall e, preRunE H r c args = Err e -> e <> usageError -> ~ flagChecks H r)) /\
  (forall r', preRunE H r c args = Ok r' -> length pos <= 1).
Proof.
  intros Hline. apply commandLine_splitAtDash in Hline as Hs.
  assert (forall r', preRunE H r c args = Ok r' ->
            exists arg0 run, withDefaultDir pos = [arg0] /\ RunFns r' = Some run /\
              (arg0 = "-" ->
                 FromStdin r' = true /\ runfn.Input run = Some InOrStdin /\
                 runfn.Output run = Some OutContent /\ runfn.Path run = "") /\
              (arg0 <> "-" ->
                 FromStdin r' = FromStdin r /\ runfn.Input run = None /\
                 runfn.Output run = (if nonEmpty (Dest r) then Some OutContent else None) /\
                 (if nonEmpty arg0 then ResolveSymlink H arg0 = inr (runfn.Path run)
                  else runfn.Path run = ""))) as Hinv.
  { intros r' Hrun.
    apply (preRunE_inv H) in Hrun
      as (items' & pos' & arg0 & cfg & spec & eargs & run & _ & Hs' & Hpos & _ & _ &
          _ & Hruns & _ & _ & _ & _ & _ & _ & _ & _ & _ & Hdash & Hpath).
    rewrite Hs in Hs'. injection Hs' as <- <-. eauto 10. }
  assert (forall r', preRunE H r c args = Ok r' -> length pos <= 1) as Hlen.
  { intros r' Hrun. apply Hinv in Hrun as (arg0 & run & Hpos & _).
    unfold withDefaultDir in Hpos. destruct pos as [|a [|b pos]]; simpl in *; [lia..|].
    discriminate. }
  split; [|split; [|split]].
  - intros -> r' Hrun. apply Hinv in Hrun as (arg0 & run & Hpos & Hruns & _ & Hp).
    injection Hpos as <-. exists run. split; [done|].
    destruct Hp as (? & ? & _ & ?); [done|]. done.
  - intros -> r' Hrun. apply Hinv in Hrun as (arg0 & run & Hpos & Hruns & Hd & _).
    injection Hpos as <-. exists run. split; [done|].
    destruct Hd as (? & ? & _ & ?); done.
  - intros Hl. split; [|split].
    + apply (preRunE_fails H); [by rewrite Hs|].
      intros r' Hrun. apply Hlen in Hrun. lia.
    + intros Hflags. by apply (preRunE_arguments_error r c args items pos Hflags Hs).
    + intros e He Hne Hflags.
      pose proof (proj1 (preRunE_arguments_error r c args items pos Hflags Hs) Hl).
      congruence.
  - done.
Qed.

End Arguments.

Lemma flagChecks_setNamespace (fnConfig : string) :
  flagChecks sampleHost (runner "set-namespace:v0.1" "" fnConfig).
Proof.
  split; [done|]. split; [left; discriminate|]. split; [done|].
  split; [reflexivity | done].
Qed.

Lemma config_path_or_map_witness :
  preRunE sampleHost (runner "set-namespace:v0.1" "" "fn-config.yaml")
    (dashAt 1) ["pkg"; "namespace=staging"] = Err fnConfigArgsError /\
  preRunE sampleHost setNamespace (dashAt 1) ["pkg"; "namespace=staging"; "team=web"]
  = Ok (preflighted sampleHost setNamespace (dashAt 1)
          ["pkg"; "namespace=staging"; "team=web"]) /\
  (exists f,
     NewFunction sampleHost
       (preflighted sampleHost setNamespace (dashAt 1)
          ["pkg"; "namespace=staging"; "team=web"])
     = Ok f /\
     kptfile.ConfigPath f = "" /\
     kptfile.ConfigMap f = dataMap [("namespace", "staging"); ("team", "web")]) /\
  (exists f,
     NewFunction sampleHost (preflighted sampleHost setNamespace noDash ["pkg"])
     = Ok f /\
     kptfile.ConfigPath f = "" /\ kptfile.ConfigMap f = ∅) /\
  (exists f,
     NewFunction sampleHost
       (preflighted sampleHost (runner "set-namespace:v0.1" "" "fn-config.yaml")
          noDash ["pkg"])
     = Ok f /\
     kptfile.ConfigPath f = "fn-config.yaml" /\ kptfile.ConfigMap f = ∅).
Proof.
  assert (preRunE sampleHost setNamespace (dashAt 1)
            ["pkg"; "namespace=staging"; "team=web"]
          = Ok (preflighted sampleHost setNamespace (dashAt 1)
                  ["pkg"; "namespace=staging"; "team=web"])) as Hargs
    by (vm_compute; reflexivity).
  assert (preRunE sampleHost setNamespace noDash ["pkg"]
          = Ok (preflighted sampleHost setNamespace noDash ["pkg"])) as Hnone
    by (vm_compute; reflexivity).
  assert (preRunE sampleHost (runner "set-namespace:v0.1" "" "fn-config.yaml")
            noDash ["pkg"]
          = Ok (preflighted sampleHost
                  (runner "set-namespace:v0.1" "" "fn-config.yaml") noDash ["pkg"]))
    as Hfile by (vm_compute; reflexivity).
  split; [|split; [exact Hargs|split; [|split]]].
  - destruct (config_path_or_map sampleHost
                (runner "set-namespace:v0.1" "" "fn-config.yaml") (dashAt 1)
                ["pkg"; "namespace=staging"] ["pkg"] ["namespace=staging"])
      as (Hrefused & _).
    { left. split; reflexivity. }
    destruct Hrefused as (_ & Hexact); [discriminate | discriminate |].
    apply Hexact; [apply flagChecks_setNamespace | simpl; lia].
  - destruct (config_path_or_map sampleHost setNamespace (dashAt 1)
                ["pkg"; "namespace=staging"; "team=web"] ["pkg"]
                ["namespace=staging"; "team=web"]) as (_ & _ & Hbuilt).
    { left. split; reflexivity. }
    destruct (Hbuilt _ Hargs) as (f & Hf & _ & _ & Hmap).
    destruct Hmap as (Hpath & _ & _ & Hpairs); [reflexivity|].
    exists f. split; [exact Hf|]. split; [exact Hpath|].
    apply (Hpairs [] [("namespace", "staging"); ("team", "web")]);
      [reflexivity | left; reflexivity | repeat constructor].
  - destruct (config_path_or_map sampleHost setNamespace noDash ["pkg"] ["pkg"] [])
      as (_ & _ & Hbuilt).
    { right. split; [reflexivity|]. split; reflexivity. }
    destruct (Hbuilt _ Hnone) as (f & Hf & _ & _ & Hmap).
    destruct Hmap as (Hpath & Hempty & _); [reflexivity|].
    exists f. split; [exact Hf|]. split; [exact Hpath|]. apply Hempty. reflexivity.
  - destruct (config_path_or_map sampleHost
                (runner "set-namespace:v0.1" "" "fn-config.yaml") noDash
                ["pkg"] ["pkg"] []) as (_ & _ & Hbuilt).
    { right. split; [reflexivity|]. split; reflexivity. }
    destruct (Hbuilt _ Hfile) as (f & Hf & _ & Hwith & _).
    destruct Hwith as (_ & Hmap & Hpath); [discriminate|].
    exists f. split; [exact Hf|]. split; [exact Hpath | exact Hmap].
Defined.

Lemma preRunE_positional_witness :
  preRunE sampleHost setNamespace (dashAt 1) ["-"; "namespace=staging"]
  = Ok (preflighted sampleHost setNamespace (dashAt 1) ["-"; "namespace=staging"]) /\
  (exists run,
     RunFns (preflighted sampleHost setNamespace (dashAt 1)
               ["-"; "namespace=staging"]) = Some run /\
     FromStdin (preflighted sampleHost setNamespace (dashAt 1)
                  ["-"; "namespace=staging"]) = true /\
     runfn.Input run = Some InOrStdin /\ runfn.Path run = "") /\
  preRunE sampleHost setNamespace (dashAt 0) ["namespace=staging"]
  = Ok (preflighted sampleHost setNamespace (dashAt 0) ["namespace=staging"]) /\
  (exists run,
     RunFns (preflighted sampleHost setNamespace (dashAt 0) ["namespace=staging"])
     = Some run /\
     ResolveSymlink sampleHost "." = inr (runfn.Path run) /\
     runfn.Input run = None /\
     FromStdin (preflighted sampleHost setNamespace (dashAt 0)
                  ["namespace=staging"]) = false) /\
  preRunE sampleHost setNamespace (dashAt 2) ["pkg"; "other"; "namespace=staging"]
  = Err usageError /\
  preRunE sampleHost setNamespace noDash ["pkg"; "namespace=staging"]
  = Err usageError.
Proof.
  assert (preRunE sampleHost setNamespace (dashAt 1) ["-"; "namespace=staging"]
          = Ok (preflighted sampleHost setNamespace (dashAt 1)
                  ["-"; "namespace=staging"])) as Hstdin
    by (vm_compute; reflexivity).
  assert (preRunE sampleHost setNamespace (dashAt 0) ["namespace=staging"]
          = Ok (preflighted sampleHost setNamespace (dashAt 0) ["namespace=staging"]))
    as Hdir by (vm_compute; reflexivity).
  split; [exact Hstdin|]. split; [|split; [exact Hdir|split; [|split]]].
  - destruct (preRunE_positional sampleHost setNamespace (dashAt 1)
                ["-"; "namespace=staging"] ["-"] ["namespace=staging"])
      as (_ & Hdash & _).
    { left. split; reflexivity. }
    apply Hdash; [reflexivity | exact Hstdin].
  - destruct (preRunE_positional sampleHost setNamespace (dashAt 0)
                ["namespace=staging"] [] ["namespace=staging"])
      as (Hzero & _).
    { left. split; reflexivity. }
    apply Hzero; [reflexivity | exact Hdir].
  - destruct (preRunE_positional sampleHost setNamespace (dashAt 2)
                ["pkg"; "other"; "namespace=staging"] ["pkg"; "other"]
                ["namespace=staging"]) as (_ & _ & Hmany & _).
    { left. split; reflexivity. }
    destruct Hmany as (_ & Husage & _); [simpl; lia|].
    apply Husage. apply flagChecks_setNamespace.
  - destruct (preRunE_positional sampleHost setNamespace noDash
                ["pkg"; "namespace=staging"] ["pkg"; "namespace=staging"] [])
      as (_ & _ & Hmany & _).
    { right. split; [reflexivity|]. split; reflexivity. }
    destruct Hmany as (_ & Husage & _); [simpl; lia|].
    apply Husage. apply flagChecks_setNamespace.
Defined.

(** Without valid flags the error is that of the flags: with neither an
    image nor an executable, two positional arguments do not get as far
    as the usage error. *)
Example preRunE_two_arguments_no_function :
  preRunE sampleHost (runner "" "" "") noDash ["pkg"; "other"] = Err imageOrExecError.
Proof. vm_compute. reflexivity. Qed.

End CmdEvalFacts.

(** ** The package differ *)

Module DiffFacts.
Import Diff.

(** C10. Once the packages are prepared, a run of the diff tool that
    exits with code 1 makes [Diff] return no error and print no warning;
    with any other exit code [Diff] returns that exit error and the
    warning is printed. *)
Theorem Diff_exit_code (H : Host) (d : defaultPkgDiffer) (pkgs : list string)
    (code : Z) :
  prepareAll H pkgs = None ->
  Run H (DiffTool d) (diffArgs d pkgs) = Some (ExitError code) ->
  (code = 1%Z -> err (Diff H d pkgs) = None /\ stdout (Diff H d pkgs) = []) /\
  (code <> 1%Z ->
   err (Diff H d pkgs) = Some (ExitError code) /\
   stdout (Diff H d pkgs) = [exitCodeDiffWarning (DiffTool d) (DiffType d)]).
Proof.
  intros Hprep Hrun. unfold Diff. rewrite Hprep, Hrun. split.
  - intros ->. done.
  - intros Hne. apply Z.eqb_neq in Hne. by rewrite Hne.
Qed.

Lemma Diff_exit_code_witness :
  (err (Diff sampleHost (differ "-r -u") ["local"; "remote"]) = None /\
   stdout (Diff sampleHost (differ "-r -u") ["local"; "remote"]) = []) /\
  (err (Diff sampleHost (differ "-broken") ["local"; "remote"]) = Some (ExitError 2) /\
   stdout (Diff sampleHost (differ "-broken") ["local"; "remote"])
   = [exitCodeDiffWarning "diff" "local"]).
Proof.
  split.
  - apply (Diff_exit_code sampleHost (differ "-r -u") ["local"; "remote"] 1);
      reflexivity.
  - apply (Diff_exit_code sampleHost (differ "-broken") ["local"; "remote"] 2);
      [reflexivity | reflexivity | discriminate].
Defined.

(** [strings.Split] keeps the empty words between two separators. *)
Example Split_options : Split space "-r  -u" = ["-r"; ""; "-u"].
Proof. reflexivity. Qed.

(** ** Words, names of staged packages and the arguments of the diff tool *)

Lemma Split_nonempty (sep : Ascii.ascii) (s : string) : Split sep s <> [].
Proof.
  destruct s as [|c s]; simpl; [done|].
  destruct (Ascii.eqb c sep); [done|]. by destruct (Split sep s).
Qed.

Lemma Split_words (sep : Ascii.ascii) (s : string) :
  Forall (fun w => contains sep w = false) (Split sep s).
Proof.
  induction s as [|c s IH]; simpl; [by constructor|].
  destruct (Ascii.eqb c sep) eqn:E; [by constructor|].
  destruct (Split sep s) as [|w ws]; [constructor; [by simpl; rewrite E | done]|].
  inversion IH as [|? ? Hw Hws]; subst. constructor; [|done].
  simpl. by rewrite E.
Qed.

Lemma Join_cons (w : string) (ws : list string) (sep : string) :
  ws <> [] -> Join (w :: ws) sep = w +:+ sep +:+ Join ws sep.
Proof. by destruct ws. Qed.

Lemma Join_Split (sep : Ascii.ascii) (s : string) :
  Join (Split sep s) (String sep "") = s.
Proof.
  induction s as [|c s IH]; simpl; [done|].
  pose proof (Split_nonempty sep s) as Hne.
  destruct (Ascii.eqb c sep) eqn:E.
  - apply Ascii.eqb_eq in E as ->. rewrite Join_cons by done.
    by rewrite IH, append_nil_l, append_cons, append_nil_l.
  - destruct (Split sep s) as [|w ws]; [done|].
    destruct ws as [|w' ws]; [by simpl in *; subst|].
    rewrite Join_cons by done. rewrite Join_cons in IH by done.
    by rewrite append_cons, IH.
Qed.

Lemma Join_app (l1 l2 : list string) (sep : string) :
  l1 <> [] -> l2 <> [] ->
  Join (l1 ++ l2) sep = Join l1 sep +:+ sep +:+ Join l2 sep.
Proof.
  intros H1 H2. induction l1 as [|w l1 IH]; [done|].
  destruct l1 as [|w' l1].
  - simpl app. by rewrite Join_cons.
  - change ((w :: w' :: l1) ++ l2) with (w :: ((w' :: l1) ++ l2)).
    rewrite !Join_cons by done. rewrite IH by done.
    by rewrite !append_assoc.
Qed.

Lemma Split_bare (sep : Ascii.ascii) (s : string) :
  contains sep s = false -> Split sep s = [s].
Proof.
  induction s as [|c s IH]; simpl; [done|].
  destruct (Ascii.eqb c sep); simpl; [done|]. intros Hs. by rewrite IH.
Qed.

Lemma Split_append (sep : Ascii.ascii) (a b : string) :
  contains sep b = false ->
  exists l, l <> [] /\ Split sep (a +:+ String sep b) = l ++ [b].
Proof.
  intros Hb. induction a as [|c a (l & Hl & IH)].
  - exists [""]. split; [done|].
    rewrite append_nil_l. simpl. by rewrite Ascii.eqb_refl, Split_bare.
  - rewrite append_cons. simpl. rewrite IH. destruct (Ascii.eqb c sep).
    + by exists ("" :: l).
    + destruct l as [|w l]; [done|]. by exists (String c w :: l).
Qed.

Lemma last_Split_append (sep : Ascii.ascii) (a b : string) :
  contains sep b = false -> last (Split sep (a +:+ String sep b)) = Some b.
Proof.
  intros Hb. destruct (Split_append sep a b Hb) as (l & _ & ->).
  apply last_snoc.
Qed.

Lemma last_Split (sep : Ascii.ascii) (s : string) :
  exists w, last (Split sep s) = Some w /\ contains sep w = false.
Proof.
  pose proof (Split_nonempty sep s) as Hne.
  pose proof (Split_words sep s) as Hw.
  destruct (last (Split sep s)) as [w|] eqn:E.
  - exists w. split; [done|].
    rewrite Forall_forall in Hw. apply Hw.
    rewrite last_lookup in E. by apply list_elem_of_lookup_2 in E.
  - by apply last_None in E.
Qed.

Lemma contains_append (c : Ascii.ascii) (a b : string) :
  contains c (a +:+ b) = contains c a || contains c b.
Proof.
  induction a as [|x a IH]; [by rewrite append_nil_l|].
  rewrite append_cons. simpl. by rewrite IH, orb_assoc.
Qed.

Lemma substring_prefix (n : nat) (s : string) :
  exists rest, s = String.substring 0 n s +:+ rest.
Proof.
  revert n. induction s as [|c s IH]; intros [|n]; simpl.
  - by exists "".
  - by exists "".
  - exists (String c s). by rewrite append_nil_l.
  - destruct (IH n) as [rest Hrest]. exists rest.
    by rewrite append_cons, <- Hrest.
Qed.

Lemma substring_length (n : nat) (s : string) :
  String.length (String.substring 0 n s) = Nat.min n (String.length s).
Proof.
  revert n. induction s as [|c s IH]; intros [|n]; simpl; try done.
  by rewrite IH.
Qed.

Lemma substring_all (n : nat) (s : string) :
  (String.length s <= n)%nat -> String.substring 0 n s = s.
Proof.
  revert n. induction s as [|c s IH]; intros [|n]; simpl; try done; try lia.
  intros Hle. rewrite IH; [done | lia].
Qed.

Lemma contains_shortSha (c : Ascii.ascii) (s : string) :
  contains c s = false -> contains c (shortSha s) = false.
Proof.
  intros Hs. destruct (substring_prefix (Nat.min (String.length s) 7) s) as [rest Hr].
  fold (shortSha s) in Hr. rewrite Hr, contains_append in Hs.
  by apply orb_false_iff in Hs as [? _].
Qed.

Lemma firstError_None {A : Type} (f : A -> option error) (l : list A) :
  firstError f l = None <-> Forall (fun x => f x = None) l.
Proof.
  induction l as [|x l IH]; simpl; [by split; [constructor|]|].
  destruct (f x) eqn:E.
  - split; [done|]. inversion 1; congruence.
  - rewrite IH. split; [by constructor | by inversion 1].
Qed.

(** X14. [shortSha] keeps the first seven bytes: its result is a prefix of
    the SHA of length [min (len sha) 7], a SHA of at most seven bytes is
    returned as it is, and shortening twice is shortening once. *)
Theorem shortSha_prefix (sha : string) :
  String.length (shortSha sha) = Nat.min (String.length sha) 7 /\
  (exists rest, sha = shortSha sha +:+ rest) /\
  ((String.length sha <= 7)%nat -> shortSha sha = sha) /\
  shortSha (shortSha sha) = shortSha sha.
Proof.
  assert (String.length (shortSha sha) = Nat.min (String.length sha) 7) as Hlen.
  { unfold shortSha. rewrite substring_length. lia. }
  split; [done|]. split; [apply substring_prefix|]. split.
  - intros Hle. unfold shortSha. apply substring_all. lia.
  - unfold shortSha at 1. apply substring_all. lia.
Qed.

(** X15. [NameStagingDirectory] never indexes an empty slice, and the name
    it gives is the source, a dash and a rest without [/]: whatever the
    branch and the SHA are, the package is staged directly in the staging
    directory. *)
Theorem NameStagingDirectory_name (source branch sha : string) :
  exists rest,
    NameStagingDirectory source branch sha = Some (source +:+ "-" +:+ rest) /\
    contains slash rest = false.
Proof.
  unfold NameStagingDirectory.
  destruct (last_Split slash branch) as (b & -> & Hb).
  destruct (last_Split slash sha) as (s & -> & Hs). simpl.
  destruct (String.eqb b s).
  - by exists b.
  - exists (b +:+ "-" +:+ shortSha s). split; [done|].
    rewrite !contains_append, Hb, contains_shortSha by done. done.
Qed.

(** X16. The name of a staged package depends only on what follows the
    last [/] of the branch and of the SHA.  When these are the same -- as
    for the target of a remote diff, where the ref is passed for both --
    the name is the source and the reference; otherwise it is the source,
    the reduced branch and the first seven bytes of the reduced SHA. *)
Theorem NameStagingDirectory_reduced (source p q branch sha : string) :
  contains slash branch = false -> contains slash sha = false ->
  NameStagingDirectory source (p +:+ String slash branch) (q +:+ String slash sha)
  = NameStagingDirectory source branch sha /\
  NameStagingDirectory source branch branch = Some (source +:+ "-" +:+ branch) /\
  (branch <> sha ->
   NameStagingDirectory source branch sha
   = Some (source +:+ "-" +:+ branch +:+ "-" +:+ shortSha sha)).
Proof.
  intros Hb Hs. unfold NameStagingDirectory.
  rewrite !last_Split_append, !Split_bare by done. simpl.
  split; [done|]. split.
  - by rewrite String.eqb_refl.
  - intros Hne. apply String.eqb_neq in Hne. by rewrite Hne.
Qed.

(** X17. The arguments of the diff tool are its options, split at each
    space, followed by the packages in their order; no argument taken from
    the options contains a space, and without options the packages are the
    only arguments. *)
Theorem diffArgs_shape (d : defaultPkgDiffer) (pkgs : list string) :
  exists opts,
    diffArgs d pkgs = opts ++ pkgs /\
    Forall (fun w => contains space w = false) opts /\
    (DiffToolOpts d = "" <-> opts = []) /\
    (opts <> [] -> Join opts " " = DiffToolOpts d).
Proof.
  unfold diffArgs. destruct (String.eqb (DiffToolOpts d) "") eqn:E; simpl.
  - apply String.eqb_eq in E. exists []. by rewrite E.
  - apply String.eqb_neq in E. exists (Split space (DiffToolOpts d)).
    split; [done|]. split; [apply Split_words|]. split.
    + split; [done|]. intros Hs. by apply Split_nonempty in Hs.
    + intros _. apply (Join_Split space).
Qed.

(** X18. [Diff] prepares the packages in their order, and all are prepared
    exactly when [.git] and the Kptfile could be removed from each of
    them. *)
Theorem prepareAll_None_iff (H : Host) (pkgs : list string) :
  prepareAll H pkgs = None <->
  forall pkg path, pkg ∈ pkgs -> path ∈ [".git"; KptFileName] ->
                   RemoveAll H (filepath_Join H pkg path) = None.
Proof.
  unfold prepareAll. rewrite firstError_None, Forall_forall.
  split.
  - intros Hall pkg path Hpkg Hpath. specialize (Hall pkg Hpkg).
    unfold prepareForDiff in Hall. rewrite firstError_None, Forall_forall in Hall.
    by apply Hall.
  - intros Hall pkg Hpkg. unfold prepareForDiff.
    rewrite firstError_None, Forall_forall. intros path Hpath. by apply Hall.
Qed.

(** X19. [Diff] returns no error exactly when every package was prepared
    and the diff tool exited with code 0 or 1.  An error it returns is the
    error of the first step that failed; the tool is not run, and nothing
    is written, when a package cannot be prepared; and the warning is
    printed exactly when the tool exits with a code other than 0 and 1. *)
Theorem Diff_outcome (H : Host) (d : defaultPkgDiffer) (pkgs : list string) :
  (err (Diff H d pkgs) = None <->
   prepareAll H pkgs = None /\
   (Run H (DiffTool d) (diffArgs d pkgs) = None \/
    Run H (DiffTool d) (diffArgs d pkgs) = Some (ExitError 1))) /\
  (forall e, err (Diff H d pkgs) = Some e ->
     prepareAll H pkgs = Some e \/
     (prepareAll H pkgs = None /\ Run H (DiffTool d) (diffArgs d pkgs) = Some e)) /\
  (prepareAll H pkgs <> None ->
   output (Diff H d pkgs) = [] /\ stdout (Diff H d pkgs) = []) /\
  (stdout (Diff H d pkgs) <> [] <->
   prepareAll H pkgs = None /\
   exists code, code <> 1%Z /\
     Run H (DiffTool d) (diffArgs d pkgs) = Some (ExitError code)).
Proof.
  unfold Diff. destruct (prepareAll H pkgs) as [e0|]; simpl.
  { split; [by split; [|intros [? _]]|]. split; [intros e [= <-]; by left|].
    split; [done|]. split; [done|]. by intros [? _]. }
  destruct (Run H (DiffTool d) (diffArgs d pkgs)) as [[code|msg]|]; simpl.
  - destruct (code =? 1)%Z eqn:E; simpl.
    + apply Z.eqb_eq in E as ->.
      split; [split; [auto | done]|]. split; [done|]. split; [done|].
      split; [done|]. intros (_ & code & Hc & [= <-]). done.
    + apply Z.eqb_neq in E.
      split; [split; [done | intros (_ & [? | [= ?]]); done]|].
      split; [intros e [= <-]; by right|]. split; [done|].
      split; [|done]. intros _. split; [done|]. by exists code.
  - split; [split; [done | intros (_ & [? | ?]); done]|].
    split; [intros e [= <-]; by right|]. split; [done|].
    split; [done|]. intros (_ & code & _ & ?). done.
  - split; [split; [auto | done]|]. split; [done|]. split; [done|].
    split; [done|]. intros (_ & code & _ & ?). done.
Qed.

(** X20. In debug mode [Diff] writes the command it runs: the tool, the
    options exactly as they were given and the packages, separated by
    single spaces. *)
Theorem Diff_debug_line (H : Host) (d : defaultPkgDiffer) (pkgs : list string) :
  prepareAll H pkgs = None -> Debug d = true ->
  DiffToolOpts d <> "" -> pkgs <> [] ->
  output (Diff H d pkgs)
  = [DiffTool d +:+ " " +:+ DiffToolOpts d +:+ " " +:+ Join pkgs " " +:+ nl].
Proof.
  intros Hprep Hdebug Hopts Hpkgs.
  assert (output (Diff H d pkgs)
          = [Join (DiffTool d :: diffArgs d pkgs) " " +:+ nl]) as ->.
  { unfold Diff. rewrite Hprep, Hdebug.
    destruct (Run H (DiffTool d) (diffArgs d pkgs)) as [[code|msg]|]; [|done|done].
    by destruct (code =? 1)%Z. }
  unfold diffArgs. apply String.eqb_neq in Hopts. rewrite Hopts. simpl negb.
  cbn match.
  rewrite Join_cons by (intros E; apply app_eq_nil in E as [E _];
                        by apply Split_nonempty in E).
  rewrite Join_app by (done || apply Split_nonempty).
  rewrite (Join_Split space). by rewrite !append_assoc.
Qed.

Lemma NameStagingDirectory_reduced_witness :
  NameStagingDirectory "target" "refs/tags/v1.0" "upstream/v0.9.1-long"
  = NameStagingDirectory "target" "v1.0" "v0.9.1-long" /\
  NameStagingDirectory "target" "v1.0" "v1.0" = Some "target-v1.0" /\
  ("v1.0" <> "v0.9.1-long" ->
   NameStagingDirectory "target" "v1.0" "v0.9.1-long"
   = Some ("target" +:+ "-" +:+ "v1.0" +:+ "-" +:+ shortSha "v0.9.1-long")).
Proof.
  apply (NameStagingDirectory_reduced "target" "refs/tags" "upstream"
           "v1.0" "v0.9.1-long"); reflexivity.
Defined.

Lemma Diff_debug_line_witness :
  output (Diff sampleHost (debugDiffer "-r  -u") ["local-main"; "remote-main"])
  = ["diff" +:+ " " +:+ "-r  -u" +:+ " " +:+ Join ["local-main"; "remote-main"] " "
     +:+ nl].
Proof.
  apply (Diff_debug_line sampleHost (debugDiffer "-r  -u")
           ["local-main"; "remote-main"]);
    [reflexivity | reflexivity | discriminate | discriminate].
Defined.

(** ** The command *)

Lemma bind_events {A B : Type} (m : exec A) (f : A -> exec B) (P : event -> Prop) :
  Forall P m.1 -> (forall a, m.2 = inr a -> Forall P (f a).1) ->
  Forall P (m ≫= f).1.
Proof.
  destruct m as [ev [e|a]]; simpl; intros Hm Hf; [done|].
  specialize (Hf a eq_refl). destruct (f a) as [ev' x]. simpl in *.
  apply Forall_app. by split.
Qed.

Lemma bind_ending {A B : Type} (m : exec A) (f : A -> exec B) (Q : ending -> Prop) :
  (forall e, m.2 = inl e -> Q e) ->
  (forall a, m.2 = inr a -> forall e, (f a).2 = inl e -> Q e) ->
  forall e, (m ≫= f).2 = inl e -> Q e.
Proof.
  destruct m as [ev [e0|a]]; simpl; intros Hm Hf e.
  - intros [= <-]. by apply Hm.
  - specialize (Hf a eq_refl e). destruct (f a) as [ev' x]. simpl in *. done.
Qed.

Lemma named_inr (n : option string) (a : string) :
  (named n).2 = inr a -> n = Some a.
Proof. destruct n; simpl; [by intros [= ->] | done]. Qed.

Lemma guard_events (e : option error) (wrap : error -> error) :
  (guard e wrap).1 = [].
Proof. by destruct e. Qed.

Lemma named_events (n : option string) : (named n).1 = [].
Proof. by destruct n. Qed.

Section Command.

Context (H : Host) (F : Files).

Lemma fetch_events (c : Command.t) (stagingDir targetDir repo path ref : string)
    (P : event -> Prop) :
  P (Fetched targetDir ref) ->
  Forall P (fetch c stagingDir targetDir repo path ref).1.
Proof.
  intros HP. unfold fetch. destruct (Command.PkgGetter c) as [getter|]; [|done].
  destruct (getter _ _ _ _ _) as [dir [e|]]; simpl; by repeat constructor.
Qed.

Lemma compare_events (c : Command.t) (pkgs : list string) (P : event -> Prop) :
  P (Compared pkgs) -> Forall P (compare c pkgs).1.
Proof.
  intros HP. unfold compare. destruct (Command.PkgDiffer c); [|done].
  simpl. by repeat constructor.
Qed.

End Command.

Lemma NameStagingDirectory_Some (source branch sha : string) :
  exists n, NameStagingDirectory source branch sha = Some n.
Proof.
  unfold NameStagingDirectory.
  destruct (last_Split slash branch) as (b & -> & _).
  destruct (last_Split slash sha) as (s & -> & _). simpl.
  destruct (String.eqb b s); eauto.
Qed.

Lemma named_ending (source branch sha : string) (e : ending) :
  (named (NameStagingDirectory source branch sha)).2 = inl e -> False.
Proof. by destruct (NameStagingDirectory_Some source branch sha) as [n ->]. Qed.

Lemma guard_ending (o : option error) (wrap : error -> error) (e : ending) :
  (guard o wrap).2 = inl e -> exists x, o = Some x /\ e = Return (Some (wrap x)).
Proof. destruct o as [x|]; simpl; [intros [= <-]; eauto | done]. Qed.

Lemma guard_inr (o : option error) (wrap : error -> error) (u : unit) :
  (guard o wrap).2 = inr u -> o = None.
Proof. by destruct o. Qed.

Section CommandRun.

Context (H : Host) (F : Files).

Lemma fetch_ending (c : Command.t) (stagingDir targetDir repo path ref : string)
    (e : ending) :
  (fetch c stagingDir targetDir repo path ref).2 = inl e ->
  (Command.PkgGetter c = None /\ e = Panics) \/
  (exists x, e = Return (Some x) /\
     (getterOf H F c stagingDir targetDir repo path ref).2 = Some x).
Proof.
  unfold fetch, getterOf. destruct (Command.PkgGetter c) as [getter|]; simpl.
  - destruct (getter _ _ _ _ _) as [dir [x|]]; simpl; [|done].
    intros [= <-]. right. eauto.
  - intros [= <-]. by left.
Qed.

Lemma fetch_inr (c : Command.t) (stagingDir targetDir repo path ref dir : string) :
  (fetch c stagingDir targetDir repo path ref).2 = inr dir ->
  getterOf H F c stagingDir targetDir repo path ref = (dir, None).
Proof.
  unfold fetch, getterOf. destruct (Command.PkgGetter c) as [getter|]; simpl; [|done].
  destruct (getter _ _ _ _ _) as [dir' [x|]]; simpl; [done|]. by intros [= ->].
Qed.

Lemma compare_ending (c : Command.t) (pkgs : list string) (e : ending) :
  (compare c pkgs).2 = inl e ->
  (Command.PkgDiffer c = None /\ e = Panics) \/
  e = Return (err (differOf H F c pkgs)).
Proof.
  unfold compare, differOf. destruct (Command.PkgDiffer c) as [differ|]; simpl.
  - intros [= <-]. by right.
  - intros [= <-]. by left.
Qed.

Lemma getterOf_DefaultValues (c : Command.t) :
  getterOf H F (DefaultValues H F c) = getterOf H F c.
Proof. unfold getterOf. simpl. by destruct (Command.PkgGetter c). Qed.

Lemma differOf_DefaultValues (c : Command.t) :
  differOf H F (DefaultValues H F c) = differOf H F c.
Proof. unfold differOf. simpl. by destruct (Command.PkgDiffer c). Qed.

(** Walking through [staged]: every call it makes satisfies [P]. *)
Ltac walk solve_event :=
  repeat match goal with
  | |- Forall _ (_ ≫= _).1 => apply bind_events; [|intros ? ?]
  | |- Forall _ (named _).1 => rewrite named_events; constructor
  | |- Forall _ (guard _ _).1 => rewrite guard_events; constructor
  | |- Forall _ (emit _).1 => constructor; [solve_event | constructor]
  | |- Forall _ (fetch _ _ _ _ _ _).1 => apply fetch_events; solve_event
  | |- Forall _ (compare _ _).1 => apply compare_events; solve_event
  | |- Forall _ (stop _).1 => constructor
  | |- Forall _ (if ?b then _ else _).1 => destruct b eqn:?
  | |- Forall _ (match ?x with inl _ => _ | inr _ => _ end).1 => destruct x eqn:?
  | |- Forall _ (mret _).1 => constructor
  end.

(** Walking through [staged]: however it ends, [Q] holds. *)
Ltac walk_end solve_end :=
  repeat match goal with
  | |- forall e, (_ ≫= _).2 = inl e -> _ => apply bind_ending; [|intros ? ?]
  | |- forall e, (named _).2 = inl e -> _ =>
      let Hn := fresh in intros ? Hn; by apply named_ending in Hn
  | |- forall e, (guard _ _).2 = inl e -> _ =>
      let Hg := fresh in
      intros ? Hg; apply guard_ending in Hg as (? & ? & ->); solve_end
  | |- forall e, (emit _).2 = inl e -> _ => by intros ? [=]
  | |- forall e, (fetch _ _ _ _ _ _).2 = inl e -> _ =>
      let Hf := fresh in
      intros ? Hf; apply fetch_ending in Hf as [[? ->] | (? & -> & ?)]; solve_end
  | |- forall e, (compare _ _).2 = inl e -> _ =>
      let Hc := fresh in
      intros ? Hc; apply compare_ending in Hc as [[? ->] | ->]; solve_end
  | |- forall e, (stop _).2 = inl e -> _ => intros ? [= <-]; solve_end
  | |- forall e, (if ?b then _ else _).2 = inl e -> _ => destruct b eqn:?
  | |- forall e, (match ?x with inl _ => _ | inr _ => _ end).2 = inl e -> _ =>
      destruct x eqn:?
  | |- forall e, (mret _).2 = inl e -> _ => by intros ? [=]
  end.

Lemma staged_no_Removed (c : Command.t) (git : Git) (stagingDirectory : string) :
  Forall (fun ev => forall d, ev <> Removed d) (staged H F c git stagingDirectory).1.
Proof. unfold staged, stageDirectory. walk ltac:(done). Qed.

Lemma supported_iff (t : string) :
  t ∈ SupportedDiffTypes <->
  String.eqb t DiffTypeLocal || String.eqb t DiffTypeCombined
  || String.eqb t DiffTypeRemote || String.eqb t DiffType3Way = true.
Proof.
  unfold SupportedDiffTypes.
  rewrite !elem_of_cons, elem_of_nil, !orb_true_iff, !String.eqb_eq. tauto.
Qed.

Lemma Command_Run_events (c : Command.t) (P : event -> Prop) :
  (forall git stagingDirectory,
     ReadFile F (Command.Path c) = inr git -> TempDir F = inr stagingDirectory ->
     Forall P (staged H F (DefaultValues H F c) git stagingDirectory).1 /\
     (Command.Debug c = false -> P (Removed stagingDirectory))) ->
  Forall P (Command_Run H F c).1.
Proof.
  intros HP. unfold Command_Run. cbn [Command.Path Command.Debug DefaultValues].
  destruct (ReadFile F (Command.Path c)) as [e|git]; [done|].
  destruct (TempDir F) as [e|stagingDirectory]; [done|].
  destruct (HP git stagingDirectory eq_refl eq_refl) as [Hs Hr].
  destruct (staged H F (DefaultValues H F c) git stagingDirectory) as [events e].
  simpl in *. apply Forall_app. split; [done|].
  destruct (Command.Debug c); [done|]. constructor; [by apply Hr | done].
Qed.

(** X21. [Validate] accepts exactly the diff types of [SupportedDiffTypes]
    with a diff tool found on the PATH, and it then changes nothing of
    the command but the tool, which becomes the path found. *)
Theorem Validate_iff (c c' : Command.t) :
  Validate F c = inr c' <->
  Command.DiffType c ∈ SupportedDiffTypes /\
  exists path, LookPath F (Command.DiffTool c) = inr path /\
               c' = Command.set_DiffTool path c.
Proof.
  unfold Validate. rewrite supported_iff.
  destruct (_ || _); [|by split; [|intros [? _]]].
  destruct (LookPath F (Command.DiffTool c)) as [e|path].
  - split; [done|]. by intros (_ & path & ? & _).
  - split.
    + intros [= <-]. eauto.
    + intros (_ & path' & [= <-] & ->). done.
Qed.

(** X22. [Run] removes the staging directory exactly when the Kptfile was
    read, the staging directory was created and the command is not in
    debug mode -- whether [Run] then fails or not -- and the removal is
    the last thing it does. *)
Theorem Command_Run_cleanup (c : Command.t) (d : string) :
  (Removed d ∈ (Command_Run H F c).1 <->
   Command.Debug c = false /\ TempDir F = inr d /\
   exists git, ReadFile F (Command.Path c) = inr git) /\
  (Removed d ∈ (Command_Run H F c).1 ->
   last (Command_Run H F c).1 = Some (Removed d)).
Proof.
  unfold Command_Run. cbn [Command.Path Command.Debug DefaultValues].
  destruct (ReadFile F (Command.Path c)) as [e|git].
  { simpl. split; [split|]; [by intros ?%elem_of_nil | by intros (_ & _ & ? & ?) |
                             by intros ?%elem_of_nil]. }
  destruct (TempDir F) as [e|stagingDirectory].
  { simpl. split; [split|]; [by intros ?%elem_of_nil | by intros (_ & ? & _) |
                             by intros ?%elem_of_nil]. }
  pose proof (staged_no_Removed (DefaultValues H F c) git stagingDirectory) as Hno.
  destruct (staged H F (DefaultValues H F c) git stagingDirectory) as [events e].
  simpl in *. rewrite Forall_forall in Hno.
  assert (Removed d ∈ events ++ (if Command.Debug c then [] else [Removed stagingDirectory])
          -> Command.Debug c = false /\ d = stagingDirectory) as Hin.
  { rewrite elem_of_app. intros [Hin | Hin]; [by destruct (Hno _ Hin d)|].
    destruct (Command.Debug c); [by apply elem_of_nil in Hin|].
    apply list_elem_of_singleton in Hin. by injection Hin as ->. }
  split; [split|].
  - intros Hd. apply Hin in Hd as [-> ->]. eauto.
  - intros (-> & [= ->] & _). apply elem_of_app. right. by left.
  - intros Hd. apply Hin in Hd as [-> ->]. apply last_snoc.
Qed.

(** X23. The packages that [Run] asks of the getter are the upstream at
    the commit of the Kptfile, under the name of the remote package, and
    -- only for the diff types remote, combined and 3way -- the upstream
    at the target ref, under the name of the target: the ref of the
    command or, when it has none, the default ref of the repository. *)
Theorem Command_Run_fetches (c : Command.t) (t r : string) :
  Fetched t r ∈ (Command_Run H F c).1 ->
  exists git,
    ReadFile F (Command.Path c) = inr git /\
    ((NameStagingDirectory remotePackageSource (Ref git) (Commit git) = Some t /\
      r = Commit git) \/
     (Command.DiffType c ∈ [DiffTypeRemote; DiffTypeCombined; DiffType3Way] /\
      NameStagingDirectory targetRemotePackageSource r r = Some t /\
      targetRef F c git = inr r)).
Proof.
  revert t r.
  pose proof (Command_Run_events c
    (fun ev => match ev with
               | Fetched t r =>
                   exists git,
                     ReadFile F (Command.Path c) = inr git /\
                     ((NameStagingDirectory remotePackageSource (Ref git) (Commit git)
                       = Some t /\ r = Commit git) \/
                      (Command.DiffType c
                         ∈ [DiffTypeRemote; DiffTypeCombined; DiffType3Way] /\
                       NameStagingDirectory targetRemotePackageSource r r = Some t /\
                       targetRef F c git = inr r))
               | _ => True
               end)) as Hall.
  rewrite Forall_forall in Hall. intros t r Hin.
  apply (fun Hyp => Hall Hyp (Fetched t r) Hin). clear t r Hin Hall.
  intros git stagingDirectory Hgit Hdir. split; [|done].
  unfold staged, stageDirectory, targetRef.
  cbn [Command.Path Command.Debug Command.Ref Command.DiffType DefaultValues].
  walk ltac:(try done).
  - exists git. split; [done|]. left. split; [by apply named_inr|done].
  - exists git. split; [done|]. right.
    match goal with Hn : (named _).2 = inr _ |- _ => apply named_inr in Hn end.
    split; [|split; [done|]].
    + rewrite !elem_of_cons.
      repeat match goal with
             | Hb : (_ || _) = true |- _ => apply orb_true_iff in Hb as [Hb | Hb]
             | Hb : String.eqb _ _ = true |- _ => apply String.eqb_eq in Hb
             end; auto.
    + match goal with Hr : (if _ then _ else _).2 = inr _ |- _ => rename Hr into Href end.
      destruct (String.eqb (Command.Ref c) ""); [|by injection Href as ->].
      destruct (DefaultRef F (Repo git)); [done|]. by injection Href as ->.
Qed.

Lemma bind_inr {A B : Type} (m : exec A) (f : A -> exec B) (b : B) :
  (m ≫= f).2 = inr b -> exists a, m.2 = inr a /\ (f a).2 = inr b.
Proof.
  destruct m as [ev [e|a]]; simpl; [done|]. intros Hf. exists a. split; [done|].
  by destruct (f a).
Qed.

Lemma Command_Run_ending (c : Command.t) (Q : ending -> Prop) :
  (forall e, Q (Return (Some e))) ->
  (forall git stagingDirectory,
     ReadFile F (Command.Path c) = inr git -> TempDir F = inr stagingDirectory ->
     forall e, (staged H F (DefaultValues H F c) git stagingDirectory).2 = inl e ->
               Q e) ->
  Q (Command_Run H F c).2.
Proof.
  intros Herr HQ. unfold Command_Run. cbn [Command.Path Command.Debug DefaultValues].
  destruct (ReadFile F (Command.Path c)) as [e|git]; [apply Herr|].
  destruct (TempDir F) as [e|stagingDirectory]; [apply Herr|].
  specialize (HQ git stagingDirectory eq_refl eq_refl).
  destruct (staged H F (DefaultValues H F c) git stagingDirectory) as [events [e|[]]].
  simpl. by apply HQ.
Qed.

(** What the steps before the differ have established. *)
Ltac facts :=
  repeat match goal with
  | Hn : (named _).2 = inr _ |- _ => apply named_inr in Hn
  | Hf : (fetch _ _ _ _ _ _).2 = inr _ |- _ =>
      apply fetch_inr in Hf; rewrite getterOf_DefaultValues in Hf
  | Hb : String.eqb _ _ = true |- _ => apply String.eqb_eq in Hb
  | Hg : (_ ≫= _).2 = inr _ |- _ => apply bind_inr in Hg as (? & ? & ?)
  end.

Lemma targetRef_inr (c : Command.t) (git : Git) (ref : string) :
  (if String.eqb (Command.Ref c) "" then
     match DefaultRef F (Repo git) with
     | inl e => stop (Some e)
     | inr ref => mret (M:=exec) ref
     end
   else mret (M:=exec) (Command.Ref c)).2 = inr ref ->
  targetRef F c git = inr ref.
Proof.
  unfold targetRef. destruct (String.eqb (Command.Ref c) ""); [|by intros [= ->]].
  destruct (DefaultRef F (Repo git)); [done|]. by intros [= ->].
Qed.

(** X24. The packages that [Run] gives to the differ are, by diff type:
    local, the staged copy of the package and the upstream at the commit
    of the Kptfile; remote, that upstream and the upstream at the target
    ref; combined, the staged copy and the upstream at the target ref;
    3way, all three.  The staged copy is where [stageDirectory] made it and
    the upstream packages are where the getter put them. *)
Theorem Command_Run_compares (c : Command.t) (pkgs : list string) :
  Compared pkgs ∈ (Command_Run H F c).1 ->
  exists git stagingDirectory localPkgName upstreamPkgName,
    ReadFile F (Command.Path c) = inr git /\ TempDir F = inr stagingDirectory /\
    NameStagingDirectory localPackageSource (Ref git) (Commit git)
    = Some localPkgName /\
    NameStagingDirectory remotePackageSource (Ref git) (Commit git)
    = Some upstreamPkgName /\
    let currPkg := filepath_Join H stagingDirectory localPkgName in
    let upstreamPkg :=
      (getterOf H F c stagingDirectory upstreamPkgName (Repo git) (Directory git)
         (Commit git)).1 in
    (Command.DiffType c = DiffTypeLocal /\ pkgs = [currPkg; upstreamPkg]) \/
    exists ref upstreamTargetPkgName,
      targetRef F c git = inr ref /\
      NameStagingDirectory targetRemotePackageSource ref ref
      = Some upstreamTargetPkgName /\
      let upstreamTargetPkg :=
        (getterOf H F c stagingDirectory upstreamTargetPkgName (Repo git)
           (Directory git) ref).1 in
      (Command.DiffType c = DiffTypeRemote /\
       pkgs = [upstreamPkg; upstreamTargetPkg]) \/
      (Command.DiffType c = DiffTypeCombined /\
       pkgs = [currPkg; upstreamTargetPkg]) \/
      (Command.DiffType c = DiffType3Way /\
       pkgs = [currPkg; upstreamPkg; upstreamTargetPkg]).
Proof.
  revert pkgs.
  pose proof (Command_Run_events c
    (fun ev => match ev with
               | Compared pkgs =>
  exists git stagingDirectory localPkgName upstreamPkgName,
    ReadFile F (Command.Path c) = inr git /\ TempDir F = inr stagingDirectory /\
    NameStagingDirectory localPackageSource (Ref git) (Commit git)
    = Some localPkgName /\
    NameStagingDirectory remotePackageSource (Ref git) (Commit git)
    = Some upstreamPkgName /\
    let currPkg := filepath_Join H stagingDirectory localPkgName in
    let upstreamPkg :=
      (getterOf H F c stagingDirectory upstreamPkgName (Repo git) (Directory git)
         (Commit git)).1 in
    (Command.DiffType c = DiffTypeLocal /\ pkgs = [currPkg; upstreamPkg]) \/
    exists ref upstreamTargetPkgName,
      targetRef F c git = inr ref /\
      NameStagingDirectory targetRemotePackageSource ref ref
      = Some upstreamTargetPkgName /\
      let upstreamTargetPkg :=
        (getterOf H F c stagingDirectory upstreamTargetPkgName (Repo git)
           (Directory git) ref).1 in
      (Command.DiffType c = DiffTypeRemote /\
       pkgs = [upstreamPkg; upstreamTargetPkg]) \/
      (Command.DiffType c = DiffTypeCombined /\
       pkgs = [currPkg; upstreamTargetPkg]) \/
      (Command.DiffType c = DiffType3Way /\
       pkgs = [currPkg; upstreamPkg; upstreamTargetPkg])
               | _ => True
               end)) as Hall.
  rewrite Forall_forall in Hall. intros pkgs Hin.
  apply (fun Hyp => Hall Hyp (Compared pkgs) Hin). clear pkgs Hin Hall.
  intros git stagingDirectory Hgit Hdir. split; [|done].
  unfold staged, stageDirectory.
  cbn [Command.Path Command.Debug Command.Ref Command.DiffType DefaultValues].
  walk ltac:(try done).
  all: match goal with
       | Href : (if String.eqb (Command.Ref _) "" then _ else _).2 = inr _ |- _ =>
           apply targetRef_inr in Href
       end.
  all: match goal with
       | Htgt : (if ?b then _ else _).2 = inr _ |- _ =>
           match b with
           | (_ || _) => destruct b eqn:Hcond
           end
       end.
  all: facts.
  all: repeat match goal with
              | Hf : getterOf _ _ _ _ _ _ _ _ = (_, None) |- _ =>
                  apply (f_equal fst) in Hf; simpl in Hf
              end.
  all: exists git, stagingDirectory; do 2 eexists;
       split; [done|]; split; [done|]; split; [eassumption|]; split; [eassumption|];
       cbv zeta.
  all: try (left; split; [done|]; congruence).
  all: try (right; do 2 eexists; split; [eassumption|]; split; [eassumption|];
            cbv zeta;
            first [ left; split; [done|]; congruence
                  | right; left; split; [done|]; congruence
                  | right; right; split; [done|]; congruence ]).
  all: exfalso; repeat match goal with
                       | Hc : _ || _ = false |- _ =>
                           apply orb_false_iff in Hc as [? ?]
                       | Hc : String.eqb _ _ = false |- _ =>
                           apply String.eqb_neq in Hc
                       end; congruence.
Qed.

Ltac unsupported :=
  exfalso;
  match goal with Hn : _ ∉ SupportedDiffTypes |- _ => apply Hn end;
  apply supported_iff;
  repeat match goal with Hb : String.eqb _ _ = true |- _ => rewrite Hb end;
  rewrite ?orb_true_r; done.

(** X25. With a diff type that is not supported, [Run] gives nothing to
    the differ, fetches no target version and ends with an error: a
    command that was not validated fails, though only once the package
    is staged and its upstream fetched. *)
Theorem Command_Run_unsupported (c : Command.t) :
  Command.DiffType c ∉ SupportedDiffTypes ->
  (forall pkgs, Compared pkgs ∉ (Command_Run H F c).1) /\
  (forall git t r,
     ReadFile F (Command.Path c) = inr git ->
     Fetched t r ∈ (Command_Run H F c).1 -> r = Commit git) /\
  exists e, (Command_Run H F c).2 = Return (Some e).
Proof.
  intros Hno. split; [|split].
  - intros pkgs Hin.
    pose proof (Command_Run_events c (fun ev => forall pkgs, ev <> Compared pkgs))
      as Hall.
    rewrite Forall_forall in Hall.
    apply (fun Hyp => Hall Hyp (Compared pkgs) Hin pkgs); [|done].
    intros git stagingDirectory _ _. split; [|done].
    unfold staged, stageDirectory.
    cbn [Command.Path Command.Debug Command.Ref Command.DiffType DefaultValues].
    walk ltac:(first [done | unsupported]).
  - intros git t r Hgit Hin.
    pose proof (Command_Run_events c
                  (fun ev => match ev with
                             | Fetched t r => r = Commit git
                             | _ => True
                             end)) as Hall.
    rewrite Forall_forall in Hall.
    apply (fun Hyp => Hall Hyp (Fetched t r) Hin).
    intros git' stagingDirectory Hgit' _. split; [|done].
    assert (git' = git) as -> by congruence.
    unfold staged, stageDirectory.
    cbn [Command.Path Command.Debug Command.Ref Command.DiffType DefaultValues].
    walk ltac:(first [done | exfalso; apply Hno, supported_iff;
                             repeat match goal with
                                    | Hb : _ || _ = true |- _ =>
                                        apply orb_true_iff in Hb as [Hb | Hb]
                                    end;
                             match goal with
                             | Hb : String.eqb _ _ = true |- _ => rewrite Hb
                             end; rewrite ?orb_true_r; done]).
  - apply (Command_Run_ending c (fun e => exists x, e = Return (Some x)));
      [by eauto|].
    intros git stagingDirectory _ _.
    unfold staged, stageDirectory.
    cbn [Command.Path Command.Debug Command.Ref Command.DiffType DefaultValues].
    walk_end ltac:(first [by eauto | done | unsupported]).
Qed.

Lemma last_app_Some {A : Type} (l l' : list A) (x : A) :
  last l = Some x -> last (l' ++ l) = Some x.
Proof.
  intros Hl. destruct l as [|y l] using rev_ind; [done|].
  rewrite last_snoc in Hl. injection Hl as ->.
  by rewrite app_assoc, last_snoc.
Qed.

Lemma bind_both {A B : Type} (m : exec A) (f : A -> exec B)
    (R : list event -> ending -> Prop) :
  (forall ev ev' e, R ev e -> R (ev' ++ ev) e) ->
  (forall e, m.2 = inl e -> R m.1 e) ->
  (forall a, m.2 = inr a -> forall e, (f a).2 = inl e -> R (f a).1 e) ->
  forall e, (m ≫= f).2 = inl e -> R (m ≫= f).1 e.
Proof.
  destruct m as [ev [e0|a]]; simpl; intros Hst Hm Hf e.
  - intros [= <-]. by apply Hm.
  - specialize (Hf a eq_refl e). destruct (f a) as [ev' x]. simpl in *.
    intros Hx. by apply Hst, Hf.
Qed.

(** Walking through [staged]: what it did and how it ended satisfy [R]. *)
Ltac walk_both solve_both :=
  repeat match goal with
  | |- forall e, (_ ≫= _).2 = inl e -> _ => apply bind_both; [done| |intros ? ?]
  | |- forall e, (named _).2 = inl e -> _ =>
      let Hn := fresh in intros ? Hn; by apply named_ending in Hn
  | |- forall e, (guard _ _).2 = inl e -> _ =>
      let Hg := fresh in
      intros ? Hg; apply guard_ending in Hg as (? & ? & ->); solve_both
  | |- forall e, (emit _).2 = inl e -> _ => by intros ? [=]
  | |- forall e, (fetch _ _ _ _ _ _).2 = inl e -> _ =>
      let Hf := fresh in
      intros ? Hf; apply fetch_ending in Hf as [[? ->] | (? & -> & ?)]; solve_both
  | |- forall e, (compare _ _).2 = inl e -> _ =>
      unfold compare; cbn [Command.PkgDiffer DefaultValues]; simpl;
      intros ? [= <-]; solve_both
  | |- forall e, (stop _).2 = inl e -> _ => intros ? [= <-]; solve_both
  | |- forall e, (if ?b then _ else _).2 = inl e -> _ => destruct b eqn:?
  | |- forall e, (match ?x with inl _ => _ | inr _ => _ end).2 = inl e -> _ =>
      destruct x eqn:?
  | |- forall e, (mret _).2 = inl e -> _ => by intros ? [=]
  end.

Lemma staged_returns (c : Command.t) (git : Git) (stagingDirectory : string)
    (e : ending) :
  (staged H F (DefaultValues H F c) git stagingDirectory).2 = inl e ->
  e <> Panics /\
  (e = Return None ->
   exists pkgs,
     last (staged H F (DefaultValues H F c) git stagingDirectory).1
     = Some (Compared pkgs) /\
     err (differOf H F c pkgs) = None).
Proof.
  revert e.
  set (R := fun (ev : list event) (e : ending) =>
              e <> Panics /\
              (e = Return None ->
               exists pkgs, last ev = Some (Compared pkgs) /\
                            err (differOf H F c pkgs) = None)).
  change (forall e,
            (staged H F (DefaultValues H F c) git stagingDirectory).2 = inl e ->
            R (staged H F (DefaultValues H F c) git stagingDirectory).1 e).
  assert (forall ev ev' e, R ev e -> R (ev' ++ ev) e) as Hst.
  { intros ev ev' e [Hp Hn]. split; [done|]. intros He.
    destruct (Hn He) as (pkgs & Hl & Hd). exists pkgs. split; [|done].
    by apply last_app_Some. }
  unfold staged, stageDirectory.
  cbn [Command.Path Command.Debug Command.Ref Command.DiffType DefaultValues].
  walk_both ltac:(first [ by split
                        | by split; [|intros [= Hd]; eexists]
                        | done ]).
Qed.

(** X26. [Run] never panics, and it returns no error only when it gave
    packages to the differ and the differ returned no error. *)
Theorem Command_Run_returns (c : Command.t) :
  (Command_Run H F c).2 <> Panics /\
  ((Command_Run H F c).2 = Return None ->
   exists pkgs, Compared pkgs ∈ (Command_Run H F c).1 /\
                err (differOf H F c pkgs) = None).
Proof.
  unfold Command_Run. cbn [Command.Path Command.Debug DefaultValues].
  destruct (ReadFile F (Command.Path c)) as [e|git]; [done|].
  destruct (TempDir F) as [e|stagingDirectory]; [done|].
  pose proof (staged_returns c git stagingDirectory) as Hs.
  destruct (staged H F (DefaultValues H F c) git stagingDirectory) as [events [e|[]]].
  simpl in *. destruct (Hs e eq_refl) as [Hp Hn]. split; [done|].
  intros He. destruct (Hn He) as (pkgs & Hl & Hd). exists pkgs. split; [|done].
  apply elem_of_app. left.
  rewrite last_lookup in Hl. by apply list_elem_of_lookup_2 in Hl.
Qed.

(** X27. [kpt pkg diff] with the diff type local, end to end: when the
    Kptfile is read, the package is staged, its upstream is fetched at the
    commit of the Kptfile, the target ref is known, [.git] and the Kptfile
    are removed from both staged packages and the diff tool exits with
    code 0 or 1, then [Run] returns no error.  It stages, copies, fetches,
    compares the staged copy with the upstream, and removes the staging
    directory unless it is in debug mode. *)
Theorem Command_Run_local (c : Command.t) (git : Git)
    (stagingDirectory localPkgName upstreamPkgName : string) :
  Command.DiffType c = DiffTypeLocal ->
  Command.PkgDiffer c = None -> Command.PkgGetter c = None ->
  ReadFile F (Command.Path c) = inr git -> TempDir F = inr stagingDirectory ->
  NameStagingDirectory localPackageSource (Ref git) (Commit git)
  = Some localPkgName ->
  NameStagingDirectory remotePackageSource (Ref git) (Commit git)
  = Some upstreamPkgName ->
  let currPkg := filepath_Join H stagingDirectory localPkgName in
  let upstreamPkg := filepath_Join H stagingDirectory upstreamPkgName in
  Mkdir F currPkg = None -> CopyDir F (Command.Path c) currPkg = None ->
  Mkdir F upstreamPkg = None ->
  get_Run F (Repo git) (Directory git) (Commit git) upstreamPkg = None ->
  (exists ref, targetRef F c git = inr ref) ->
  prepareAll H [currPkg; upstreamPkg] = None ->
  (let args :=
     diffArgs {| DiffType := Command.DiffType c; DiffTool := Command.DiffTool c;
                 DiffToolOpts := Command.DiffToolOpts c;
                 Debug := Command.Debug c |} [currPkg; upstreamPkg] in
   Run H (Command.DiffTool c) args = None \/
   Run H (Command.DiffTool c) args = Some (ExitError 1)) ->
  Command_Run H F c
  = ([Staged currPkg; Copied (Command.Path c) currPkg;
      Fetched upstreamPkgName (Commit git)]
     ++ (if Command.Debug c
         then [Wrote ("diffing currPkg: " +:+ currPkg +:+ ", upstreamPkg: "
                      +:+ upstreamPkg +:+ ", upstreamTargetPkg: " +:+ ""
                      +:+ " " +:+ nl)]
         else [])
     ++ [Compared [currPkg; upstreamPkg]]
     ++ (if Command.Debug c then [] else [Removed stagingDirectory]),
     Return None).
Proof.
  intros Htype Hdiffer Hgetter Hgit Hdir Hln Hrn currPkg upstreamPkg
    Hmk Hcp Hmk' Hget [ref Href] Hprep Htool.
  assert (err (defaultDiffer H c [currPkg; upstreamPkg]) = None) as Herr.
  { unfold defaultDiffer, Diff. rewrite Hprep. cbn [DiffTool] in *.
    destruct Htool as [-> | ->]; done. }
  assert ((if String.eqb (Command.Ref c) "" then
             match DefaultRef F (Repo git) with
             | inl e => stop (Some e)
             | inr ref => mret (M:=exec) ref
             end
           else mret (M:=exec) (Command.Ref c)) = mret ref) as Href'.
  { unfold targetRef in Href. destruct (String.eqb (Command.Ref c) "");
      [|by injection Href as ->].
    by destruct (DefaultRef F (Repo git)); [|injection Href as ->]. }
  unfold Command_Run. cbn [Command.Path Command.Debug DefaultValues].
  rewrite Hgit, Hdir. unfold staged, stageDirectory, fetch, compare.
  cbn [Command.Path Command.Debug Command.Ref Command.DiffType Command.PkgDiffer
       Command.PkgGetter DefaultValues].
  rewrite Hln, Hrn, Hdiffer, Hgetter. cbn [default named].
  unfold GetPkg, stageDirectory.
  cbn [mbind exec_bind mret exec_ret emit app]. fold currPkg. rewrite Hmk.
  cbn [mbind exec_bind mret exec_ret emit guard app]. rewrite Hcp.
  cbn [mbind exec_bind mret exec_ret emit guard app]. fold upstreamPkg.
  rewrite Hmk', Hget.
  cbn [mbind exec_bind mret exec_ret emit guard app]. rewrite Href'.
  cbn [mbind exec_bind mret exec_ret emit guard app]. rewrite Htype.
  cbn [String.eqb Ascii.eqb Bool.eqb orb DiffTypeLocal DiffTypeRemote
       DiffTypeCombined DiffType3Way].
  cbn [mbind exec_bind mret exec_ret emit guard app].
  destruct (Command.Debug c);
    cbn [mbind exec_bind mret exec_ret emit guard stop app]; by rewrite Herr.
Qed.

End CommandRun.

(** [kpt pkg diff app --diff-type 3way]: the three packages are staged
    and compared, and the staging directory is removed. *)
Example Command_Run_3way :
  Command_Run sampleHost sampleFiles (sampleCommand "3way")
  = ([Staged "/tmp/kpt-1/local-v1.0-1234567";
      Copied "app" "/tmp/kpt-1/local-v1.0-1234567";
      Fetched "remote-v1.0-1234567" "1234567890abcdef";
      Fetched "target-main" "main";
      Compared ["/tmp/kpt-1/local-v1.0-1234567"; "/tmp/kpt-1/remote-v1.0-1234567";
                "/tmp/kpt-1/target-main"];
      Removed "/tmp/kpt-1"],
     Return None).
Proof. vm_compute. reflexivity. Qed.

Lemma Command_Run_fetches_witness :
  exists git,
    ReadFile sampleFiles (Command.Path (sampleCommand "remote")) = inr git /\
    ((NameStagingDirectory remotePackageSource (Ref git) (Commit git)
      = Some "target-main" /\ "main" = Commit git) \/
     (Command.DiffType (sampleCommand "remote")
        ∈ [DiffTypeRemote; DiffTypeCombined; DiffType3Way] /\
      NameStagingDirectory targetRemotePackageSource "main" "main"
      = Some "target-main" /\
      targetRef sampleFiles (sampleCommand "remote") git = inr "main")).
Proof.
  apply (Command_Run_fetches sampleHost sampleFiles (sampleCommand "remote")
           "target-main" "main").
  vm_compute. repeat constructor.
Defined.

Lemma Command_Run_compares_witness :
  exists git stagingDirectory localPkgName upstreamPkgName,
    ReadFile sampleFiles (Command.Path (sampleCommand "combined")) = inr git /\
    TempDir sampleFiles = inr stagingDirectory /\
    NameStagingDirectory localPackageSource (Ref git) (Commit git)
    = Some localPkgName /\
    NameStagingDirectory remotePackageSource (Ref git) (Commit git)
    = Some upstreamPkgName /\
    let currPkg := filepath_Join sampleHost stagingDirectory localPkgName in
    let upstreamPkg :=
      (getterOf sampleHost sampleFiles (sampleCommand "combined") stagingDirectory
         upstreamPkgName (Repo git) (Directory git) (Commit git)).1 in
    (Command.DiffType (sampleCommand "combined") = DiffTypeLocal /\
     ["/tmp/kpt-1/local-v1.0-1234567"; "/tmp/kpt-1/target-main"]
     = [currPkg; upstreamPkg]) \/
    exists ref upstreamTargetPkgName,
      targetRef sampleFiles (sampleCommand "combined") git = inr ref /\
      NameStagingDirectory targetRemotePackageSource ref ref
      = Some upstreamTargetPkgName /\
      let upstreamTargetPkg :=
        (getterOf sampleHost sampleFiles (sampleCommand "combined") stagingDirectory
           upstreamTargetPkgName (Repo git) (Directory git) ref).1 in
      (Command.DiffType (sampleCommand "combined") = DiffTypeRemote /\
       ["/tmp/kpt-1/local-v1.0-1234567"; "/tmp/kpt-1/target-main"]
       = [upstreamPkg; upstreamTargetPkg]) \/
      (Command.DiffType (sampleCommand "combined") = DiffTypeCombined /\
       ["/tmp/kpt-1/local-v1.0-1234567"; "/tmp/kpt-1/target-main"]
       = [currPkg; upstreamTargetPkg]) \/
      (Command.DiffType (sampleCommand "combined") = DiffType3Way /\
       ["/tmp/kpt-1/local-v1.0-1234567"; "/tmp/kpt-1/target-main"]
       = [currPkg; upstreamPkg; upstreamTargetPkg]).
Proof.
  apply (Command_Run_compares sampleHost sampleFiles (sampleCommand "combined")
           ["/tmp/kpt-1/local-v1.0-1234567"; "/tmp/kpt-1/target-main"]).
  vm_compute. repeat constructor.
Defined.

Lemma Command_Run_unsupported_witness :
  (forall pkgs,
     Compared pkgs ∉ (Command_Run sampleHost sampleFiles (sampleCommand "sideways")).1) /\
  (forall git t r,
     ReadFile sampleFiles (Command.Path (sampleCommand "sideways")) = inr git ->
     Fetched t r ∈ (Command_Run sampleHost sampleFiles (sampleCommand "sideways")).1 ->
     r = Commit git) /\
  exists e,
    (Command_Run sampleHost sampleFiles (sampleCommand "sideways")).2
    = Return (Some e).
Proof.
  apply (Command_Run_unsupported sampleHost sampleFiles (sampleCommand "sideways")).
  apply (bool_decide_unpack _). vm_compute. exact I.
Defined.

Lemma Command_Run_local_witness :
  Command_Run sampleHost sampleFiles (sampleCommand "local")
  = ([Staged "/tmp/kpt-1/local-v1.0-1234567";
      Copied "app" "/tmp/kpt-1/local-v1.0-1234567";
      Fetched "remote-v1.0-1234567" "1234567890abcdef";
      Compared ["/tmp/kpt-1/local-v1.0-1234567"; "/tmp/kpt-1/remote-v1.0-1234567"];
      Removed "/tmp/kpt-1"],
     Return None).
Proof.
  apply (Command_Run_local sampleHost sampleFiles (sampleCommand "local") sampleGit
           "/tmp/kpt-1" "local-v1.0-1234567" "remote-v1.0-1234567");
    try reflexivity.
  - exists "main". reflexivity.
  - right. reflexivity.
Defined.

End DiffFacts.

(** ** The order of inventories in the live tests *)

Module LiveFacts.
Import Live.

Lemma less_irrefl (a : string) : less a a = false.
Proof.
  induction a as [|x a IH]; simpl; [done|].
  by rewrite Nat.ltb_irrefl, Ascii.eqb_refl.
Qed.

Lemma nat_of_ascii_inj (x y : Ascii.ascii) :
  Ascii.nat_of_ascii x = Ascii.nat_of_ascii y -> x = y.
Proof.
  intros E. rewrite <- (Ascii.ascii_nat_embedding x), <- (Ascii.ascii_nat_embedding y).
  by rewrite E.
Qed.

Lemma less_cons (x y : Ascii.ascii) (a b : string) :
  less (String x a) (String y b) = true <->
  (Ascii.nat_of_ascii x < Ascii.nat_of_ascii y)%nat \/ (x = y /\ less a b = true).
Proof.
  simpl. destruct (Nat.ltb_spec (Ascii.nat_of_ascii x) (Ascii.nat_of_ascii y)).
  { split; [by left | done]. }
  destruct (Ascii.eqb_spec x y) as [->|Hne].
  - split; [by right | intros [? | [_ ?]]; [lia | done]].
  - split; [done | intros [? | [? _]]; [lia | done]].
Qed.

Lemma less_trans (a b c : string) :
  less a b = true -> less b c = true -> less a c = true.
Proof.
  revert b c. induction a as [|x a IH]; intros [|y b] [|z c]; try done.
  rewrite !less_cons. intros [Hxy | [-> Hab]] [Hyz | [-> Hbc]].
  - left. lia.
  - by left.
  - by left.
  - right. split; [done|]. by apply (IH b).
Qed.

Lemma less_total (a b : string) : a <> b -> less a b = true \/ less b a = true.
Proof.
  revert b. induction a as [|x a IH]; intros [|y b] Hne; try done; [by left | by right|].
  rewrite !less_cons.
  destruct (Nat.lt_trichotomy (Ascii.nat_of_ascii x) (Ascii.nat_of_ascii y))
    as [? | [E | ?]]; [by left; left | | by right; left].
  apply nat_of_ascii_inj in E as ->.
  destruct (IH b) as [? | ?]; [congruence | by left; right | by right; right].
Qed.

Lemma less_asym (a b : string) : less a b = true -> less b a = false.
Proof.
  intros Hab. destruct (less b a) eqn:Hba; [|done].
  pose proof (less_trans a b a Hab Hba) as Haa. by rewrite less_irrefl in Haa.
Qed.

Lemma entryLess_lex (a b : InventoryEntry) :
  entryLess a b
  = lex (Group a) (Group b)
      (lex (Kind a) (Kind b)
         (lex (Name a) (Name b) (less (Namespace a) (Namespace b)))).
Proof. done. Qed.

Lemma lex_irrefl (x : string) (rest : bool) : lex x x rest = rest.
Proof. unfold lex. by rewrite String.eqb_refl. Qed.

Lemma lex_trans (x y z : string) (r1 r2 r3 : bool) :
  (r1 = true -> r2 = true -> r3 = true) ->
  lex x y r1 = true -> lex y z r2 = true -> lex x z r3 = true.
Proof.
  unfold lex. intros Hr.
  destruct (String.eqb_spec x y) as [->|Hxy]; simpl.
  - destruct (String.eqb_spec y z) as [->|Hyz]; simpl; [done|]. by intros _.
  - destruct (String.eqb_spec y z) as [->|Hyz]; simpl.
    + intros Hxz _. apply String.eqb_neq in Hxy. by rewrite Hxy.
    + intros Hxy' Hyz'. pose proof (less_trans x y z Hxy' Hyz') as Hxz.
      destruct (String.eqb_spec x z) as [->|_]; simpl; [|done].
      by rewrite less_irrefl in Hxz.
Qed.

Lemma lex_total (x y : string) (r r' : bool) :
  (x = y -> r = true \/ r' = true) ->
  lex x y r = true \/ lex y x r' = true.
Proof.
  unfold lex. intros Hr. destruct (String.eqb_spec x y) as [->|Hxy]; simpl.
  - rewrite String.eqb_refl. simpl. by apply Hr.
  - apply not_eq_sym in Hxy as Hyx. apply String.eqb_neq in Hyx. rewrite Hyx. simpl.
    by apply less_total.
Qed.

Lemma entryLess_irrefl (a : InventoryEntry) : entryLess a a = false.
Proof. rewrite entryLess_lex, !lex_irrefl. apply less_irrefl. Qed.

Lemma entryLess_trans (a b c : InventoryEntry) :
  entryLess a b = true -> entryLess b c = true -> entryLess a c = true.
Proof.
  rewrite !entryLess_lex. apply lex_trans, lex_trans, lex_trans, less_trans.
Qed.

Lemma entryLess_total (a b : InventoryEntry) :
  a <> b -> entryLess a b = true \/ entryLess b a = true.
Proof.
  intros Hne. rewrite !entryLess_lex.
  apply lex_total. intros Hg. apply lex_total. intros Hk.
  apply lex_total. intros Hn. apply less_total. intros Hns.
  apply Hne. destruct a, b. simpl in *. congruence.
Qed.

Lemma entryLess_asym (a b : InventoryEntry) :
  entryLess a b = true -> entryLess b a = false.
Proof.
  intros Hab. destruct (entryLess b a) eqn:Hba; [|done].
  pose proof (entryLess_trans a b a Hab Hba) as Haa.
  by rewrite entryLess_irrefl in Haa.
Qed.

Lemma SliceIsSorted_Sorted (inv : list InventoryEntry) :
  SliceIsSorted inv <-> Sorted (fun a b => entryLess b a = false) inv.
Proof.
  unfold SliceIsSorted, inventorySortFunc.
  induction inv as [|a inv IH]; [by split; [constructor | simpl; lia]|].
  split.
  - intros Hs. constructor.
    + apply IH. intros i Hi. apply (Hs (S i)). simpl. lia.
    + destruct inv as [|b inv]; constructor.
      specialize (Hs 0%nat). simpl in Hs.
      assert (Some (entryLess b a) = Some false) as [= ->]; [apply Hs; lia | done].
  - intros Hs. inversion Hs as [|? ? Hs' Hhd]; subst.
    intros [|i] Hi; simpl in *.
    + destruct inv as [|b inv]; simpl in *; [lia|].
      inversion Hhd; subst. simpl. by f_equal.
    + apply IH; [done | lia].
Qed.

(** X28. The comparison of [inventorySortFunc] is a strict total order on
    inventory entries, by group, then kind, then name, then namespace: no
    entry is less than itself, the comparison is transitive, and of two
    different entries exactly one is less than the other.  It is defined
    for the indices inside the inventory and for no others. *)
Theorem inventorySortFunc_order (inv : list InventoryEntry) (i j : nat) :
  (forall a, entryLess a a = false) /\
  (forall a b c, entryLess a b = true -> entryLess b c = true ->
                 entryLess a c = true) /\
  (forall a b, a <> b -> (entryLess a b = true <-> entryLess b a = false)) /\
  (is_Some (inventorySortFunc inv i j) <->
   (i < length inv)%nat /\ (j < length inv)%nat).
Proof.
  split; [apply entryLess_irrefl|]. split; [apply entryLess_trans|]. split.
  - intros a b Hne. split; [apply entryLess_asym|].
    intros Hba. destruct (entryLess_total a b Hne) as [? | Hba']; [done|].
    congruence.
  - unfold inventorySortFunc. rewrite <- !lookup_lt_is_Some.
    destruct (inv !! i) as [a|]; simpl.
    + destruct (inv !! j) as [b|]; simpl.
      * split; [by eauto | by eauto].
      * split; [by intros [? ?] | by intros [_ [? ?]]].
    + split; [by intros [? ?] | by intros [[? ?] _]].
Qed.

(** X29. [VerifyInventory] compares the inventories whatever the order
    of their entries: when the expected inventory and the one read from
    the cluster hold the same entries, sorting both with
    [inventorySortFunc] makes them equal. *)
Theorem VerifyInventory_any_order
    (expectedInventory inventory sortedExpected sortedInventory
       : list InventoryEntry) :
  expectedInventory ≡ₚ inventory ->
  sortedExpected ≡ₚ expectedInventory -> SliceIsSorted sortedExpected ->
  sortedInventory ≡ₚ inventory -> SliceIsSorted sortedInventory ->
  sortedExpected = sortedInventory.
Proof.
  intros Hperm He Hse Hi Hsi. apply SliceIsSorted_Sorted in Hse, Hsi.
  assert (Transitive (fun a b => entryLess b a = false)) as Htrans.
  { intros a b c Hab Hbc.
    destruct (decide (a = b)) as [->|Hne]; [done|].
    destruct (decide (b = c)) as [->|Hne']; [done|].
    destruct (entryLess_total a b Hne) as [Hlt | ?]; [|congruence].
    destruct (entryLess_total b c Hne') as [Hlt' | ?]; [|congruence].
    apply entryLess_asym. by apply (entryLess_trans a b c). }
  assert (AntiSymm eq (fun a b => entryLess b a = false)) as Hanti.
  { intros a b Hab Hba.
    destruct (decide (a = b)) as [|Hne]; [done|].
    destruct (entryLess_total a b Hne); congruence. }
  apply (Sorted_unique (fun a b => entryLess b a = false)); [done|done|].
  by rewrite He, Hperm, Hi.
Qed.

Lemma VerifyInventory_any_order_witness :
  [configMap "settings" "prod"; deployment "web" "prod"; deployment "web" "test"]
  = [configMap "settings" "prod"; deployment "web" "prod"; deployment "web" "test"].
Proof.
  apply (VerifyInventory_any_order
           [deployment "web" "test"; configMap "settings" "prod";
            deployment "web" "prod"]
           [deployment "web" "prod"; deployment "web" "test";
            configMap "settings" "prod"]).
  - apply (bool_decide_unpack _). vm_compute. exact I.
  - apply (bool_decide_unpack _). vm_compute. exact I.
  - intros [|[|i]] Hi; [reflexivity | reflexivity | simpl in Hi; lia].
  - apply (bool_decide_unpack _). vm_compute. exact I.
  - intros [|[|i]] Hi; [reflexivity | reflexivity | simpl in Hi; lia].
Defined.

End LiveFacts.
